(** * WTF embedding asset pipeline: prepare_glove.py and embed_commands.py

    A shallow embedding of the two preparation scripts of the repository:

    - [scripts/prepare_glove.py]: [load_glove_vectors] (the vocabulary
      reducer), [save_binary_format] (the writer of [glove.bin]),
      [verify_binary_file] and the steps of [main] that follow the
      download;
    - [scripts/embed_commands.py]: [load_glove_binary] (the reader of
      [glove.bin]), [tokenize], [compute_embedding], the embedding loop of
      [main], [save_embeddings] (the writer of [cmd_embeddings.bin]) and
      [verify_embeddings].

    Python values are modelled as follows.
    - [str] is a list of Unicode code points ([pystr]); [bytes] is a list of
      [Byte.byte].
    - [float] is an IEEE 754 binary64 number, represented by the Standard
      Library's [spec_float] with the operations of [SpecFloat] at precision
      53 and maximal exponent 1024.  [spec_float] has one NaN: sign and
      payload of a NaN are not tracked.
    - [dict] is an insertion-ordered association list with unique keys.
    - A raised exception is the [Err] case of [result]; code that reads or
      writes a file runs in a small state-and-error monad whose state is the
      file object. *)

From Stdlib Require Import String Ascii Strings.Byte SpecFloat.
From Stdlib Require Import ZArith List Bool Lia.
Import ListNotations.
Local Open Scope Z_scope.

Set Implicit Arguments.

(** ** Strings, bytes and exceptions *)

(** A Python [str]: its code points, each in [0, 0x10FFFF]. *)
Definition pystr := list Z.

(** The [str] written by an ASCII literal. *)
Definition str (s : string) : pystr :=
  map (fun a => Z.of_N (N_of_ascii a)) (list_ascii_of_string s).

Fixpoint str_eqb (a b : pystr) : bool :=
  match a, b with
  | [], [] => true
  | x :: a', y :: b' => (x =? y) && str_eqb a' b'
  | _, _ => false
  end.

Definition b2z (b : byte) : Z := Z.of_N (Byte.to_N b).

Definition z2b (z : Z) : byte :=
  match Byte.of_N (Z.to_N z) with
  | Some b => b
  | None => x00
  end.

(** The messages of [struct.error] that the two scripts can meet. *)
Inductive struct_error : Type :=
| UnpackRequires (n : nat)
    (* unpack requires a buffer of n bytes *)
| FormatRequires (code : ascii) (hi : Z)
    (* the format of this code requires 0 <= number <= hi *)
| PackExpected (n got : nat).
    (* pack expected n items for packing (got k) *)

(** Exceptions.  [UnicodeDecodeError] and [UnicodeEncodeError] carry the
    object that was being converted and the index, within that object, of
    the first offending element (the attributes [object] and [start]). *)
Inductive exn : Type :=
| StructError (e : struct_error)
| OverflowError
| UnicodeDecodeError (object : list byte) (start : nat)
| UnicodeEncodeError (object : pystr) (start : nat)
| ValueError (literal : pystr)
| IndexError
| ZeroDivisionError.

Inductive result (A : Type) : Type :=
| Ok (a : A)
| Err (e : exn).
Arguments Ok {A} a.
Arguments Err {A} e.

Definition rbind {A B} (r : result A) (k : A -> result B) : result B :=
  match r with
  | Ok a => k a
  | Err e => Err e
  end.

Declare Scope result_scope.
Delimit Scope result_scope with result.
Notation "'let?' x ':=' r 'in' k" := (rbind r (fun x => k))
  (at level 10, x pattern, r at level 100, k at level 200) : result_scope.
Local Open Scope result_scope.

(** ** File objects: a state-and-error monad

    [M S A] is a computation over a file state [S] that returns an [A] or
    raises; the state reached is returned in both cases (an exception leaves
    the file where it was when the exception was raised). *)
Definition M (S A : Type) : Type := S -> result A * S.

Definition ret {S A} (a : A) : M S A := fun s => (Ok a, s).
Definition lift {S A} (r : result A) : M S A := fun s => (r, s).
Definition bind {S A B} (m : M S A) (k : A -> M S B) : M S B :=
  fun s => match m s with
           | (Ok a, s') => k a s'
           | (Err e, s') => (Err e, s')
           end.

Declare Scope io_scope.
Delimit Scope io_scope with io.
Notation "x <- m ;; k" := (bind m (fun x => k))
  (at level 61, m at next level, right associativity) : io_scope.
Notation "m ;;; k" := (bind m (fun _ => k))
  (at level 61, right associativity) : io_scope.

(** A file opened for reading in binary mode: the bytes not yet read and the
    offset of the next byte ([f.tell()]). *)
Record rfile : Type := { unread : list byte; offset : nat }.

Definition open_rb (content : list byte) : rfile :=
  {| unread := content; offset := 0 |}.

(** [f.read(n)]: at most [n] bytes, fewer at the end of the file. *)
Definition read (n : nat) : M rfile (list byte) :=
  fun f => (Ok (firstn n (unread f)),
            {| unread := skipn n (unread f);
               offset := (offset f + length (firstn n (unread f)))%nat |}).

(** A file opened for writing in binary mode: the bytes written so far. *)
Definition wfile : Type := list byte.

(** [f.write(data)] *)
Definition write (data : list byte) : M wfile unit :=
  fun out => (Ok tt, out ++ data).

(** ** struct: little-endian integers *)

Fixpoint le_bytes (k : nat) (n : Z) : list byte :=
  match k with
  | O => []
  | S k' => z2b (n mod 256) :: le_bytes k' (n / 256)
  end.

Fixpoint le_value (bs : list byte) : Z :=
  match bs with
  | [] => 0
  | b :: r => b2z b + 256 * le_value r
  end.

(** [struct.pack('<I', n)] *)
Definition pack_I (n : Z) : result (list byte) :=
  if (0 <=? n) && (n <=? 4294967295) then Ok (le_bytes 4 n)
  else Err (StructError (FormatRequires "I"%char 4294967295)).

(** [struct.pack('<H', n)] *)
Definition pack_H (n : Z) : result (list byte) :=
  if (0 <=? n) && (n <=? 65535) then Ok (le_bytes 2 n)
  else Err (StructError (FormatRequires "H"%char 65535)).

(** [struct.unpack('<I', data)[0]] *)
Definition unpack_I (data : list byte) : result Z :=
  if (length data =? 4)%nat then Ok (le_value data)
  else Err (StructError (UnpackRequires 4)).

(** [struct.unpack('<H', data)[0]] *)
Definition unpack_H (data : list byte) : result Z :=
  if (length data =? 2)%nat then Ok (le_value data)
  else Err (StructError (UnpackRequires 2)).

(** ** Floats *)

(** A Python [float]: a binary64 number. *)
Definition float := spec_float.

Definition float_add : float -> float -> float := SFadd 53 1024.

(** The conversion of an [int] to [float] (round to nearest, ties to even). *)
Definition float_of_int (n : Z) : float := binary_normalize 53 1024 n 0 false.

(** [0.0] *)
Definition zero : float := S754_zero false.

(** [x / n] for a float [x] and an int [n]: [n] is converted to [float];
    a zero divisor raises. *)
Definition float_div_int (x : float) (n : Z) : result float :=
  if n =? 0 then Err ZeroDivisionError
  else Ok (SFdiv 53 1024 x (float_of_int n)).

(** [x == 0.0] *)
Definition float_is_zero (x : float) : bool := SFeqb x zero.

(** The C conversion of a [double] to [float] (binary32, round to nearest)
    and back; the second one is exact. *)
Definition to_single (x : float) : spec_float :=
  match x with
  | S754_finite s m e => binary_round 24 128 s m e
  | _ => x
  end.

Definition to_double (y : spec_float) : float :=
  match y with
  | S754_finite s m e => binary_round 53 1024 s m e
  | _ => y
  end.

Definition sign_bit (s : bool) : Z := if s then 0x80000000 else 0.

(** The 32 bits of a binary32 number: sign, 8 bits of biased exponent, 23
    bits of fraction.  The NaN is written as the quiet NaN [0x7FC00000]. *)
Definition bits_of_single (y : spec_float) : Z :=
  match y with
  | S754_zero s => sign_bit s
  | S754_infinity s => sign_bit s + 0x7F800000
  | S754_nan => 0x7FC00000
  | S754_finite s m e =>
      if Zpos m <? 0x800000 then sign_bit s + Zpos m
      else sign_bit s + (e + 150) * 0x800000 + (Zpos m - 0x800000)
  end.

Definition single_of_bits (z : Z) : spec_float :=
  let s := 0x80000000 <=? z in
  let ex := (z / 0x800000) mod 256 in
  let frac := z mod 0x800000 in
  if ex =? 0 then
    match frac with
    | Zpos m => S754_finite s m (-149)
    | _ => S754_zero s
    end
  else if ex =? 255 then
    if frac =? 0 then S754_infinity s else S754_nan
  else
    match frac + 0x800000 with
    | Zpos m => S754_finite s m (ex - 150)
    | _ => S754_nan
    end.

(** Packing one [f] item: a finite double that rounds to an infinite single
    raises [OverflowError] (float too large to pack with f format). *)
Definition pack_f (x : float) : result (list byte) :=
  match x, to_single x with
  | S754_finite _ _ _, S754_infinity _ => Err OverflowError
  | _, y => Ok (le_bytes 4 (bits_of_single y))
  end.

(** Unpacking one [f] item from its four bytes. *)
Definition unpack_f (data : list byte) : float :=
  to_double (single_of_bits (le_value data)).

(** What a float becomes when it is written as an [f] item and read back. *)
Definition single_roundtrip (x : float) : float :=
  to_double (single_of_bits (le_value (le_bytes 4 (bits_of_single (to_single x))))).

Fixpoint pack_items (xs : list float) : result (list byte) :=
  match xs with
  | [] => Ok []
  | x :: r =>
      let? b := pack_f x in
      let? bs := pack_items r in
      Ok (b ++ bs)
  end.

(** [struct.pack(f'<{n}f', *xs)] *)
Definition pack_floats (n : nat) (xs : list float) : result (list byte) :=
  if (length xs =? n)%nat then pack_items xs
  else Err (StructError (PackExpected n (length xs))).

Fixpoint unpack_items (n : nat) (data : list byte) : list float :=
  match n with
  | O => []
  | S n' => unpack_f (firstn 4 data) :: unpack_items n' (skipn 4 data)
  end.

(** [list(struct.unpack(f'<{n}f', data))] *)
Definition unpack_floats (n : nat) (data : list byte) : result (list float) :=
  if (length data =? 4 * n)%nat then Ok (unpack_items n data)
  else Err (StructError (UnpackRequires (4 * n))).

(** ** UTF-8 *)

(** The bytes of one code point; [None] for a surrogate (which the strict
    encoder refuses) and for a number that is no code point. *)
Definition utf8_char (c : Z) : option (list byte) :=
  if c <? 0 then None
  else if c <? 0x80 then Some [z2b c]
  else if c <? 0x800 then Some [z2b (0xC0 + c / 64); z2b (0x80 + c mod 64)]
  else if c <? 0x10000 then
    if (0xD800 <=? c) && (c <=? 0xDFFF) then None
    else Some [z2b (0xE0 + c / 4096); z2b (0x80 + (c / 64) mod 64);
               z2b (0x80 + c mod 64)]
  else if c <? 0x110000 then
    Some [z2b (0xF0 + c / 262144); z2b (0x80 + (c / 4096) mod 64);
          z2b (0x80 + (c / 64) mod 64); z2b (0x80 + c mod 64)]
  else None.

Fixpoint utf8_encode_from (i : nat) (s : pystr) : list byte + nat :=
  match s with
  | [] => inl []
  | c :: r =>
      match utf8_char c with
      | None => inr i
      | Some bs =>
          match utf8_encode_from (S i) r with
          | inl t => inl (bs ++ t)
          | inr j => inr j
          end
      end
  end.

(** [s.encode('utf-8')] *)
Definition encode_utf8 (s : pystr) : result (list byte) :=
  match utf8_encode_from 0 s with
  | inl bs => Ok bs
  | inr i => Err (UnicodeEncodeError s i)
  end.

Definition is_cont (b : byte) : bool := (0x80 <=? b2z b) && (b2z b <? 0xC0).

Definition cont (b : byte) : Z := b2z b - 0x80.

Definition push (c : Z) (r : pystr + nat) : pystr + nat :=
  match r with
  | inl s => inl (c :: s)
  | inr j => inr j
  end.

(** The strict decoder: overlong forms, surrogates, code points above
    [0x10FFFF] and truncated sequences are refused; [inr i] is the index of
    the first byte of the sequence that is refused. *)
Fixpoint utf8_decode_from (i : nat) (bs : list byte) : pystr + nat :=
  match bs with
  | [] => inl []
  | b0 :: r0 =>
      let z0 := b2z b0 in
      if z0 <? 0x80 then push z0 (utf8_decode_from (1 + i) r0)
      else if z0 <? 0xC2 then inr i
      else if z0 <? 0xE0 then
        match r0 with
        | b1 :: r1 =>
            if is_cont b1
            then push ((z0 - 0xC0) * 64 + cont b1) (utf8_decode_from (2 + i) r1)
            else inr i
        | _ => inr i
        end
      else if z0 <? 0xF0 then
        match r0 with
        | b1 :: b2 :: r2 =>
            let c := (z0 - 0xE0) * 4096 + cont b1 * 64 + cont b2 in
            if is_cont b1 && is_cont b2 && (0x800 <=? c)
               && negb ((0xD800 <=? c) && (c <=? 0xDFFF))
            then push c (utf8_decode_from (3 + i) r2)
            else inr i
        | _ => inr i
        end
      else if z0 <? 0xF5 then
        match r0 with
        | b1 :: b2 :: b3 :: r3 =>
            let c := (z0 - 0xF0) * 262144 + cont b1 * 4096 + cont b2 * 64
                     + cont b3 in
            if is_cont b1 && is_cont b2 && is_cont b3 && (0x10000 <=? c)
               && (c <? 0x110000)
            then push c (utf8_decode_from (4 + i) r3)
            else inr i
        | _ => inr i
        end
      else inr i
  end.

(** [data.decode('utf-8')] *)
Definition decode_utf8 (data : list byte) : result pystr :=
  match utf8_decode_from 0 data with
  | inl s => Ok s
  | inr i => Err (UnicodeDecodeError data i)
  end.

(** ** str methods and the regular expression of the tokenizer *)

(** [c.isspace()], which is also the class [\s] of [re] on [str]. *)
Definition is_space (c : Z) : bool :=
  ((9 <=? c) && (c <=? 13)) || ((28 <=? c) && (c <=? 32))
  || (c =? 0x85) || (c =? 0xA0) || (c =? 0x1680)
  || ((0x2000 <=? c) && (c <=? 0x200A))
  || (c =? 0x2028) || (c =? 0x2029) || (c =? 0x202F) || (c =? 0x205F)
  || (c =? 0x3000).

(** The lowercase of one code point, as far as [tokenize] observes it: exact
    on ASCII, on U+212A (Kelvin sign) and on U+0130 (capital I with a dot),
    the two code points outside ASCII whose lowercase has an ASCII letter.
    Any other code point outside ASCII is left as it is: Unicode maps it to
    code points outside ASCII, whitespace to itself and the others to
    characters that are no whitespace, and [tokenize] replaces each of the
    latter by a space. *)
Definition lower_char (c : Z) : list Z :=
  if (65 <=? c) && (c <=? 90) then [c + 32]
  else if c =? 0x212A then [107]
  else if c =? 0x130 then [105; 0x307]
  else [c].

(** [text.lower()] *)
Definition lower (text : pystr) : pystr := flat_map lower_char text.

(** [text.split()]: the maximal runs of characters that are no whitespace.
    [cur] is the run being read, last character first. *)
Fixpoint split_from (cur : pystr) (s : pystr) : list pystr :=
  match s with
  | [] => match cur with
          | [] => []
          | _ => [rev cur]
          end
  | c :: r =>
      if is_space c then
        match cur with
        | [] => split_from [] r
        | _ => rev cur :: split_from [] r
        end
      else split_from (c :: cur) r
  end.

Definition split (text : pystr) : list pystr := split_from [] text.

Fixpoint lstrip (s : pystr) : pystr :=
  match s with
  | [] => []
  | c :: r => if is_space c then lstrip r else s
  end.

(** [text.strip()] *)
Definition strip (text : pystr) : pystr := rev (lstrip (rev (lstrip text))).

(** The class [[a-z0-9\s]]. *)
Definition is_word_or_space (c : Z) : bool :=
  ((97 <=? c) && (c <=? 122)) || ((48 <=? c) && (c <=? 57)) || is_space c.

(** [re.sub(r'[^a-z0-9\s]', ' ', text)] *)
Definition sub_special (text : pystr) : pystr :=
  map (fun c => if is_word_or_space c then c else 32) text.

(** ** dict *)

Definition dict (V : Type) : Type := list (pystr * V).

Fixpoint dict_get {V} (d : dict V) (k : pystr) : option V :=
  match d with
  | [] => None
  | (k', v) :: r => if str_eqb k' k then Some v else dict_get r k
  end.

(** [d[k] = v]: a key already present keeps its place. *)
Fixpoint dict_set {V} (d : dict V) (k : pystr) (v : V) : dict V :=
  match d with
  | [] => [(k, v)]
  | (k', v') :: r =>
      if str_eqb k' k then (k', v) :: r else (k', v') :: dict_set r k v
  end.

Definition keys {V} (d : dict V) : list pystr := map fst d.

Local Open Scope io_scope.

(** * scripts/prepare_glove.py *)

Definition VECTOR_DIM : nat := 100.

Definition TOP_K_WORDS : Z := 100000.

(** A word-vector table, in the reducer as in the reader: [dict] from words
    to lists of floats. *)
Definition store : Type := dict (list float).

Section Reducer.

(** The built-in [float] on a [str]: [None] when it raises [ValueError]. *)
Variable py_float : pystr -> option float.

(** [[float(x) for x in parts]] *)
Fixpoint floats_of (parts : list pystr) : result (list float) :=
  match parts with
  | [] => Ok []
  | x :: r =>
      match py_float x with
      | None => Err (ValueError x)
      | Some v => let? vs := floats_of r in Ok (v :: vs)
      end
  end.

(** The loop of [load_glove_vectors] over the lines of the corpus, [i]
    being the index that [enumerate] gives to the first of [lines]. *)
Fixpoint load_lines (i : Z) (lines : list pystr) (top_k : Z)
         (vectors : store) : result store :=
  match lines with
  | [] => Ok vectors
  | line :: rest =>
      if top_k <=? i then Ok vectors
      else
        let parts := split (strip line) in
        match parts with
        | [] => Err IndexError
        | word :: values =>
            let? vector := floats_of values in
            if negb (length vector =? VECTOR_DIM)%nat
            then load_lines (i + 1) rest top_k vectors
            else load_lines (i + 1) rest top_k (dict_set vectors word vector)
        end
  end.

(** [load_glove_vectors(filepath, top_k)], the file being given by its
    lines. *)
Definition load_glove_vectors (lines : list pystr) (top_k : Z)
  : result store :=
  load_lines 0 lines top_k [].

End Reducer.

(** The loop of [save_binary_format] over [vectors.items()]. *)
Fixpoint write_words (items : list (pystr * list float)) : M wfile unit :=
  match items with
  | [] => ret tt
  | (word, vector) :: rest =>
      word_bytes <- lift (encode_utf8 word) ;;
      len_field <- lift (pack_H (Z.of_nat (length word_bytes))) ;;
      write len_field ;;;
      write word_bytes ;;;
      packed <- lift (pack_floats VECTOR_DIM vector) ;;
      write packed ;;;
      write_words rest
  end.

(** [save_binary_format(vectors, output_path)], run on the file it opens. *)
Definition save_binary_format (vectors : store) : M wfile unit :=
  header <- lift (pack_I (Z.of_nat (length vectors))) ;;
  write header ;;;
  write_words vectors.

(** * scripts/embed_commands.py *)

(** The loop of [load_glove_binary], [n] records being left to read. *)
Fixpoint load_words (n : nat) (vectors : store) : M rfile store :=
  match n with
  | O => ret vectors
  | S n' =>
      len_field <- read 2 ;;
      word_len <- lift (unpack_H len_field) ;;
      word_bytes <- read (Z.to_nat word_len) ;;
      word <- lift (decode_utf8 word_bytes) ;;
      packed <- read (VECTOR_DIM * 4) ;;
      vector <- lift (unpack_floats VECTOR_DIM packed) ;;
      load_words n' (dict_set vectors word vector)
  end.

(** [load_glove_binary(filepath)], run on the file it opens. *)
Definition load_glove_binary : M rfile store :=
  header <- read 4 ;;
  vocab_size <- lift (unpack_I header) ;;
  load_words (Z.to_nat vocab_size) [].

(** [tokenize(text)] *)
Definition tokenize (text : pystr) : list pystr :=
  match text with
  | [] => []
  | _ =>
      let text := lower text in
      let text := sub_special text in
      let tokens := split text in
      filter (fun t => (2 <=? length t)%nat) tokens
  end.

(** A command entry of [commands.yml].  A field of the three that are read
    is [None] when the key is absent or null; the other three are carried
    along. *)
Record command_record : Type := {
  command : option pystr;
  description : option pystr;
  keywords : option (list pystr);
  niche : pystr;
  platform : list pystr;
  pipeline : bool
}.

(** [for i in range(n): a = body(i, a)] *)
Definition for_range {A} (n : nat) (body : nat -> A -> result A) (a : A)
  : result A :=
  fold_left (fun r i => let? x := r in body i x) (seq 0 n) (Ok a).

(** [for x in xs: a = body(x, a)] *)
Definition for_each {X A} (xs : list X) (body : X -> A -> result A) (a : A)
  : result A :=
  fold_left (fun r x => let? y := r in body x y) xs (Ok a).

(** [l[i] = x] for [i] in range. *)
Fixpoint set_nth {A} (l : list A) (i : nat) (x : A) : list A :=
  match l, i with
  | [], _ => []
  | _ :: r, O => x :: r
  | y :: r, S i' => y :: set_nth r i' x
  end.

(** The three conditional extensions of [texts]. *)
Definition texts_of (cmd : command_record) : list pystr :=
  let texts := [] in
  let texts := match command cmd with
               | Some (c :: s) => texts ++ [c :: s]
               | _ => texts
               end in
  let texts := match description cmd with
               | Some (c :: s) => texts ++ [c :: s]
               | _ => texts
               end in
  let texts := match keywords cmd with
               | Some (k :: ks) => texts ++ (k :: ks)
               | _ => texts
               end in
  texts.

(** [embedding[i] += vec[i]] *)
Definition add_at (vec : list float) (i : nat) (embedding : list float)
  : result (list float) :=
  match nth_error embedding i, nth_error vec i with
  | Some a, Some x => Ok (set_nth embedding i (float_add a x))
  | _, _ => Err IndexError
  end.

(** [embedding[i] /= n] *)
Definition div_at (n : Z) (i : nat) (embedding : list float)
  : result (list float) :=
  match nth_error embedding i with
  | Some a => let? q := float_div_int a n in Ok (set_nth embedding i q)
  | None => Err IndexError
  end.

(** The list [all_tokens] that the loop over [texts] builds. *)
Definition all_tokens_of (cmd : command_record) : list pystr :=
  fold_left (fun acc text => acc ++ tokenize text) (texts_of cmd) [].

(** [compute_embedding(command, word_vectors)].  [str(text)] is [text], the
    texts being strings; the test [token in word_vectors] and the access
    [word_vectors[token]] are the one lookup [dict_get]. *)
Definition compute_embedding (cmd : command_record) (word_vectors : store)
  : result (list float) :=
  let all_tokens := all_tokens_of cmd in
  let vectors :=
    fold_left (fun acc token =>
                 match dict_get word_vectors token with
                 | Some v => acc ++ [v]
                 | None => acc
                 end) all_tokens [] in
  match vectors with
  | _ :: _ =>
      let embedding := repeat zero VECTOR_DIM in
      let? embedding :=
        for_each vectors (fun vec => for_range VECTOR_DIM (add_at vec))
                 embedding in
      for_range VECTOR_DIM (div_at (Z.of_nat (length vectors))) embedding
  | [] => Ok (repeat zero VECTOR_DIM)
  end.

(** The loop of [main] that fills [embeddings] and counts the zero
    vectors. *)
Fixpoint embed_loop (commands : list command_record) (word_vectors : store)
         (embeddings : list (list float)) (zero_count : nat)
  : result (list (list float) * nat) :=
  match commands with
  | [] => Ok (embeddings, zero_count)
  | cmd :: rest =>
      let? embedding := compute_embedding cmd word_vectors in
      let embeddings := embeddings ++ [embedding] in
      let zero_count :=
        if forallb float_is_zero embedding then S zero_count
        else zero_count in
      embed_loop rest word_vectors embeddings zero_count
  end.

(** The loop of [save_embeddings]. *)
Fixpoint write_embeddings (embeddings : list (list float)) : M wfile unit :=
  match embeddings with
  | [] => ret tt
  | embedding :: rest =>
      packed <- lift (pack_floats VECTOR_DIM embedding) ;;
      write packed ;;;
      write_embeddings rest
  end.

(** [save_embeddings(embeddings, output_path)], run on the file it opens. *)
Definition save_embeddings (embeddings : list (list float)) : M wfile unit :=
  count <- lift (pack_I (Z.of_nat (length embeddings))) ;;
  write count ;;;
  dimension <- lift (pack_I (Z.of_nat VECTOR_DIM)) ;;
  write dimension ;;;
  write_embeddings embeddings.

(** Steps 1 to 4 of [main], given the content of [glove.bin] and the list
    read from [commands.yml]: the zero count that is reported, or the
    exception, and the content of [cmd_embeddings.bin]. *)
Definition main (glove_bin : list byte) (commands : list command_record)
  : result nat * wfile :=
  match load_glove_binary (open_rb glove_bin) with
  | (Err e, _) => (Err e, [])
  | (Ok word_vectors, _) =>
      match embed_loop commands word_vectors [] 0 with
      | Err e => (Err e, [])
      | Ok (embeddings, zero_count) =>
          match save_embeddings embeddings [] with
          | (Ok _, out) => (Ok zero_count, out)
          | (Err e, out) => (Err e, out)
          end
      end
  end.

(** ** The literals of the corpus

    [float_of_literal] is the built-in [float] on the ASCII spellings that a
    corpus of vectors uses: an optional sign, digits with an optional
    fraction and an optional exponent, and [inf], [infinity] and [nan] in
    any case; it is used for the examples below.  ([float] also accepts
    underscores between digits and decimal digits outside ASCII; these
    spellings are not recognised here and no example uses them.) *)

Definition digit (c : Z) : option Z :=
  if (48 <=? c) && (c <=? 57) then Some (c - 48) else None.

(** A run of digits: the number read after [acc], how many digits were
    read after [n], and the rest. *)
Fixpoint digits (s : pystr) (acc n : Z) : Z * Z * pystr :=
  match s with
  | [] => (acc, n, [])
  | c :: r =>
      match digit c with
      | Some d => digits r (10 * acc + d) (n + 1)
      | None => (acc, n, s)
      end
  end.

Definition sign_of (s : pystr) : bool * pystr :=
  match s with
  | 45 :: r => (true, r)
  | 43 :: r => (false, r)
  | _ => (false, s)
  end.

(** The float nearest to [m * 10 ^ e], for [m >= 0]. *)
Definition decimal_value (neg : bool) (m e : Z) : float :=
  match m with
  | Zpos p =>
      if 0 <=? e
      then binary_normalize 53 1024 (cond_Zopp neg (m * 10 ^ e)) 0 false
      else SFdiv 53 1024 (S754_finite neg p 0)
                 (S754_finite false (Z.to_pos (10 ^ (- e))) 0)
  | _ => S754_zero neg
  end.

Definition float_of_literal (s : pystr) : option float :=
  let '(neg, s1) := sign_of s in
  let name := lower s1 in
  if str_eqb name (str "inf") || str_eqb name (str "infinity")
  then Some (S754_infinity neg)
  else if str_eqb name (str "nan") then Some S754_nan
  else
    let '(ip, ni, s2) := digits s1 0 0 in
    let '(fp, nf, s3) := match s2 with
                         | 46 :: r => digits r ip 0
                         | _ => (ip, 0, s2)
                         end in
    if ni + nf =? 0 then None
    else
      match s3 with
      | [] => Some (decimal_value neg fp (- nf))
      | c :: r =>
          if (c =? 101) || (c =? 69) then
            let '(eneg, s4) := sign_of r in
            match digits s4 0 0 with
            | (ev, ne, []) =>
                if ne =? 0 then None
                else Some (decimal_value neg fp (cond_Zopp eneg ev - nf))
            | _ => None
            end
          else None
      end.

(** * Notions used in the statements *)

(** A float that [struct] packs as an [f] item: it is not a finite number
    whose magnitude is beyond the single-precision range. *)
Definition fits_single (x : float) : bool :=
  match x, to_single x with
  | S754_finite _ _ _, S754_infinity _ => false
  | _, _ => true
  end.

(** A single-precision value: a float that the conversion to binary32 and
    back leaves as it is.  These are the binary32 numbers, seen as binary64
    numbers ([is_single_iff] below). *)
Definition is_single (x : float) : Prop := single_roundtrip x = x.

(** An entry that the format of [glove.bin] can hold: the word has a UTF-8
    encoding of at most 65535 bytes, the vector has [VECTOR_DIM] components
    and each of them is in the single-precision range. *)
Definition storable (entry : pystr * list float) : Prop :=
  (exists word_bytes, encode_utf8 (fst entry) = Ok word_bytes
                      /\ Z.of_nat (length word_bytes) <= 65535)
  /\ length (snd entry) = VECTOR_DIM
  /\ forallb fits_single (snd entry) = true.

(** The entry that is read back from the record of [entry]: its vector
    with every component converted to single precision. *)
Definition read_back (entry : pystr * list float) : pystr * list float :=
  (fst entry, map single_roundtrip (snd entry)).

(** The store with every component converted to single precision. *)
Definition store_to_single (s : store) : store := map read_back s.

(** [d[word] = vector] for an entry [(word, vector)]. *)
Definition set_entry (d : store) (entry : pystr * list float) : store :=
  dict_set d (fst entry) (snd entry).

(** The class [[a-z0-9]]. *)
Definition is_lower_alnum (c : Z) : bool :=
  ((97 <=? c) && (c <=? 122)) || ((48 <=? c) && (c <=? 57)).

(** The tokens of a field, none for a field that is absent. *)
Definition field_tokens (text : option pystr) : list pystr :=
  match text with
  | Some t => tokenize t
  | None => []
  end.

(** The token stream of a record: the tokens of [command], then those of
    [description], then those of each keyword in list order. *)
Definition keyword_tokens (ks : option (list pystr)) : list pystr :=
  match ks with
  | Some l => flat_map tokenize l
  | None => []
  end.

Definition token_stream (cmd : command_record) : list pystr :=
  field_tokens (command cmd) ++ field_tokens (description cmd)
  ++ keyword_tokens (keywords cmd).

(** The token is, as a string, a key of the store. *)
Definition is_key (word_vectors : store) (token : pystr) : bool :=
  if in_dec (list_eq_dec Z.eq_dec) token (keys word_vectors) then true
  else false.

(** The vector of a key. *)
Definition vector_of (word_vectors : store) (token : pystr) : list float :=
  match dict_get word_vectors token with
  | Some v => v
  | None => []
  end.

(** The vectors of the tokens that are keys of the store, in token order. *)
Definition matched_vectors (word_vectors : store) (tokens : list pystr)
  : list (list float) :=
  map (vector_of word_vectors) (filter (is_key word_vectors) tokens).

(** [sum(xs)] from left to right, starting from [0.0]. *)
Definition float_sum (xs : list float) : float := fold_left float_add xs zero.

(** [sum(v[i] for v in vectors) / len(vectors)] *)
Definition mean_component (vectors : list (list float)) (i : nat) : float :=
  SFdiv 53 1024 (float_sum (map (fun v => nth i v zero) vectors))
        (float_of_int (Z.of_nat (length vectors))).

(** Every vector of the store has [VECTOR_DIM] components. *)
Definition store_dim (word_vectors : store) : Prop :=
  Forall (fun entry => length (snd entry) = VECTOR_DIM) word_vectors.

(** The data hold [n] complete records: a length field of 2 bytes, as many
    bytes of word as the field tells and [4 * VECTOR_DIM] bytes of vector,
    [n] times. *)
Fixpoint complete_records (n : nat) (data : list byte) : bool :=
  match n with
  | O => true
  | S n' =>
      let word_len := Z.to_nat (le_value (firstn 2 data)) in
      (2 <=? length data)%nat
      && (2 + word_len + 4 * VECTOR_DIM <=? length data)%nat
      && complete_records n' (skipn (2 + word_len + 4 * VECTOR_DIM) data)
  end.

(** A stream that is not truncated: the header of 4 bytes and as many
    complete records as it tells; anything else is a stream that ends in
    the header or in a record, or whose last length field tells more bytes
    than remain. *)
Definition complete_stream (data : list byte) : bool :=
  (4 <=? length data)%nat
  && complete_records (Z.to_nat (le_value (firstn 4 data))) (skipn 4 data).

(** The first of the [n] words that is no valid UTF-8, if there is one. *)
Fixpoint first_bad_word (n : nat) (data : list byte) : option (list byte) :=
  match n with
  | O => None
  | S n' =>
      let word_len := Z.to_nat (le_value (firstn 2 data)) in
      let word := firstn word_len (skipn 2 data) in
      match decode_utf8 word with
      | Err _ => Some word
      | Ok _ =>
          first_bad_word n' (skipn (2 + word_len + 4 * VECTOR_DIM) data)
      end
  end.

(** The exceptions of a stream that cannot be read: a format error of
    [struct.unpack] or an encoding error. *)
Definition is_format_error (e : exn) : Prop :=
  exists n, e = StructError (UnpackRequires n).

Definition is_encoding_error (e : exn) : Prop :=
  exists object start, e = UnicodeDecodeError object start.

(** ** The lines of the corpus *)

(** What a line does to the loop of [load_glove_vectors]: it raises, it is
    skipped (the number of its components is not [VECTOR_DIM]), or it is
    accepted with its word and its vector. *)
Inductive line_outcome : Type :=
| Raises (e : exn)
| Skipped
| Accepted (word : pystr) (vector : list float).

Section Lines.

Variable py_float : pystr -> option float.

Definition outcome_of (line : pystr) : line_outcome :=
  match split (strip line) with
  | [] => Raises IndexError
  | word :: values =>
      match floats_of py_float values with
      | Err e => Raises e
      | Ok vector =>
          if (length vector =? VECTOR_DIM)%nat then Accepted word vector
          else Skipped
      end
  end.

(** A valid line: its parsed vector has exactly [VECTOR_DIM] components. *)
Definition valid_line (line : pystr) : Prop :=
  exists word vector, outcome_of line = Accepted word vector.

Definition never_raises (line : pystr) : Prop :=
  forall e, outcome_of line <> Raises e.

(** The entries of the valid lines among [lines], in source order. *)
Definition accepted_entries (lines : list pystr) : list (pystr * list float) :=
  flat_map (fun line => match outcome_of line with
                        | Accepted word vector => [(word, vector)]
                        | _ => []
                        end) lines.

(** The store that the claim describes: the first [k] valid lines, a later
    line of a word overwriting an earlier one. *)
Definition store_of_first_valid (k : nat) (lines : list pystr) : store :=
  fold_left set_entry (firstn k (accepted_entries lines)) [].

End Lines.

(** ** The embedding table *)

(** The embedding of a record, the empty list standing for an exception. *)
Definition embedding_of (word_vectors : store) (cmd : command_record)
  : list float :=
  match compute_embedding cmd word_vectors with
  | Ok embedding => embedding
  | Err _ => []
  end.

(** The bytes of entry [i] of a table: [4 * VECTOR_DIM] bytes after the two
    header fields and [i] entries. *)
Definition table_entry (out : list byte) (i : nat) : list byte :=
  firstn (4 * VECTOR_DIM) (skipn (8 + 4 * VECTOR_DIM * i) out).

(** * Data of the examples *)

(** The corpus line [word v v ... v] with [VECTOR_DIM] times the literal
    [v], ended by a newline. *)
Definition corpus_line (word literal : string) : pystr :=
  str word ++ concat (repeat (32 :: str literal) VECTOR_DIM) ++ [10].

(** A corpus of one line, whose components are all [0.1]. *)
Definition corpus_the : list pystr := [corpus_line "the" "0.1"].

(** [0.1], which is no single-precision value. *)
Definition tenth : float := S754_finite false 7205759403792794 (-56).

(** A store of two words whose components are single-precision values, the
    content of the [glove.bin] written from it, and the store loaded from
    that file. *)
Definition example_store : store :=
  [(str "git", repeat (float_of_int 1) VECTOR_DIM);
   (str "log", repeat (float_of_int (-3)) VECTOR_DIM)].

Definition example_glove_bin : list byte :=
  snd (save_binary_format example_store []).

Definition example_loaded : store :=
  match fst (load_glove_binary (open_rb example_glove_bin)) with
  | Ok word_vectors => word_vectors
  | Err _ => []
  end.

Definition example_eof : rfile :=
  snd (load_glove_binary (open_rb example_glove_bin)).

(** The same mapping, the words in the other order. *)
Definition example_store_swapped : store :=
  [(str "log", repeat (float_of_int (-3)) VECTOR_DIM);
   (str "git", repeat (float_of_int 1) VECTOR_DIM)].

(** A complete record, and records with fields that are missing or empty. *)
Definition example_command : command_record :=
  {| command := Some (str "git-log");
     description := Some (str "Show the commit log");
     keywords := Some [str "git"; str "history"];
     niche := str "general";
     platform := [str "linux"; str "macos"];
     pipeline := false |}.

Definition example_command_tagged : command_record :=
  {| command := Some (str "git-log");
     description := Some (str "Show the commit log");
     keywords := Some [str "git"; str "history"];
     niche := str "vcs";
     platform := [str "windows"];
     pipeline := true |}.

Definition example_command_bare : command_record :=
  {| command := Some (str "log");
     description := None;
     keywords := Some [];
     niche := str "general";
     platform := [];
     pipeline := false |}.

(** A word of 65536 letters [a], one more than the length field can tell,
    and a store that holds it after a word that can be stored. *)
Definition long_word : pystr := repeat 97 (Z.to_nat 65536).

Definition long_word_bytes : list byte := repeat x61 (Z.to_nat 65536).

Definition store_with_long_word : store :=
  [(str "git", repeat (float_of_int 1) VECTOR_DIM);
   (long_word, repeat zero VECTOR_DIM)].

(** Three streams that cannot be read: one that ends after the header, one
    that ends after the first of its two records, and one whose length field
    tells 5 bytes of word where 1 remains. *)
Definition stream_header_only : list byte := [x01; x00; x00; x00].

Definition stream_one_of_two : list byte :=
  [x02; x00; x00; x00] ++ [x01; x00] ++ [x61] ++ repeat x00 (4 * VECTOR_DIM).

Definition stream_short_word : list byte :=
  [x01; x00; x00; x00; x05; x00; xc3].

(** A corpus whose first line has one component and whose second line is
    valid. *)
Definition corpus_short_first : list pystr :=
  [str "x 1" ++ [10]; corpus_line "the" "0"].

(** A corpus whose first line has a token that is no number, and one whose
    first line is blank; the second line is valid. *)
Definition corpus_bad_token : list pystr :=
  [str "the 0.5 abc" ++ [10]; corpus_line "cat" "0.1"].

Definition corpus_blank_line : list pystr :=
  [[10]; corpus_line "cat" "0.1"].

(** A corpus of three valid lines, the second and third for the same
    word. *)
Definition corpus_three : list pystr :=
  [corpus_line "the" "0.5"; corpus_line "cat" "1"; corpus_line "cat" "2"].

(** A list of 4294967296 records, one more than the count field can
    tell. *)
Definition too_many_commands : list command_record :=
  repeat example_command (Z.to_nat 4294967296).

(** * Further notions used in the statements *)

(** The words of [ks] that are not in [seen], each once, in the order of
    their first appearance. *)
Fixpoint unseen (seen ks : list pystr) : list pystr :=
  match ks with
  | [] => []
  | k :: r =>
      if existsb (str_eqb k) seen then unseen seen r
      else k :: unseen (seen ++ [k]) r
  end.

(** The words of a list, each once, in the order of their first
    appearance. *)
Definition first_occurrences (ks : list pystr) : list pystr := unseen [] ks.

(** The vector of the last entry for [word]. *)
Definition last_vector (word : pystr) (entries : list (pystr * list float))
  : option (list float) :=
  option_map snd (find (fun entry => str_eqb (fst entry) word) (rev entries)).

(** * The verification steps of the two scripts *)

(** The three values that a sample line shows: [vector[0]], [vector[1]] and
    [vector[2]]. *)
Definition first_three (vector : list float) : result (list float) :=
  match vector with
  | a :: b :: c :: _ => Ok [a; b; c]
  | _ => Err IndexError
  end.

(** The loop of [verify_binary_file], [n] records being left to show.  The
    result is what the sample lines show, in the order of the lines: the
    word and three values of its vector. *)
Fixpoint verify_words (n : nat) (shown : list (pystr * list float))
  : M rfile (list (pystr * list float)) :=
  match n with
  | O => ret shown
  | S n' =>
      len_field <- read 2 ;;
      word_len <- lift (unpack_H len_field) ;;
      word_bytes <- read (Z.to_nat word_len) ;;
      word <- lift (decode_utf8 word_bytes) ;;
      packed <- read (VECTOR_DIM * 4) ;;
      vector <- lift (unpack_floats VECTOR_DIM packed) ;;
      values <- lift (first_three vector) ;;
      verify_words n' (shown ++ [(word, values)])
  end.

(** [verify_binary_file(filepath, sample_words)] of [prepare_glove.py], run
    on the file it opens.  The body does not read [sample_words]. *)
Definition verify_binary_file (sample_words : list pystr)
  : M rfile (list (pystr * list float)) :=
  header <- read 4 ;;
  vocab_size <- lift (unpack_I header) ;;
  verify_words (Z.to_nat (Z.min 5 vocab_size)) [].

(** The loop of [verify_embeddings], [n] embeddings being left to show.  The
    norm that a line shows as well is a float computation on the values
    read, which raises nothing; it is left out of the result. *)
Fixpoint verify_samples (n dimension : nat) (shown : list (list float))
  : M rfile (list (list float)) :=
  match n with
  | O => ret shown
  | S n' =>
      packed <- read (dimension * 4) ;;
      embedding <- lift (unpack_floats dimension packed) ;;
      values <- lift (first_three embedding) ;;
      verify_samples n' dimension (shown ++ [values])
  end.

(** [verify_embeddings(filepath, num_samples)] of [embed_commands.py], run
    on the file it opens. *)
Definition verify_embeddings (num_samples : Z) : M rfile (list (list float)) :=
  count <- read 4 ;;
  num_commands <- lift (unpack_I count) ;;
  dim_field <- read 4 ;;
  dimension <- lift (unpack_I dim_field) ;;
  verify_samples (Z.to_nat (Z.min num_samples num_commands))
                 (Z.to_nat dimension) [].

(** What a sample line of [verify_binary_file] shows of an entry that was
    written: the word and the first three components, in single
    precision. *)
Definition sample_of (entry : pystr * list float) : pystr * list float :=
  (fst entry, firstn 3 (map single_roundtrip (snd entry))).

(** A stream whose header tells 6 records and that holds 5. *)
Definition stream_five_of_six : list byte :=
  [x06; x00; x00; x00]
  ++ concat (repeat ([x01; x00] ++ [x61] ++ repeat x00 (4 * VECTOR_DIM)) 5).

(** What a sample line of [verify_embeddings] shows of an embedding that
    was written: its first three components, in single precision. *)
Definition sample_values (embedding : list float) : list float :=
  firstn 3 (map single_roundtrip embedding).

(** No token of the record is a key of the store. *)
Definition unmatched (word_vectors : store) (cmd : command_record) : bool :=
  match matched_vectors word_vectors (token_stream cmd) with
  | [] => true
  | _ :: _ => false
  end.

(** The embedding of the record has only zeros ([0.0] or [-0.0]). *)
Definition zero_embedding (word_vectors : store) (cmd : command_record)
  : bool :=
  forallb float_is_zero (embedding_of word_vectors cmd).

(** * Notions about tokens *)

(** A character that [tokenize] turns into whitespace: no character of its
    lowercase is in [[a-z0-9]]. *)
Definition is_separator (c : Z) : bool :=
  forallb (fun d => negb (is_lower_alnum d)) (lower_char c).

(** A string that can be a token: at least 2 characters, all of them in
    [[a-z0-9]]. *)
Definition is_token (word : pystr) : bool :=
  (2 <=? length word)%nat && forallb is_lower_alnum word.

(** The entries of a store whose word can be a token. *)
Definition usable_entries (word_vectors : store) : store :=
  filter (fun entry => is_token (fst entry)) word_vectors.

(** * main of prepare_glove.py *)

Section PrepareGloveMain.

Variable py_float : pystr -> option float.

(** Steps 2 to 4 of [main] of [prepare_glove.py], given the lines of the
    corpus file: what the verification shows, or the exception, and the
    content of [glove.bin] (empty when the file was not opened). *)
Definition prepare_glove_main (lines : list pystr)
  : result (list (pystr * list float)) * wfile :=
  match load_glove_vectors py_float lines TOP_K_WORDS with
  | Err e => (Err e, [])
  | Ok vectors =>
      match save_binary_format vectors [] with
      | (Err e, out) => (Err e, out)
      | (Ok _, out) =>
          match verify_binary_file (firstn 5 (keys vectors)) (open_rb out) with
          | (Err e, _) => (Err e, out)
          | (Ok shown, _) => (Ok shown, out)
          end
      end
  end.

End PrepareGloveMain.

(** * Properties *)

Unset Implicit Arguments.

(** ** Bytes and little-endian integers *)

Lemma b2z_range (b : byte) : 0 <= b2z b < 256.
Proof.
  unfold b2z. pose proof (Byte.to_N_bounded b). lia.
Qed.

Lemma b2z_z2b (z : Z) : 0 <= z < 256 -> b2z (z2b z) = z.
Proof.
  intros Hz. unfold b2z, z2b.
  destruct (Byte.of_N (Z.to_N z)) as [b|] eqn:E.
  - apply Byte.to_of_N in E. lia.
  - apply Byte.of_N_None_iff in E. lia.
Qed.

Lemma z2b_b2z (b : byte) : z2b (b2z b) = b.
Proof.
  unfold b2z, z2b. rewrite N2Z.id, Byte.of_to_N. reflexivity.
Qed.

Lemma length_le_bytes (k : nat) (n : Z) : length (le_bytes k n) = k.
Proof.
  revert n. induction k as [|k IH]; intros n; simpl; [reflexivity|].
  now rewrite IH.
Qed.

Lemma le_value_le_bytes (k : nat) (n : Z) :
  0 <= n < 256 ^ Z.of_nat k -> le_value (le_bytes k n) = n.
Proof.
  revert n. induction k as [|k IH]; intros n Hn.
  - simpl in *. lia.
  - rewrite Nat2Z.inj_succ, Z.pow_succ_r in Hn by lia.
    cbn [le_bytes le_value].
    pose proof (Z.div_mod n 256 ltac:(lia)).
    pose proof (Z.mod_pos_bound n 256 ltac:(lia)).
    rewrite b2z_z2b by lia. rewrite IH by lia. lia.
Qed.

Lemma le_value_range (bs : list byte) :
  0 <= le_value bs < 256 ^ Z.of_nat (length bs).
Proof.
  induction bs as [|b r IH].
  - simpl. lia.
  - cbn [length le_value]. rewrite Nat2Z.inj_succ, Z.pow_succ_r by lia.
    pose proof (b2z_range b). lia.
Qed.

Lemma le_bytes_le_value (bs : list byte) :
  le_bytes (length bs) (le_value bs) = bs.
Proof.
  induction bs as [|b r IH]; [reflexivity|].
  cbn [length le_value le_bytes]. pose proof (b2z_range b).
  replace (b2z b + 256 * le_value r) with (b2z b + le_value r * 256) by lia.
  rewrite Z.mod_add, Z.div_add, Z.mod_small, Z.div_small, Z.add_0_l by lia.
  now rewrite z2b_b2z, IH.
Qed.

Lemma pack_I_ok (n : Z) :
  0 <= n <= 4294967295 -> pack_I n = Ok (le_bytes 4 n).
Proof.
  intros Hn. unfold pack_I.
  destruct (Z.leb_spec 0 n); destruct (Z.leb_spec n 4294967295); simpl;
    try lia; reflexivity.
Qed.

Lemma pack_H_ok (n : Z) :
  0 <= n <= 65535 -> pack_H n = Ok (le_bytes 2 n).
Proof.
  intros Hn. unfold pack_H.
  destruct (Z.leb_spec 0 n); destruct (Z.leb_spec n 65535); simpl;
    try lia; reflexivity.
Qed.

Lemma pack_H_too_long (n : Z) :
  65535 < n -> pack_H n = Err (StructError (FormatRequires "H"%char 65535)).
Proof.
  intros Hn. unfold pack_H.
  destruct (Z.leb_spec n 65535); [lia|]. now rewrite andb_false_r.
Qed.

Lemma unpack_I_pack (n : Z) :
  0 <= n <= 4294967295 -> unpack_I (le_bytes 4 n) = Ok n.
Proof.
  intros Hn. unfold unpack_I. rewrite length_le_bytes. simpl Nat.eqb. cbv iota.
  rewrite le_value_le_bytes; [reflexivity|]. simpl. lia.
Qed.

Lemma unpack_H_pack (n : Z) :
  0 <= n <= 65535 -> unpack_H (le_bytes 2 n) = Ok n.
Proof.
  intros Hn. unfold unpack_H. rewrite length_le_bytes. simpl Nat.eqb. cbv iota.
  rewrite le_value_le_bytes; [reflexivity|]. simpl. lia.
Qed.

Lemma str_eqb_refl (a : pystr) : str_eqb a a = true.
Proof.
  induction a as [|x a IH]; simpl; [reflexivity|].
  now rewrite Z.eqb_refl, IH.
Qed.

Lemma str_eqb_eq (a b : pystr) : str_eqb a b = true <-> a = b.
Proof.
  split; [|intros ->; apply str_eqb_refl].
  revert b. induction a as [|x a IH]; intros [|y b]; simpl; try discriminate;
    [reflexivity|].
  intros H. apply andb_true_iff in H as [H1 H2].
  apply Z.eqb_eq in H1. apply IH in H2. congruence.
Qed.

Lemma str_eqb_neq (a b : pystr) : str_eqb a b = false <-> a <> b.
Proof.
  split.
  - intros H E. apply str_eqb_eq in E. congruence.
  - intros H. destruct (str_eqb a b) eqn:E; [|reflexivity].
    apply str_eqb_eq in E. contradiction.
Qed.

(** ** UTF-8: decoding undoes encoding *)

Lemma Some_inj (A : Type) (x y : A) : Some x = Some y -> x = y.
Proof. congruence. Qed.

Ltac split_cmp :=
  repeat match goal with
         | |- context [?a <? ?b] => destruct (Z.ltb_spec a b); try lia
         | |- context [?a <=? ?b] => destruct (Z.leb_spec a b); try lia
         end.

Lemma utf8_char_decode (c : Z) (bs : list byte) :
  utf8_char c = Some bs ->
  forall (i : nat) (rest : list byte),
    utf8_decode_from i (bs ++ rest)
    = push c (utf8_decode_from (length bs + i) rest).
Proof.
  unfold utf8_char. intros H i rest.
  destruct (Z.ltb_spec c 0); [discriminate|].
  destruct (Z.ltb_spec c 0x80).
  { apply Some_inj in H; subst bs. cbn [app utf8_decode_from length].
    rewrite b2z_z2b by lia. split_cmp. reflexivity. }
  pose proof (Z.div_mod c 64 ltac:(lia)) as E1.
  pose proof (Z.mod_pos_bound c 64 ltac:(lia)) as B1.
  destruct (Z.ltb_spec c 0x800).
  { apply Some_inj in H; subst bs. cbn [app utf8_decode_from length].
    unfold is_cont, cont.
    set (q := c / 64) in *. set (r := c mod 64) in *. clearbody q r.
    rewrite !b2z_z2b by lia. split_cmp. cbn [andb]. f_equal. lia. }
  pose proof (Z.div_mod (c / 64) 64 ltac:(lia)) as E2.
  pose proof (Z.mod_pos_bound (c / 64) 64 ltac:(lia)) as B2.
  assert (D2 : c / 4096 = c / 64 / 64)
    by (rewrite Z.div_div by lia; reflexivity).
  destruct (Z.ltb_spec c 0x10000).
  { destruct ((0xD800 <=? c) && (c <=? 0xDFFF)) eqn:S; [discriminate|].
    apply Some_inj in H; subst bs. cbn [app utf8_decode_from length].
    unfold is_cont, cont. rewrite D2.
    set (q2 := c / 64 / 64) in *. set (r2 := (c / 64) mod 64) in *.
    set (q := c / 64) in *. set (r := c mod 64) in *. clearbody q2 r2 q r.
    rewrite !b2z_z2b by lia.
    replace ((224 + q2 - 224) * 4096 + (128 + r2 - 128) * 64 + (128 + r - 128))
      with c by lia.
    rewrite S. split_cmp. reflexivity. }
  pose proof (Z.div_mod (c / 4096) 64 ltac:(lia)) as E3.
  pose proof (Z.mod_pos_bound (c / 4096) 64 ltac:(lia)) as B3.
  assert (D3 : c / 262144 = c / 4096 / 64)
    by (rewrite Z.div_div by lia; reflexivity).
  destruct (Z.ltb_spec c 0x110000); [|discriminate].
  apply Some_inj in H; subst bs. cbn [app utf8_decode_from length].
  unfold is_cont, cont. rewrite D3. rewrite D2 in *.
  set (q3 := c / 64 / 64 / 64) in *. set (r3 := (c / 64 / 64) mod 64) in *.
  set (q2 := c / 64 / 64) in *. set (r2 := (c / 64) mod 64) in *.
  set (q := c / 64) in *. set (r := c mod 64) in *.
  clearbody q3 r3 q2 r2 q r.
  rewrite !b2z_z2b by lia.
  replace ((240 + q3 - 240) * 262144 + (128 + r3 - 128) * 4096
           + (128 + r2 - 128) * 64 + (128 + r - 128)) with c by lia.
  split_cmp. reflexivity.
Qed.

Lemma utf8_decode_encode_from (s : pystr) :
  forall (i : nat) (bs : list byte),
    utf8_encode_from i s = inl bs ->
    forall j : nat, utf8_decode_from j bs = inl s.
Proof.
  induction s as [|c s IH]; intros i bs H j.
  - simpl in H. injection H as <-. reflexivity.
  - cbn [utf8_encode_from] in H.
    destruct (utf8_char c) as [cb|] eqn:Ec; [|discriminate].
    destruct (utf8_encode_from (S i) s) as [t|] eqn:Et; [|discriminate].
    apply (f_equal (fun x => match x with inl a => a | inr _ => [] end)) in H.
    subst bs. rewrite (utf8_char_decode _ _ Ec).
    now rewrite (IH _ _ Et).
Qed.

Lemma decode_encode_utf8 (s : pystr) (bs : list byte) :
  encode_utf8 s = Ok bs -> decode_utf8 bs = Ok s.
Proof.
  unfold encode_utf8, decode_utf8. intros H.
  destruct (utf8_encode_from 0 s) as [t|] eqn:E; [|discriminate].
  assert (t = bs) by congruence. subst t.
  now rewrite (utf8_decode_encode_from _ _ _ E).
Qed.

(** ** Reading what was written *)

Lemma firstn_exact (A : Type) (a b : list A) (n : nat) :
  length a = n -> firstn n (a ++ b) = a.
Proof.
  intros <-. now rewrite firstn_app, Nat.sub_diag, firstn_all, firstn_O, app_nil_r.
Qed.

Lemma skipn_exact (A : Type) (a b : list A) (n : nat) :
  length a = n -> skipn n (a ++ b) = b.
Proof.
  intros <-. now rewrite skipn_app, Nat.sub_diag, skipn_all, skipn_O.
Qed.

Lemma read_app (a rest : list byte) (o : nat) :
  read (length a) {| unread := a ++ rest; offset := o |}
  = (Ok a, {| unread := rest; offset := (o + length a)%nat |}).
Proof.
  unfold read. cbn [unread offset].
  now rewrite firstn_exact, skipn_exact.
Qed.

Lemma pack_f_inv (x : float) (b : list byte) :
  pack_f x = Ok b ->
  b = le_bytes 4 (bits_of_single (to_single x)) /\ fits_single x = true.
Proof.
  unfold pack_f, fits_single.
  destruct x; destruct (to_single _); intros H;
    first [discriminate | split; [congruence | reflexivity]].
Qed.

Lemma pack_f_fits (x : float) :
  fits_single x = true ->
  pack_f x = Ok (le_bytes 4 (bits_of_single (to_single x))).
Proof.
  unfold pack_f, fits_single.
  destruct x; destruct (to_single _); intros H;
    first [discriminate | reflexivity].
Qed.

Lemma pack_items_inv (xs : list float) :
  forall bs : list byte,
    pack_items xs = Ok bs ->
    length bs = (4 * length xs)%nat
    /\ unpack_items (length xs) bs = map single_roundtrip xs
    /\ forallb fits_single xs = true.
Proof.
  induction xs as [|x xs IH]; intros bs H.
  - simpl in H. assert (bs = []) by congruence. subst. auto.
  - cbn [pack_items] in H. unfold rbind in H.
    destruct (pack_f x) as [b|] eqn:Ex; [|discriminate].
    destruct (pack_items xs) as [t|] eqn:Exs; [|discriminate].
    assert (bs = b ++ t) by congruence. subst bs.
    apply pack_f_inv in Ex as [-> Fx]. destruct (IH _ eq_refl) as (L & U & F).
    rewrite length_app, length_le_bytes, L.
    split; [cbn [length]; lia|]. split.
    + cbn [length unpack_items map].
      rewrite firstn_exact, skipn_exact by apply length_le_bytes.
      now rewrite U.
    + cbn [forallb]. now rewrite Fx, F.
Qed.

Lemma pack_items_fits (xs : list float) :
  forallb fits_single xs = true -> exists bs, pack_items xs = Ok bs.
Proof.
  induction xs as [|x xs IH]; intros H.
  - now exists [].
  - cbn [forallb] in H. apply andb_true_iff in H as [Hx Hxs].
    destruct (IH Hxs) as [t Et]. cbn [pack_items].
    rewrite (pack_f_fits _ Hx), Et. cbn [rbind]. eauto.
Qed.

Lemma unpack_pack_floats (n : nat) (xs : list float) (bs : list byte) :
  pack_floats n xs = Ok bs ->
  length xs = n /\ length bs = (4 * n)%nat
  /\ unpack_floats n bs = Ok (map single_roundtrip xs)
  /\ forallb fits_single xs = true.
Proof.
  unfold pack_floats, unpack_floats. intros H.
  destruct (Nat.eqb_spec (length xs) n) as [E|]; [|discriminate].
  destruct (pack_items_inv _ _ H) as (L & U & F). subst n.
  rewrite L, Nat.eqb_refl, U. auto.
Qed.

Lemma pack_floats_ok (n : nat) (xs : list float) :
  length xs = n -> forallb fits_single xs = true ->
  exists bs, pack_floats n xs = Ok bs.
Proof.
  intros L F. unfold pack_floats. rewrite L, Nat.eqb_refl.
  now apply pack_items_fits.
Qed.

Lemma read_exact (n : nat) (a rest : list byte) (o : nat) :
  length a = n ->
  read n {| unread := a ++ rest; offset := o |}
  = (Ok a, {| unread := rest; offset := (o + n)%nat |}).
Proof.
  intros <-. apply read_app.
Qed.

Lemma pack_H_inv (n : Z) (b : list byte) :
  pack_H n = Ok b -> 0 <= n <= 65535 /\ b = le_bytes 2 n.
Proof.
  unfold pack_H.
  destruct (Z.leb_spec 0 n); destruct (Z.leb_spec n 65535); simpl;
    intros E; try discriminate.
  split; [lia | congruence].
Qed.

Lemma pack_I_inv (n : Z) (b : list byte) :
  pack_I n = Ok b -> 0 <= n <= 4294967295 /\ b = le_bytes 4 n.
Proof.
  unfold pack_I.
  destruct (Z.leb_spec 0 n); destruct (Z.leb_spec n 4294967295); simpl;
    intros E; try discriminate.
  split; [lia | congruence].
Qed.

(** What [write_words] appends is read back by [load_words], record by
    record, whatever follows it in the file. *)
Lemma write_words_load_words (items : list (pystr * list float)) :
  forall out out' : wfile,
    write_words items out = (Ok tt, out') ->
    Forall storable items
    /\ exists body : list byte,
        out' = out ++ body
        /\ forall (acc : store) (rest : list byte) (o : nat),
            load_words (length items) acc
                       {| unread := body ++ rest; offset := o |}
            = (Ok (fold_left set_entry (map read_back items) acc),
               {| unread := rest; offset := (o + length body)%nat |}).
Proof.
  induction items as [|[word vector] items IH]; intros out out' H.
  - cbn in H. injection H as <-. split; [constructor|].
    exists []. split; [now rewrite app_nil_r|].
    intros acc rest o. cbn. now rewrite Nat.add_0_r.
  - cbn [write_words] in H. unfold bind, lift, write in H.
    destruct (encode_utf8 word) as [wb|] eqn:Ew; [|discriminate].
    destruct (pack_H (Z.of_nat (length wb))) as [lb|] eqn:El; [|discriminate].
    destruct (pack_floats VECTOR_DIM vector) as [vb|] eqn:Ev; [|discriminate].
    apply pack_H_inv in El as [Hl ->].
    destruct (unpack_pack_floats _ _ _ Ev) as (Lv & Lb & Uv & Fv).
    destruct (IH _ _ H) as (Hst & body & -> & Hload).
    split.
    + constructor; [|exact Hst]. unfold storable. cbn [fst snd].
      split; [exists wb; split; [exact Ew | lia] | split; assumption].
    + exists (le_bytes 2 (Z.of_nat (length wb)) ++ wb ++ vb ++ body).
      split; [now rewrite <- !app_assoc|].
      intros acc rest o. cbn [length load_words]. unfold bind, lift.
      rewrite <- !app_assoc.
      rewrite read_exact by apply length_le_bytes.
      rewrite unpack_H_pack by exact Hl. rewrite Nat2Z.id.
      rewrite read_exact by reflexivity.
      rewrite (decode_encode_utf8 _ _ Ew).
      rewrite read_exact by (rewrite Lb; apply Nat.mul_comm).
      rewrite Uv, Hload. cbn [map fold_left]. f_equal. f_equal.
      rewrite !length_app, length_le_bytes, Lb. lia.
Qed.

(** [write_words] succeeds on entries that the format can hold. *)
Lemma write_words_ok (items : list (pystr * list float)) :
  Forall storable items ->
  forall out : wfile, exists out', write_words items out = (Ok tt, out').
Proof.
  induction 1 as [|[word vector] items Hs _ IH]; intros out.
  - eexists. reflexivity.
  - destruct Hs as ((wb & Ew & Lw) & Lv & Fv). cbn [fst snd] in *.
    cbn [write_words]. unfold bind, lift, write. rewrite Ew.
    rewrite pack_H_ok by lia.
    destruct (pack_floats_ok _ _ Lv Fv) as [vb ->]. apply IH.
Qed.

(** ** dict *)

Lemma dict_set_fresh (V : Type) (d : dict V) (k : pystr) (v : V) :
  ~ In k (keys d) -> dict_set d k v = d ++ [(k, v)].
Proof.
  induction d as [|[k' v'] d IH]; intros H; [reflexivity|].
  cbn [dict_set]. cbn [keys map fst In] in H.
  destruct (str_eqb k' k) eqn:E.
  - apply str_eqb_eq in E. tauto.
  - cbn [app]. f_equal. apply IH. unfold keys. tauto.
Qed.

Lemma fold_set_entry_fresh (items : list (pystr * list float)) :
  forall acc : store,
    NoDup (keys acc ++ keys items) ->
    fold_left set_entry items acc = acc ++ items.
Proof.
  induction items as [|[k v] items IH]; intros acc H.
  - cbn. now rewrite app_nil_r.
  - cbn [fold_left]. unfold set_entry at 2. cbn [fst snd].
    cbn [keys map fst] in H.
    rewrite dict_set_fresh.
    + rewrite IH; [now rewrite <- app_assoc|].
      unfold keys in *. rewrite map_app. cbn [map fst].
      now rewrite <- app_assoc.
    + apply NoDup_remove_2 in H. unfold keys in *. intros Hin. apply H.
      apply in_or_app. now left.
Qed.

Lemma keys_read_back (items : list (pystr * list float)) :
  keys (map read_back items) = keys items.
Proof.
  unfold keys. rewrite map_map. now apply map_ext.
Qed.

(** ** Single-precision values *)

Lemma digits2_pos_size (p : positive) : digits2_pos p = Pos.size p.
Proof. induction p; cbn; congruence. Qed.

Lemma digits2_bounds (p : positive) :
  2 ^ (Zpos (digits2_pos p) - 1) <= Zpos p < 2 ^ Zpos (digits2_pos p).
Proof.
  rewrite digits2_pos_size. pose proof (Pos.size_gt p) as G.
  pose proof (Pos.size_le p) as L.
  apply Pos2Z.pos_lt_pos in G. apply Pos2Z.pos_le_pos in L.
  rewrite Pos2Z.inj_pow in G, L. change (Z.pos 2) with 2 in G, L.
  replace (Z.pos (Pos.size p)) with (Z.pos (Pos.size p) - 1 + 1) in L at 1 by lia.
  rewrite Z.pow_add_r in L by lia. change (2 ^ 1) with 2 in L. lia.
Qed.

Lemma iter_pos_nat (A : Type) (f : A -> A) (n : positive) :
  forall x, SpecFloat.iter_pos f n x = Nat.iter (Pos.to_nat n) f x.
Proof.
  induction n as [n IH|n IH|]; intros x; cbn [SpecFloat.iter_pos].
  - rewrite !IH, Pos2Nat.inj_xI. cbn [Nat.mul]. rewrite Nat.add_0_r.
    rewrite <- Nat.iter_add. rewrite <- Nat.iter_succ_r. reflexivity.
  - rewrite !IH, Pos2Nat.inj_xO. cbn [Nat.mul]. rewrite Nat.add_0_r.
    now rewrite <- Nat.iter_add.
  - reflexivity.
Qed.

Lemma pos_iter_nat (A : Type) (f : A -> A) (n : positive) (x : A) :
  Pos.iter f x n = Nat.iter (Pos.to_nat n) f x.
Proof.
  apply Pos2Nat.inj_iter.
Qed.

Lemma shr_shl_nat (k : nat) (m : positive) :
  Nat.iter k shr_1
           {| shr_m := Zpos (Nat.iter k xO m); shr_r := false; shr_s := false |}
  = {| shr_m := Zpos m; shr_r := false; shr_s := false |}.
Proof.
  induction k as [|k IH]; [reflexivity|].
  rewrite Nat.iter_succ_r, Nat.iter_succ. cbn [shr_1 orb]. exact IH.
Qed.

Lemma digits_shl_nat (k : nat) (m : positive) :
  Zpos (digits2_pos (Nat.iter k xO m)) = Zpos (digits2_pos m) + Z.of_nat k.
Proof.
  induction k as [|k IH]; [cbn; lia|].
  rewrite Nat.iter_succ. cbn [digits2_pos].
  rewrite Pos2Z.inj_succ, IH. lia.
Qed.
Lemma round_aux_canonical (prec emax : Z) (s : bool) (m : positive) (e : Z) :
  fexp prec emax (Zpos (digits2_pos m) + e) = e ->
  e <= emax - prec ->
  binary_round_aux prec emax s (Zpos m) e loc_Exact = S754_finite s m e.
Proof.
  intros Hc He. unfold binary_round_aux, shr_fexp.
  cbn [Zdigits2 shr_record_of_loc]. rewrite Hc, Z.sub_diag.
  cbn [shr shr_m loc_of_shr_record round_nearest_even Zdigits2 shr_record_of_loc].
  rewrite Hc, Z.sub_diag. cbn [shr shr_m].
  destruct (Z.leb_spec e (emax - prec)); [reflexivity|lia].
Qed.

Lemma round_aux_shift (prec emax : Z) (s : bool) (m : positive) (k : nat)
      (e : Z) :
  (0 < k)%nat ->
  fexp prec emax (Zpos (digits2_pos m) + Z.of_nat k + e) = e + Z.of_nat k ->
  e + Z.of_nat k <= emax - prec ->
  binary_round_aux prec emax s (Zpos (Nat.iter k xO m)) e loc_Exact
  = S754_finite s m (e + Z.of_nat k).
Proof.
  intros Hk Hc He. unfold binary_round_aux, shr_fexp.
  cbn [Zdigits2 shr_record_of_loc]. rewrite digits_shl_nat, Hc.
  replace (e + Z.of_nat k - e) with (Zpos (Pos.of_nat k)) by lia.
  cbn [shr]. rewrite iter_pos_nat, Nat2Pos.id by lia. rewrite shr_shl_nat.
  cbn [shr_m loc_of_shr_record round_nearest_even Zdigits2 shr_record_of_loc].
  replace (Zpos (digits2_pos m) + (e + Zpos (Pos.of_nat k)))
    with (Zpos (digits2_pos m) + Z.of_nat k + e) by lia.
  rewrite Hc. replace (e + Z.of_nat k - (e + Zpos (Pos.of_nat k))) with 0 by lia.
  cbn [shr shr_m].
  destruct (Z.leb_spec (e + Zpos (Pos.of_nat k)) (emax - prec)); [|lia].
  f_equal. lia.
Qed.
Lemma digits2_le (m : positive) (d : Z) :
  0 <= d -> Zpos m < 2 ^ d -> Zpos (digits2_pos m) <= d.
Proof.
  intros Hd Hm. destruct (digits2_bounds m) as [L _].
  destruct (Z.le_gt_cases (Zpos (digits2_pos m)) d) as [|G]; [assumption|].
  assert (2 ^ d <= 2 ^ (Zpos (digits2_pos m) - 1))
    by (apply Z.pow_le_mono_r; lia).
  lia.
Qed.

Lemma digits2_ge (m : positive) (d : Z) :
  2 ^ (d - 1) <= Zpos m -> d <= Zpos (digits2_pos m).
Proof.
  intros Hm. destruct (digits2_bounds m) as [_ U].
  destruct (Z.le_gt_cases d (Zpos (digits2_pos m))) as [|G]; [assumption|].
  assert (2 ^ Zpos (digits2_pos m) <= 2 ^ (d - 1))
    by (apply Z.pow_le_mono_r; lia).
  lia.
Qed.

(** Conversion of a binary32 number to binary64. *)
Lemma to_double_finite (s : bool) (m : positive) (e : Z) :
  Zpos (digits2_pos m) <= 24 -> -149 <= e ->  e <= 104 ->
  to_double (S754_finite s m e)
  = S754_finite s (Nat.iter (Z.to_nat (53 - Zpos (digits2_pos m))) xO m)
                (e - (53 - Zpos (digits2_pos m))).
Proof.
  intros Hd Hlo Hhi. unfold to_double, binary_round, shl_align.
  set (d := Zpos (digits2_pos m)) in *.
  assert (F : fexp 53 1024 (d + e) = d + e - 53)
    by (unfold fexp, emin; lia).
  rewrite F.
  destruct (d + e - 53 - e) as [|p|p] eqn:Ep; try lia.
  rewrite (Pos2Nat.inj_iter p). fold (Nat.iter (Pos.to_nat p) xO m).
  replace (Pos.to_nat p) with (Z.to_nat (53 - d)) by lia.
  rewrite round_aux_canonical.
  - f_equal. lia.
  - rewrite digits_shl_nat. fold d. unfold fexp, emin. lia.
  - lia.
Qed.
Lemma valid_single_finite (s : bool) (m : positive) (e : Z) :
  valid_binary 24 128 (S754_finite s m e) = true ->
  Zpos (digits2_pos m) <= 24 /\ -149 <= e /\ e <= 104
  /\ (Zpos (digits2_pos m) = 24 \/ e = -149).
Proof.
  unfold valid_binary, bounded, canonical_mantissa, fexp, emin. intros H.
  apply andb_true_iff in H as [H1 H2].
  apply Z.eqb_eq in H1. apply Z.leb_le in H2. lia.
Qed.

(** The conversion to binary64 of a binary32 number is exact: converting
    back gives the number. *)
Lemma to_single_to_double (y : spec_float) :
  valid_binary 24 128 y = true -> to_single (to_double y) = y.
Proof.
  destruct y as [s|s| |s m e]; try reflexivity. intros H.
  destruct (valid_single_finite _ _ _ H) as (Hd & Hlo & Hhi & Hc).
  rewrite to_double_finite by assumption.
  unfold to_single, binary_round, shl_align.
  rewrite digits_shl_nat.
  set (d := Zpos (digits2_pos m)) in *.
  assert (F : fexp 24 128 (d + Z.of_nat (Z.to_nat (53 - d)) + (e - (53 - d)))
              = e) by (unfold fexp, emin; lia).
  rewrite F.
  destruct (e - (e - (53 - d))) as [|p|p] eqn:Ep; try lia.
  rewrite round_aux_shift.
  - f_equal. lia.
  - lia.
  - fold d. rewrite F. lia.
  - lia.
Qed.
Lemma single_of_bits_valid (z : Z) :
  valid_binary 24 128 (single_of_bits z) = true.
Proof.
  unfold single_of_bits.
  pose proof (Z.mod_pos_bound (z / 0x800000) 256 ltac:(lia)) as Hex.
  pose proof (Z.mod_pos_bound z 0x800000 ltac:(lia)) as Hfrac.
  set (ex := (z / 0x800000) mod 256) in *.
  set (frac := z mod 0x800000) in *. clearbody ex frac.
  destruct (Z.eqb_spec ex 0) as [E0|E0].
  - destruct frac as [|m|m]; try reflexivity.
    unfold valid_binary, bounded, canonical_mantissa, fexp, emin.
    pose proof (digits2_le m 23 ltac:(lia) ltac:(simpl; lia)).
    apply andb_true_iff. split; [apply Z.eqb_eq; lia | apply Z.leb_le; lia].
  - destruct (Z.eqb_spec ex 255) as [E1|E1].
    + destruct (frac =? 0); reflexivity.
    + destruct (frac + 0x800000) as [|m|m] eqn:Em; try reflexivity.
      unfold valid_binary, bounded, canonical_mantissa, fexp, emin.
      pose proof (digits2_le m 24 ltac:(lia) ltac:(simpl; lia)).
      pose proof (digits2_ge m 24 ltac:(simpl; lia)).
      apply andb_true_iff. split; [apply Z.eqb_eq; lia | apply Z.leb_le; lia].
Qed.

Lemma bits_fields (sb ex frac : Z) :
  0 <= sb <= 1 -> 0 <= ex < 256 -> 0 <= frac < 0x800000 ->
  let z := sb * 0x80000000 + ex * 0x800000 + frac in
  (0x80000000 <=? z) = (sb =? 1)
  /\ (z / 0x800000) mod 256 = ex
  /\ z mod 0x800000 = frac
  /\ 0 <= z < 4294967296.
Proof.
  intros Hs He Hf z. subst z.
  replace (sb * 0x80000000 + ex * 0x800000 + frac)
    with (frac + (sb * 256 + ex) * 0x800000) by lia.
  rewrite Z.div_add, Z.mod_add by lia.
  rewrite (Z.div_small frac), (Z.mod_small frac) by lia.
  replace (0 + (sb * 256 + ex)) with (ex + sb * 256) by lia.
  rewrite Z.mod_add, (Z.mod_small ex) by lia.
  repeat split; lia.
Qed.

(** The 32 bits of a binary32 number tell the number. *)
Lemma single_of_bits_of_single (y : spec_float) :
  valid_binary 24 128 y = true ->
  single_of_bits (bits_of_single y) = y
  /\ 0 <= bits_of_single y < 4294967296.
Proof.
  destruct y as [s|s| |s m e]; intros H.
  - destruct s; split; try reflexivity; cbn; lia.
  - destruct s; split; try reflexivity; cbn; lia.
  - split; [reflexivity | cbn; lia].
  - destruct (valid_single_finite _ _ _ H) as (Hd & Hlo & Hhi & Hc).
    unfold bits_of_single.
    destruct (Z.ltb_spec (Zpos m) 0x800000) as [Hm|Hm].
    + assert (He : e = -149).
      { destruct Hc as [Hc|]; [|assumption].
        pose proof (digits2_le m 23 ltac:(lia) ltac:(simpl; lia)). lia. }
      subst e.
      destruct (bits_fields (if s then 1 else 0) 0 (Zpos m))
        as (B1 & B2 & B3 & B4); try lia; [destruct s; lia|].
      replace (sign_bit s + Zpos m)
        with ((if s then 1 else 0) * 0x80000000 + 0 * 0x800000 + Zpos m)
        by (destruct s; reflexivity).
      split; [|exact B4].
      unfold single_of_bits. rewrite B1, B2, B3. cbn [Z.eqb].
      destruct s; reflexivity.
    + pose proof (digits2_bounds m) as Hb.
      assert (Hm' : Zpos m < 0x1000000).
      { destruct Hb as [_ U].
        assert (2 ^ Zpos (digits2_pos m) <= 2 ^ 24)
          by (apply Z.pow_le_mono_r; lia).
        simpl in *. lia. }
      destruct (bits_fields (if s then 1 else 0) (e + 150)
                            (Zpos m - 0x800000))
        as (B1 & B2 & B3 & B4); try lia; [destruct s; lia|].
      replace (sign_bit s + (e + 150) * 0x800000 + (Zpos m - 0x800000))
        with ((if s then 1 else 0) * 0x80000000 + (e + 150) * 0x800000
              + (Zpos m - 0x800000)) by (destruct s; reflexivity).
      split; [|exact B4].
      unfold single_of_bits. rewrite B1, B2, B3.
      destruct (Z.eqb_spec (e + 150) 0); [lia|].
      destruct (Z.eqb_spec (e + 150) 255); [lia|].
      replace (Zpos m - 0x800000 + 0x800000) with (Zpos m) by lia.
      replace (e + 150 - 150) with e by lia.
      destruct s; reflexivity.
Qed.

(** What is read from an [f] item is a single-precision value. *)
Lemma unpack_f_single (data : list byte) : is_single (unpack_f data).
Proof.
  unfold is_single, single_roundtrip, unpack_f.
  pose proof (single_of_bits_valid (le_value data)) as V.
  rewrite to_single_to_double by exact V.
  destruct (single_of_bits_of_single _ V) as [E R].
  rewrite le_value_le_bytes by (simpl; lia).
  now rewrite E.
Qed.

Lemma single_roundtrip_single (x : float) : is_single (single_roundtrip x).
Proof.
  exact (unpack_f_single (le_bytes 4 (bits_of_single (to_single x)))).
Qed.

(** The single-precision values are the binary32 numbers, seen as
    binary64 numbers. *)
Lemma is_single_iff (x : float) :
  is_single x
  <-> exists y, valid_binary 24 128 y = true /\ x = to_double y.
Proof.
  split.
  - intros H. eexists. split; [|symmetry; exact H]. apply single_of_bits_valid.
  - intros (y & V & ->). unfold is_single, single_roundtrip.
    rewrite to_single_to_double by exact V.
    destruct (single_of_bits_of_single _ V) as [E R].
    rewrite le_value_le_bytes by (simpl; lia).
    now rewrite E.
Qed.

(** ** The vector store codec (claim C2) *)

Lemma store_to_single_fixed (vectors : store) :
  (forall w v x, In (w, v) vectors -> In x v -> is_single x) ->
  store_to_single vectors = vectors.
Proof.
  unfold store_to_single. intros H.
  rewrite <- (map_id vectors) at 2. apply map_ext_in.
  intros [w v] Hin. unfold read_back. cbn [fst snd]. f_equal.
  rewrite <- (map_id v) at 2. apply map_ext_in.
  intros x Hx. exact (H w v x Hin Hx).
Qed.

(** C2, as the code has it.  For a store of at most 4294967295 entries,
    each with a word whose UTF-8 encoding has at most 65535 bytes and a
    vector of 100 components in the single-precision range,
    [save_binary_format] succeeds and [load_glove_binary] reads the whole
    file back as the same words in the same order, each with its vector
    converted component by component to single precision.  The components
    that are read back are single-precision values, and the store itself is
    read back when its components are single-precision values. *)
Theorem save_load_roundtrip (vectors : store) :
  NoDup (keys vectors) ->
  Forall storable vectors ->
  Z.of_nat (length vectors) <= 4294967295 ->
  exists (out : list byte) (f : rfile),
    save_binary_format vectors [] = (Ok tt, out)
    /\ load_glove_binary (open_rb out) = (Ok (store_to_single vectors), f)
    /\ unread f = []
    /\ (forall w v x, In (w, v) (store_to_single vectors) -> In x v ->
                      is_single x)
    /\ ((forall w v x, In (w, v) vectors -> In x v -> is_single x) ->
        load_glove_binary (open_rb out) = (Ok vectors, f)).
Proof.
  intros Hnd Hst Hlen.
  destruct (write_words_ok _ Hst (le_bytes 4 (Z.of_nat (length vectors))))
    as [out Hw].
  destruct (write_words_load_words _ _ _ Hw) as (_ & body & -> & Hload).
  assert (Hsave : save_binary_format vectors []
                  = (Ok tt, le_bytes 4 (Z.of_nat (length vectors)) ++ body)).
  { unfold save_binary_format, bind, lift, write.
    rewrite pack_I_ok by lia. cbn [app]. exact Hw. }
  assert (Hrun : load_glove_binary
                   (open_rb (le_bytes 4 (Z.of_nat (length vectors)) ++ body))
                 = (Ok (store_to_single vectors),
                    {| unread := []; offset := (0 + 4 + length body)%nat |})).
  { unfold load_glove_binary, open_rb, bind, lift.
    rewrite read_exact by apply length_le_bytes.
    rewrite unpack_I_pack by lia. rewrite Nat2Z.id.
    rewrite <- (app_nil_r body) at 1. rewrite Hload. f_equal. f_equal.
    apply (fold_set_entry_fresh (map read_back vectors) []).
    cbn [keys map app]. fold (keys (map read_back vectors)).
    now rewrite keys_read_back. }
  eexists. eexists.
  split; [exact Hsave|]. split; [exact Hrun|]. split; [reflexivity|]. split.
  - intros w v x Hin Hx. unfold store_to_single in Hin.
    apply in_map_iff in Hin as ([w' v'] & E & _). unfold read_back in E.
    cbn [fst snd] in E. assert (v = map single_roundtrip v') by congruence.
    subst v. apply in_map_iff in Hx as (x' & <- & _).
    apply single_roundtrip_single.
  - intros Hs. rewrite Hrun. now rewrite (store_to_single_fixed _ Hs).
Qed.

Lemma example_store_single (w : pystr) (v : list float) (x : float) :
  In (w, v) example_store -> In x v -> is_single x.
Proof.
  unfold example_store.
  intros [E|[E|[]]] Hx; apply (f_equal snd) in E; cbn [snd] in E; subst v;
    apply repeat_spec in Hx; subst x; vm_compute; reflexivity.
Qed.

(** The round trip of a store whose components are single-precision
    values. *)
Lemma save_load_roundtrip_witness :
  exists (out : list byte) (f : rfile),
    save_binary_format example_store [] = (Ok tt, out)
    /\ load_glove_binary (open_rb out) = (Ok example_store, f)
    /\ unread f = [].
Proof.
  destruct (save_load_roundtrip example_store)
    as (out & f & S & _ & U & _ & L).
  - repeat constructor; cbn; intuition discriminate.
  - repeat constructor; try (cbn [fst snd]; vm_compute; reflexivity);
      cbn [fst snd]; eexists;
      (split; [vm_compute; reflexivity | vm_compute; discriminate]).
  - vm_compute. discriminate.
  - exists out, f. split; [exact S|]. split; [|exact U].
    apply L. exact example_store_single.
Defined.

(** C2 fails as stated: the store that the reducer builds from the corpus
    line [the 0.1 ... 0.1] is saved and loaded without error, but the store
    that is loaded differs from it, each [0.1] having become the nearest
    single-precision number. *)
Lemma roundtrip_not_exact :
  exists (vectors loaded : store) (out : list byte) (f : rfile),
    load_glove_vectors float_of_literal corpus_the TOP_K_WORDS = Ok vectors
    /\ vectors = [(str "the", repeat tenth VECTOR_DIM)]
    /\ encode_utf8 (str "the") = Ok [x74; x68; x65]
    /\ save_binary_format vectors [] = (Ok tt, out)
    /\ load_glove_binary (open_rb out) = (Ok loaded, f)
    /\ loaded = [(str "the", repeat (single_roundtrip tenth) VECTOR_DIM)]
    /\ loaded <> vectors.
Proof.
  do 4 eexists.
  split; [vm_compute; reflexivity|].
  split; [vm_compute; reflexivity|].
  split; [vm_compute; reflexivity|].
  split; [vm_compute; reflexivity|].
  split; [vm_compute; reflexivity|].
  split; [vm_compute; reflexivity|].
  vm_compute. discriminate.
Qed.

(** ** The tokenizer (claim C7) *)

Lemma split_from_tokens (s : pystr) :
  forall (cur t : pystr),
    In t (split_from cur s) ->
    t <> []
    /\ forall c, In c t -> In c cur \/ (In c s /\ is_space c = false).
Proof.
  induction s as [|c s IH]; intros cur t Hin.
  - cbn [split_from] in Hin. destruct cur as [|x cur]; [contradiction|].
    destruct Hin as [<-|[]]. split.
    + intros E. apply (f_equal (@rev Z)) in E. rewrite rev_involutive in E.
      discriminate.
    + intros d Hd. left. now apply in_rev.
  - cbn [split_from] in Hin. destruct (is_space c) eqn:Ec.
    + destruct cur as [|x cur].
      * destruct (IH _ _ Hin) as [Hne Hc]. split; [exact Hne|].
        intros d Hd. destruct (Hc d Hd) as [[]|[H1 H2]]. right. split; [now right|exact H2].
      * destruct Hin as [<-|Hin].
        -- split.
           ++ intros E. apply (f_equal (@rev Z)) in E.
              rewrite rev_involutive in E. discriminate.
           ++ intros d Hd. left. now apply in_rev.
        -- destruct (IH _ _ Hin) as [Hne Hc]. split; [exact Hne|].
           intros d Hd. destruct (Hc d Hd) as [[]|[H1 H2]].
           right. split; [now right|exact H2].
    + destruct (IH _ _ Hin) as [Hne Hc]. split; [exact Hne|].
      intros d Hd. destruct (Hc d Hd) as [[<-|H1]|[H1 H2]].
      * right. split; [now left|exact Ec].
      * now left.
      * right. split; [now right|exact H2].
Qed.

Lemma sub_special_chars (text : pystr) (c : Z) :
  In c (sub_special text) -> is_word_or_space c = true.
Proof.
  unfold sub_special. intros H. apply in_map_iff in H as (d & <- & _).
  destruct (is_word_or_space d) eqn:E; [exact E|reflexivity].
Qed.

Lemma tokenize_unfold (text : pystr) :
  tokenize text
  = filter (fun t => (2 <=? length t)%nat) (split (sub_special (lower text))).
Proof.
  destruct text; reflexivity.
Qed.

(** C7, as the code has it.  [tokenize("Git-Log v2!!")] is
    [["git", "log", "v2"]]; in general [tokenize] lowercases the text,
    replaces every character outside [[a-z0-9]] and whitespace by a space,
    splits at whitespace and keeps the tokens of at least 2 characters, so
    that every token has at least 2 characters, all of them in [[a-z0-9]]. *)
Theorem tokenize_behaviour :
  tokenize (str "Git-Log v2!!") = [str "git"; str "log"; str "v2"]
  /\ (forall text : pystr,
         tokenize text
         = filter (fun t => (2 <=? length t)%nat)
                  (split (sub_special (lower text))))
  /\ (forall (text t : pystr),
         In t (tokenize text) ->
         (2 <= length t)%nat /\ Forall (fun c => is_lower_alnum c = true) t).
Proof.
  split; [reflexivity|]. split; [exact tokenize_unfold|].
  intros text t Hin. rewrite tokenize_unfold in Hin.
  apply filter_In in Hin as [Hin Hlen]. split.
  - now apply Nat.leb_le.
  - apply Forall_forall. intros c Hc.
    destruct (split_from_tokens _ _ _ Hin) as [_ Hchars].
    destruct (Hchars c Hc) as [[]|[Hs Hsp]].
    apply sub_special_chars in Hs. unfold is_word_or_space in Hs.
    rewrite Hsp, orb_false_r in Hs. exact Hs.
Qed.

(** C7 fails as stated: the token [v2] is kept. *)
Lemma tokenize_keeps_v2 :
  tokenize (str "Git-Log v2!!") = [str "git"; str "log"; str "v2"]
  /\ tokenize (str "Git-Log v2!!") <> [str "git"; str "log"].
Proof.
  split; [reflexivity|]. vm_compute. discriminate.
Qed.

(** ** Index loops over lists *)

Lemma length_set_nth (A : Type) (l : list A) (i : nat) (x : A) :
  length (set_nth l i x) = length l.
Proof.
  revert i. induction l as [|y l IH]; intros [|i]; cbn; auto.
Qed.

Lemma nth_set_nth (A : Type) (l : list A) (i j : nat) (x d : A) :
  (i < length l)%nat ->
  nth j (set_nth l i x) d = if (j =? i)%nat then x else nth j l d.
Proof.
  revert i j. induction l as [|y l IH]; intros i j Hi; [cbn in Hi; lia|].
  destruct i as [|i]; destruct j as [|j]; cbn [set_nth nth Nat.eqb];
    try reflexivity.
  apply IH. cbn in Hi. lia.
Qed.

Lemma nth_error_nth' (A : Type) (l : list A) (i : nat) (d : A) :
  (i < length l)%nat -> nth_error l i = Some (nth i l d).
Proof.
  revert i. induction l as [|y l IH]; intros i Hi; [cbn in Hi; lia|].
  destruct i as [|i]; [reflexivity|]. cbn. apply IH. cbn in Hi. lia.
Qed.

(** A loop [for i in range(n): l[i] = f(i, l[i])] computes [f] pointwise. *)
Lemma for_range_pointwise (n : nat)
      (body : nat -> list float -> result (list float))
      (f : nat -> float -> float) :
  (forall i l, (i < n)%nat -> length l = n ->
               body i l = Ok (set_nth l i (f i (nth i l zero)))) ->
  forall l, length l = n ->
    exists res, for_range n body l = Ok res
                /\ length res = n
                /\ forall i, (i < n)%nat -> nth i res zero = f i (nth i l zero).
Proof.
  intros Hbody l Hl. unfold for_range.
  assert (G : forall m k cur,
             (k + m = n)%nat -> length cur = n ->
             (forall i, (i < k)%nat -> nth i cur zero = f i (nth i l zero)) ->
             (forall i, (k <= i)%nat -> nth i cur zero = nth i l zero) ->
             exists res,
               fold_left (fun r i => let? x := r in body i x) (seq k m) (Ok cur)
               = Ok res
               /\ length res = n
               /\ forall i, (i < n)%nat -> nth i res zero = f i (nth i l zero)).
  { induction m as [|m IH]; intros k cur Hk Hc Hlo Hhi.
    - exists cur. cbn. repeat split; [exact Hc|].
      intros i Hi. apply Hlo. lia.
    - cbn [seq fold_left rbind]. rewrite Hbody by lia.
      apply IH.
      + lia.
      + now rewrite length_set_nth.
      + intros i Hi. rewrite nth_set_nth by lia.
        destruct (Nat.eqb_spec i k) as [->|Hne].
        * now rewrite Hhi by lia.
        * apply Hlo. lia.
      + intros i Hi. rewrite nth_set_nth by lia.
        destruct (Nat.eqb_spec i k) as [->|Hne]; [lia|]. apply Hhi. lia. }
  apply (G n 0%nat l); auto. intros i Hi. lia.
Qed.

Lemma add_at_ok (vec l : list float) (i : nat) :
  (i < length l)%nat -> (i < length vec)%nat ->
  add_at vec i l
  = Ok (set_nth l i (float_add (nth i l zero) (nth i vec zero))).
Proof.
  intros Hl Hv. unfold add_at.
  now rewrite (nth_error_nth' _ _ _ zero Hl), (nth_error_nth' _ _ _ zero Hv).
Qed.

Lemma div_at_ok (n : Z) (l : list float) (i : nat) :
  n <> 0 -> (i < length l)%nat ->
  div_at n i l
  = Ok (set_nth l i (SFdiv 53 1024 (nth i l zero) (float_of_int n))).
Proof.
  intros Hn Hl. unfold div_at, float_div_int.
  rewrite (nth_error_nth' _ _ _ zero Hl).
  destruct (Z.eqb_spec n 0); [contradiction|reflexivity].
Qed.

(** The summation loops: after them, component [i] is the sum, from left to
    right, of the components [i] of the vectors, starting from the component
    that was there. *)
Lemma sum_loops (vectors : list (list float)) :
  Forall (fun v => length v = VECTOR_DIM) vectors ->
  forall l, length l = VECTOR_DIM ->
    exists res,
      for_each vectors (fun vec => for_range VECTOR_DIM (add_at vec)) l = Ok res
      /\ length res = VECTOR_DIM
      /\ forall i, (i < VECTOR_DIM)%nat ->
           nth i res zero
           = fold_left float_add (map (fun v => nth i v zero) vectors)
                       (nth i l zero).
Proof.
  unfold for_each.
  induction 1 as [|vec vectors Hv _ IH]; intros l Hl.
  - exists l. cbn. auto.
  - cbn [fold_left rbind map].
    destruct (for_range_pointwise VECTOR_DIM (add_at vec)
                (fun i a => float_add a (nth i vec zero))) with (l := l)
      as (l1 & E1 & L1 & N1); [|exact Hl|].
    { intros i l0 Hi Hl0. apply add_at_ok; lia. }
    rewrite E1. destruct (IH l1 L1) as (res & E & L & N).
    exists res. repeat split; [exact E|exact L|].
    intros i Hi. now rewrite N, N1.
Qed.

(** ** compute_embedding *)

Lemma fold_extend (A B : Type) (g : A -> list B) (xs : list A) :
  forall acc, fold_left (fun acc x => acc ++ g x) xs acc = acc ++ flat_map g xs.
Proof.
  induction xs as [|x xs IH]; intros acc; cbn [fold_left flat_map].
  - now rewrite app_nil_r.
  - now rewrite IH, app_assoc.
Qed.

Lemma texts_tokens (cmd : command_record) :
  flat_map tokenize (texts_of cmd) = token_stream cmd.
Proof.
  unfold texts_of, token_stream, field_tokens, keyword_tokens.
  destruct (command cmd) as [[|c s]|]; destruct (description cmd) as [[|d t]|];
    destruct (keywords cmd) as [[|k ks]|];
    cbn [app]; rewrite ?flat_map_app; cbn [flat_map app];
    rewrite ?app_nil_r; reflexivity.
Qed.

Lemma all_tokens_stream (cmd : command_record) :
  all_tokens_of cmd = token_stream cmd.
Proof.
  unfold all_tokens_of. rewrite fold_extend. apply texts_tokens.
Qed.

Lemma dict_get_Some_key (V : Type) (d : dict V) (k : pystr) (v : V) :
  dict_get d k = Some v -> In k (keys d).
Proof.
  induction d as [|[k' v'] d IH]; cbn [dict_get keys map fst In];
    [discriminate|].
  destruct (str_eqb k' k) eqn:E.
  - apply str_eqb_eq in E. now left.
  - intros H. right. now apply IH.
Qed.

Lemma dict_get_None_key (V : Type) (d : dict V) (k : pystr) :
  dict_get d k = None -> ~ In k (keys d).
Proof.
  induction d as [|[k' v'] d IH]; cbn [dict_get keys map fst In]; [tauto|].
  destruct (str_eqb k' k) eqn:E; [discriminate|].
  apply str_eqb_neq in E. intros H [H1|H1]; [contradiction|].
  now apply IH.
Qed.

Lemma dict_get_In (V : Type) (d : dict V) (k : pystr) (v : V) :
  dict_get d k = Some v -> exists k', In (k', v) d.
Proof.
  induction d as [|[k' v'] d IH]; cbn [dict_get]; [discriminate|].
  destruct (str_eqb k' k).
  - intros H. exists k'. left. congruence.
  - intros H. destruct (IH H) as [k'' Hin]. exists k''. now right.
Qed.

Lemma dict_get_dim (word_vectors : store) (k : pystr) (v : list float) :
  store_dim word_vectors -> dict_get word_vectors k = Some v ->
  length v = VECTOR_DIM.
Proof.
  intros Hd Hg. destruct (dict_get_In _ _ _ _ Hg) as [k' Hin].
  unfold store_dim in Hd. rewrite Forall_forall in Hd.
  exact (Hd _ Hin).
Qed.

Lemma is_key_get (word_vectors : store) (token : pystr) :
  is_key word_vectors token
  = match dict_get word_vectors token with
    | Some _ => true
    | None => false
    end.
Proof.
  unfold is_key.
  destruct (dict_get word_vectors token) as [v|] eqn:E.
  - apply dict_get_Some_key in E.
    destruct (in_dec (list_eq_dec Z.eq_dec) token (keys word_vectors));
      [reflexivity|contradiction].
  - apply dict_get_None_key in E.
    destruct (in_dec (list_eq_dec Z.eq_dec) token (keys word_vectors));
      [contradiction|reflexivity].
Qed.

Lemma vectors_fold (word_vectors : store) (tokens : list pystr) :
  forall acc,
    fold_left (fun acc token =>
                 match dict_get word_vectors token with
                 | Some v => acc ++ [v]
                 | None => acc
                 end) tokens acc
    = acc ++ matched_vectors word_vectors tokens.
Proof.
  unfold matched_vectors.
  induction tokens as [|t tokens IH]; intros acc; cbn [fold_left filter map].
  - now rewrite app_nil_r.
  - rewrite IH, is_key_get.
    destruct (dict_get word_vectors t) as [v|] eqn:E; [|reflexivity].
    cbn [map]. unfold vector_of at 2. rewrite E. now rewrite <- app_assoc.
Qed.

Lemma matched_vectors_dim (word_vectors : store) (tokens : list pystr) :
  store_dim word_vectors ->
  Forall (fun v => length v = VECTOR_DIM)
         (matched_vectors word_vectors tokens).
Proof.
  intros Hd. unfold matched_vectors. apply Forall_forall. intros v Hin.
  apply in_map_iff in Hin as (t & <- & Ht). apply filter_In in Ht as [_ Hk].
  rewrite is_key_get in Hk. unfold vector_of.
  destruct (dict_get word_vectors t) as [w|] eqn:E; [|discriminate].
  exact (dict_get_dim _ _ _ Hd E).
Qed.

Lemma nth_repeat_zero (n i : nat) : nth i (repeat zero n) zero = zero.
Proof.
  revert i. induction n as [|n IH]; intros [|i]; cbn; auto.
Qed.

(** What [compute_embedding] returns on a store of dimension [VECTOR_DIM]. *)
Lemma compute_embedding_spec (cmd : command_record) (word_vectors : store) :
  store_dim word_vectors ->
  exists embedding,
    compute_embedding cmd word_vectors = Ok embedding
    /\ length embedding = VECTOR_DIM
    /\ (matched_vectors word_vectors (token_stream cmd) = [] ->
        embedding = repeat zero VECTOR_DIM)
    /\ (matched_vectors word_vectors (token_stream cmd) <> [] ->
        forall i, (i < VECTOR_DIM)%nat ->
          nth i embedding zero
          = mean_component
              (matched_vectors word_vectors (token_stream cmd)) i).
Proof.
  intros Hd. unfold compute_embedding.
  rewrite all_tokens_stream, vectors_fold. cbn [app].
  pose proof (matched_vectors_dim word_vectors (token_stream cmd) Hd) as Hv.
  destruct (matched_vectors word_vectors (token_stream cmd)) as [|v vs] eqn:E.
  - exists (repeat zero VECTOR_DIM). rewrite repeat_length.
    repeat split; congruence.
  - destruct (sum_loops (v :: vs) Hv (repeat zero VECTOR_DIM))
      as (sums & Es & Ls & Ns); [apply repeat_length|].
    rewrite Es. cbn [rbind].
    destruct (for_range_pointwise VECTOR_DIM
                (div_at (Z.of_nat (length (v :: vs))))
                (fun _ a => SFdiv 53 1024 a
                              (float_of_int (Z.of_nat (length (v :: vs))))))
      with (l := sums) as (res & Er & Lr & Nr); [|exact Ls|].
    { intros i l Hi Hl. apply div_at_ok; [cbn [length]; lia|lia]. }
    exists res. repeat split; [exact Er|exact Lr|congruence|].
    intros _ i Hi. rewrite Nr, Ns by exact Hi.
    unfold mean_component, float_sum. now rewrite nth_repeat_zero.
Qed.

(** ** Stores that were loaded have dimension [VECTOR_DIM] *)

Lemma length_unpack_items (n : nat) :
  forall data, length (unpack_items n data) = n.
Proof.
  induction n as [|n IH]; intros data; cbn [unpack_items length]; auto.
Qed.

Lemma unpack_floats_dim (n : nat) (data : list byte) (v : list float) :
  unpack_floats n data = Ok v -> length v = n.
Proof.
  unfold unpack_floats. destruct (length data =? 4 * n)%nat; [|discriminate].
  intros H. assert (v = unpack_items n data) by congruence. subst v.
  apply length_unpack_items.
Qed.

Lemma dict_set_dim (word_vectors : store) (k : pystr) (v : list float) :
  store_dim word_vectors -> length v = VECTOR_DIM ->
  store_dim (dict_set word_vectors k v).
Proof.
  unfold store_dim. intros Hd Hv.
  induction Hd as [|[k' v'] d Hk Hd IH]; cbn [dict_set].
  - repeat constructor. exact Hv.
  - destruct (str_eqb k' k); constructor; auto.
Qed.

Lemma load_words_dim (n : nat) :
  forall (acc : store) (f f' : rfile) (word_vectors : store),
    store_dim acc ->
    load_words n acc f = (Ok word_vectors, f') ->
    store_dim word_vectors.
Proof.
  induction n as [|n IH]; intros acc f f' wv Hd H.
  - cbn [load_words] in H. unfold ret in H.
    assert (acc = wv) by congruence. now subst.
  - cbn [load_words] in H. unfold bind, lift in H.
    destruct (read 2 f) as [[lb|] f1]; [|discriminate].
    destruct (unpack_H lb) as [wl|]; [|discriminate].
    destruct (read (Z.to_nat wl) f1) as [[wb|] f2]; [|discriminate].
    destruct (decode_utf8 wb) as [w|]; [|discriminate].
    destruct (read (VECTOR_DIM * 4) f2) as [[vb|] f3]; [|discriminate].
    destruct (unpack_floats VECTOR_DIM vb) as [v|] eqn:Ev; [|discriminate].
    apply (IH _ _ _ _ (dict_set_dim _ w _ Hd (unpack_floats_dim _ _ _ Ev)) H).
Qed.

Lemma load_glove_binary_dim (f f' : rfile) (word_vectors : store) :
  load_glove_binary f = (Ok word_vectors, f') -> store_dim word_vectors.
Proof.
  unfold load_glove_binary, bind, lift. intros H.
  destruct (read 4 f) as [[hb|] f1]; [|discriminate].
  destruct (unpack_I hb) as [n|]; [|discriminate].
  apply (load_words_dim _ [] _ _ _ (Forall_nil _) H).
Qed.

Lemma example_loaded_eq :
  load_glove_binary (open_rb example_glove_bin)
  = (Ok example_loaded, example_eof).
Proof.
  vm_compute. reflexivity.
Qed.

(** ** The embedding of a record (claims C1, C6 and C10) *)

(** C1.  For a store loaded from a [glove.bin] and a record, the token
    stream is made of the tokens of [command], then of [description], then
    of each keyword in list order; the tokens that are keys of the store are
    kept and give the sequence [vectors]; [compute_embedding] returns a
    vector of 100 components, the all-zero vector when [vectors] is empty
    and otherwise, at every index [i] below 100, the sum of the components
    [i] of [vectors] in token order divided by their number. *)
Theorem compute_embedding_mean
        (glove_bin : list byte) (f : rfile) (word_vectors : store)
        (cmd : command_record) :
  load_glove_binary (open_rb glove_bin) = (Ok word_vectors, f) ->
  let vectors := matched_vectors word_vectors (token_stream cmd) in
  exists embedding : list float,
    compute_embedding cmd word_vectors = Ok embedding
    /\ length embedding = 100%nat
    /\ (vectors = [] -> embedding = repeat zero 100)
    /\ (vectors <> [] ->
        forall i : nat, (i < 100)%nat ->
          nth i embedding zero = mean_component vectors i).
Proof.
  intros Hload vectors.
  exact (compute_embedding_spec cmd word_vectors
           (load_glove_binary_dim _ _ _ Hload)).
Qed.

Lemma compute_embedding_mean_witness :
  exists embedding : list float,
    compute_embedding example_command example_loaded = Ok embedding
    /\ length embedding = 100%nat
    /\ forall i : nat, (i < 100)%nat ->
         nth i embedding zero
         = mean_component
             (matched_vectors example_loaded (token_stream example_command)) i.
Proof.
  destruct (compute_embedding_mean example_glove_bin example_eof
              example_loaded example_command example_loaded_eq)
    as (embedding & E & L & _ & H).
  exists embedding. split; [exact E|]. split; [exact L|].
  apply H. vm_compute. discriminate.
Defined.

(** C6.  The embedding is a function of the three fields that are read and
    of the mapping that the store holds: records that agree on [command],
    [description] and [keywords], with stores that map every word alike,
    give the same result, component for component. *)
Theorem compute_embedding_deterministic
        (cmd1 cmd2 : command_record) (word_vectors1 word_vectors2 : store) :
  command cmd1 = command cmd2 ->
  description cmd1 = description cmd2 ->
  keywords cmd1 = keywords cmd2 ->
  (forall word, dict_get word_vectors1 word = dict_get word_vectors2 word) ->
  compute_embedding cmd1 word_vectors1 = compute_embedding cmd2 word_vectors2.
Proof.
  intros Hc Hd Hk Hget. unfold compute_embedding.
  assert (Ht : all_tokens_of cmd1 = all_tokens_of cmd2).
  { unfold all_tokens_of, texts_of. now rewrite Hc, Hd, Hk. }
  rewrite Ht.
  assert (Hv : forall tokens acc,
             fold_left (fun acc token =>
                          match dict_get word_vectors1 token with
                          | Some v => acc ++ [v]
                          | None => acc
                          end) tokens acc
             = fold_left (fun acc token =>
                            match dict_get word_vectors2 token with
                            | Some v => acc ++ [v]
                            | None => acc
                            end) tokens acc).
  { induction tokens as [|t tokens IH]; intros acc; cbn [fold_left];
      [reflexivity|]. now rewrite Hget, IH. }
  now rewrite Hv.
Qed.

Lemma example_stores_agree (word : pystr) :
  dict_get example_store word = dict_get example_store_swapped word.
Proof.
  unfold example_store, example_store_swapped. cbn [dict_get].
  destruct (str_eqb (str "git") word) eqn:E1;
    destruct (str_eqb (str "log") word) eqn:E2; try reflexivity.
  apply str_eqb_eq in E1, E2. rewrite <- E1 in E2. discriminate.
Qed.

Lemma compute_embedding_deterministic_witness :
  compute_embedding example_command example_store
  = compute_embedding example_command_tagged example_store_swapped.
Proof.
  apply (compute_embedding_deterministic
           example_command example_command_tagged
           example_store example_store_swapped).
  - reflexivity.
  - reflexivity.
  - reflexivity.
  - exact example_stores_agree.
Defined.

(** C10.  On a store of dimension 100 [compute_embedding] returns, for every
    record, a vector of 100 components; the tokens it collects are those of
    the three fields in order, where a field that is absent or empty has no
    tokens. *)
Theorem compute_embedding_total (cmd : command_record) (word_vectors : store) :
  store_dim word_vectors ->
  (exists embedding : list float,
      compute_embedding cmd word_vectors = Ok embedding
      /\ length embedding = 100%nat)
  /\ all_tokens_of cmd
     = field_tokens (command cmd) ++ field_tokens (description cmd)
       ++ keyword_tokens (keywords cmd)
  /\ field_tokens None = [] /\ field_tokens (Some []) = []
  /\ keyword_tokens None = [] /\ keyword_tokens (Some []) = [].
Proof.
  intros Hd. split.
  - destruct (compute_embedding_spec cmd word_vectors Hd) as (e & E & L & _).
    exists e. split; assumption.
  - split; [apply all_tokens_stream|]. repeat split; reflexivity.
Qed.

Lemma compute_embedding_total_witness :
  (exists embedding : list float,
      compute_embedding example_command_bare example_store = Ok embedding
      /\ length embedding = 100%nat)
  /\ all_tokens_of example_command_bare
     = field_tokens (command example_command_bare)
       ++ field_tokens (description example_command_bare)
       ++ keyword_tokens (keywords example_command_bare)
  /\ field_tokens None = [] /\ field_tokens (Some []) = []
  /\ keyword_tokens None = [] /\ keyword_tokens (Some []) = [].
Proof.
  apply (compute_embedding_total example_command_bare example_store).
  unfold store_dim, example_store. repeat constructor.
Defined.

(** ** Words too long for the length field (claim C9) *)

Lemma write_words_frame (items : list (pystr * list float)) :
  forall out1 out2 : wfile,
    write_words items (out1 ++ out2)
    = (fst (write_words items out2), out1 ++ snd (write_words items out2)).
Proof.
  induction items as [|[word vector] items IH]; intros out1 out2.
  - reflexivity.
  - cbn [write_words]. unfold bind, lift, write.
    destruct (encode_utf8 word) as [wb|]; [|reflexivity].
    destruct (pack_H (Z.of_nat (length wb))) as [lb|]; [|reflexivity].
    destruct (pack_floats VECTOR_DIM vector) as [vb|].
    + rewrite <- !app_assoc. apply IH.
    + cbn [fst snd]. now rewrite <- !app_assoc.
Qed.

Lemma write_words_app (pre rest : list (pystr * list float)) :
  forall out out' : wfile,
    write_words pre out = (Ok tt, out') ->
    write_words (pre ++ rest) out = write_words rest out'.
Proof.
  induction pre as [|[word vector] pre IH]; intros out out' H.
  - cbn in H. injection H as <-. reflexivity.
  - cbn [app write_words] in *. unfold bind, lift, write in *.
    destruct (encode_utf8 word) as [wb|]; [|discriminate].
    destruct (pack_H (Z.of_nat (length wb))) as [lb|]; [|discriminate].
    destruct (pack_floats VECTOR_DIM vector) as [vb|]; [|discriminate].
    now apply IH.
Qed.

Lemma write_words_long_word
      (items : list (pystr * list float)) (word : pystr)
      (vector : list float) (word_bytes : list byte) :
  In (word, vector) items ->
  encode_utf8 word = Ok word_bytes ->
  65535 < Z.of_nat (length word_bytes) ->
  forall out : wfile, exists e out', write_words items out = (Err e, out').
Proof.
  intros Hin Hw Hlen.
  induction items as [|[w v] items IH]; intros out; [contradiction|].
  cbn [write_words]. unfold bind, lift, write.
  destruct (encode_utf8 w) as [wb|] eqn:Ew; [|eauto].
  destruct (pack_H (Z.of_nat (length wb))) as [lb|] eqn:El; [|eauto].
  destruct (pack_floats VECTOR_DIM v) as [vb|]; [|eauto].
  destruct Hin as [Heq|Hin]; [|now apply IH].
  injection Heq as -> ->. rewrite Hw in Ew. injection Ew as <-.
  rewrite pack_H_too_long in El by exact Hlen. discriminate.
Qed.

(** C9.  A store that holds a word whose UTF-8 encoding has more than 65535
    bytes is not serialized: [save_binary_format] raises.  When the entries
    before that word can be stored, the exception is the one of the length
    field ('H' format requires 0 <= number <= 65535), and the file holds
    the header and the records of the entries before the word, with no
    byte of the record of the word itself. *)
Theorem save_binary_format_long_word
        (vectors : store) (word : pystr) (vector : list float)
        (word_bytes : list byte) :
  In (word, vector) vectors ->
  encode_utf8 word = Ok word_bytes ->
  65535 < Z.of_nat (length word_bytes) ->
  (exists e out, save_binary_format vectors [] = (Err e, out))
  /\ forall pre post,
      vectors = pre ++ (word, vector) :: post ->
      Forall storable pre ->
      Z.of_nat (length vectors) <= 4294967295 ->
      exists body,
        write_words pre [] = (Ok tt, body)
        /\ save_binary_format vectors []
           = (Err (StructError (FormatRequires "H"%char 65535)),
              le_bytes 4 (Z.of_nat (length vectors)) ++ body).
Proof.
  intros Hin Hw Hlen. split.
  - unfold save_binary_format, bind, lift, write.
    destruct (pack_I (Z.of_nat (length vectors))) as [hb|]; [|eauto].
    exact (write_words_long_word _ _ _ _ Hin Hw Hlen _).
  - intros pre post -> Hpre Hn.
    destruct (write_words_ok _ Hpre []) as [body Hb]. exists body.
    split; [exact Hb|].
    unfold save_binary_format, bind, lift, write.
    rewrite pack_I_ok by lia. cbn [app].
    rewrite <- (app_nil_r (le_bytes 4 _)) at 1.
    rewrite write_words_frame.
    rewrite (write_words_app _ _ _ _ Hb).
    cbn [write_words]. unfold bind, lift, write.
    rewrite Hw, pack_H_too_long by exact Hlen. reflexivity.
Qed.

Lemma utf8_encode_letters (n i : nat) :
  utf8_encode_from i (repeat 97 n) = inl (repeat x61 n).
Proof.
  revert i. induction n as [|n IH]; intros i; [reflexivity|].
  cbn [repeat utf8_encode_from]. rewrite IH. reflexivity.
Qed.

Lemma encode_long_word : encode_utf8 long_word = Ok long_word_bytes.
Proof.
  unfold encode_utf8, long_word, long_word_bytes.
  now rewrite utf8_encode_letters.
Qed.

Lemma length_long_word_bytes : 65535 < Z.of_nat (length long_word_bytes).
Proof.
  unfold long_word_bytes. rewrite repeat_length, Z2Nat.id; lia.
Qed.

Lemma save_binary_format_long_word_witness :
  (exists e out, save_binary_format store_with_long_word [] = (Err e, out))
  /\ exists body,
      write_words [(str "git", repeat (float_of_int 1) VECTOR_DIM)] []
      = (Ok tt, body)
      /\ save_binary_format store_with_long_word []
         = (Err (StructError (FormatRequires "H"%char 65535)),
            le_bytes 4 (Z.of_nat (length store_with_long_word)) ++ body).
Proof.
  destruct (save_binary_format_long_word
              store_with_long_word long_word (repeat zero VECTOR_DIM)
              long_word_bytes) as [H1 H2].
  - right. left. reflexivity.
  - exact encode_long_word.
  - exact length_long_word_bytes.
  - split; [exact H1|].
    apply (H2 [(str "git", repeat (float_of_int 1) VECTOR_DIM)] []).
    + reflexivity.
    + repeat constructor; try (cbn [fst snd]; vm_compute; reflexivity).
      cbn [fst snd]. eexists.
      split; [vm_compute; reflexivity | vm_compute; discriminate].
    + cbn [length store_with_long_word]. lia.
Defined.

(** ** Streams that cannot be read (claim C8) *)

Lemma decode_utf8_error (data : list byte) (e : exn) :
  decode_utf8 data = Err e -> exists start, e = UnicodeDecodeError data start.
Proof.
  unfold decode_utf8. destruct (utf8_decode_from 0 data) as [s|i];
    [discriminate|].
  intros H. exists i. congruence.
Qed.

Lemma load_words_cases (n : nat) :
  forall (acc : store) (data : list byte) (o : nat),
    let run := load_words n acc {| unread := data; offset := o |} in
    if complete_records n data then
      match first_bad_word n data with
      | Some word =>
          exists start f, run = (Err (UnicodeDecodeError word start), f)
      | None => exists s f, run = (Ok s, f)
      end
    else
      exists e f,
        run = (Err e, f) /\ (is_format_error e \/ is_encoding_error e).
Proof.
  induction n as [|n IH]; intros acc data o run; subst run.
  - cbn [complete_records first_bad_word load_words]. unfold ret. eauto.
  - cbn [complete_records first_bad_word load_words].
    unfold bind, lift, read, unpack_H. cbn [unread offset].
    rewrite length_firstn.
    destruct (Nat.leb_spec 2 (length data)) as [H2|H2].
    2:{ replace (Nat.min 2 (length data) =? 2)%nat with false
          by (symmetry; apply Nat.eqb_neq; lia).
        cbn [andb]. do 2 eexists. split; [reflexivity|].
        left. eexists. reflexivity. }
    replace (Nat.min 2 (length data) =? 2)%nat with true
      by (symmetry; apply Nat.eqb_eq; lia).
    cbn [andb]. set (wl := Z.to_nat (le_value (firstn 2 data))).
    destruct (decode_utf8 (firstn wl (skipn 2 data))) as [w|e] eqn:Ed.
    2:{ destruct (decode_utf8_error _ _ Ed) as [start ->].
        destruct ((2 + wl + 4 * VECTOR_DIM <=? length data)%nat
                  && complete_records n
                       (skipn (2 + wl + 4 * VECTOR_DIM) data)).
        - eauto.
        - do 2 eexists. split; [reflexivity|]. right.
          do 2 eexists. reflexivity. }
    unfold unpack_floats. rewrite length_firstn, !length_skipn.
    destruct (Nat.leb_spec (2 + wl + 4 * VECTOR_DIM) (length data)) as [H4|H4].
    2:{ replace (Nat.min (VECTOR_DIM * 4) (length data - 2 - wl)
                 =? 4 * VECTOR_DIM)%nat with false
          by (symmetry; apply Nat.eqb_neq; unfold VECTOR_DIM in *; lia).
        cbn [andb]. do 2 eexists. split; [reflexivity|].
        left. eexists. reflexivity. }
    replace (Nat.min (VECTOR_DIM * 4) (length data - 2 - wl)
             =? 4 * VECTOR_DIM)%nat with true
      by (symmetry; apply Nat.eqb_eq; unfold VECTOR_DIM in *; lia).
    cbn [andb]. rewrite !skipn_skipn.
    replace (VECTOR_DIM * 4 + (wl + 2))%nat with (2 + wl + 4 * VECTOR_DIM)%nat
      by lia.
    apply IH.
Qed.

(** C8, as the code has it.  A stream that is truncated (in the header, in a
    record, or with a length field that tells more bytes than remain) is
    never read as a store: [load_glove_binary] raises the format error of
    [struct.unpack] or, when the bytes read for a word are no valid UTF-8,
    [UnicodeDecodeError].  On a complete stream it raises
    [UnicodeDecodeError] for the first word that is no valid UTF-8 and
    returns a store when there is none.  The exceptions carry a buffer size,
    or the bytes of the word and an index within them, and no offset in the
    stream. *)
Theorem load_glove_binary_failures (data : list byte) :
  let run := load_glove_binary (open_rb data) in
  let n := Z.to_nat (le_value (firstn 4 data)) in
  (complete_stream data = false ->
   exists e f, run = (Err e, f) /\ (is_format_error e \/ is_encoding_error e))
  /\ (complete_stream data = true ->
      forall word, first_bad_word n (skipn 4 data) = Some word ->
        exists start f, run = (Err (UnicodeDecodeError word start), f))
  /\ (complete_stream data = true ->
      first_bad_word n (skipn 4 data) = None ->
      exists s f, run = (Ok s, f)).
Proof.
  intros run n. subst run.
  unfold complete_stream, load_glove_binary, open_rb, bind, lift, read,
    unpack_I.
  cbn [unread offset]. rewrite length_firstn.
  destruct (Nat.leb_spec 4 (length data)) as [H4|H4].
  2:{ replace (Nat.min 4 (length data) =? 4)%nat with false
        by (symmetry; apply Nat.eqb_neq; lia).
      cbn [andb]. repeat split; try discriminate.
      intros _. do 2 eexists. split; [reflexivity|]. left. eexists.
      reflexivity. }
  replace (Nat.min 4 (length data) =? 4)%nat with true
    by (symmetry; apply Nat.eqb_eq; lia).
  cbn [andb]. fold n.
  pose proof (load_words_cases n [] (skipn 4 data)
                (0 + Nat.min 4 (length data))) as C.
  cbv zeta in C.
  destruct (complete_records n (skipn 4 data)).
  - repeat split; try discriminate.
    + intros _ word Hw. rewrite Hw in C. exact C.
    + intros _ Hw. rewrite Hw in C. exact C.
  - repeat split; try discriminate. intros _. exact C.
Qed.

(** C8 fails as stated.  The first two streams are truncated at the offsets
    4 and 407 and raise the same exception, so that no offset can be read
    from the exception; and the third stream, whose length field tells more
    bytes than remain, raises an encoding error, not a format error. *)
Lemma load_error_without_offset :
  complete_stream stream_header_only = false
  /\ complete_stream stream_one_of_two = false
  /\ complete_stream stream_short_word = false
  /\ load_glove_binary (open_rb stream_header_only)
     = (Err (StructError (UnpackRequires 2)), {| unread := []; offset := 4 |})
  /\ load_glove_binary (open_rb stream_one_of_two)
     = (Err (StructError (UnpackRequires 2)), {| unread := []; offset := 407 |})
  /\ load_glove_binary (open_rb stream_short_word)
     = (Err (UnicodeDecodeError [xc3] 0), {| unread := []; offset := 7 |})
  /\ ~ (exists offset_of : exn -> nat,
           forall data e f,
             load_glove_binary (open_rb data) = (Err e, f) ->
             offset_of e = offset f).
Proof.
  assert (Ha : load_glove_binary (open_rb stream_header_only)
               = (Err (StructError (UnpackRequires 2)),
                  {| unread := []; offset := 4 |}))
    by (vm_compute; reflexivity).
  assert (Hb : load_glove_binary (open_rb stream_one_of_two)
               = (Err (StructError (UnpackRequires 2)),
                  {| unread := []; offset := 407 |}))
    by (vm_compute; reflexivity).
  split; [vm_compute; reflexivity|].
  split; [vm_compute; reflexivity|].
  split; [vm_compute; reflexivity|].
  split; [exact Ha|]. split; [exact Hb|].
  split; [vm_compute; reflexivity|].
  intros [offset_of H].
  pose proof (H _ _ _ Ha) as E1. pose proof (H _ _ _ Hb) as E2.
  cbn [offset] in E1, E2. rewrite E1 in E2. discriminate.
Qed.

(** ** The reducer (claims C3 and C4) *)

Section ReducerProperties.

Variable py_float : pystr -> option float.

Lemma load_lines_first (lines : list pystr) :
  forall (i top_k : Z) (vectors : store),
    Forall (never_raises py_float) (firstn (Z.to_nat (top_k - i)) lines) ->
    load_lines py_float i lines top_k vectors
    = Ok (fold_left set_entry
                    (accepted_entries py_float
                       (firstn (Z.to_nat (top_k - i)) lines))
                    vectors).
Proof.
  induction lines as [|line rest IH]; intros i top_k vectors Hok.
  - rewrite firstn_nil. reflexivity.
  - cbn [load_lines]. destruct (Z.leb_spec top_k i) as [Hk|Hk].
    + replace (Z.to_nat (top_k - i)) with 0%nat by lia. reflexivity.
    + replace (Z.to_nat (top_k - i)) with (S (Z.to_nat (top_k - (i + 1))))
        in * by lia.
      cbn [firstn] in *. apply Forall_cons_iff in Hok as [Hline Hrest].
      cbn [accepted_entries flat_map].
      fold (accepted_entries py_float (firstn (Z.to_nat (top_k - (i + 1))) rest)).
      unfold never_raises, outcome_of in Hline. unfold outcome_of.
      destruct (split (strip line)) as [|word values].
      { exfalso. exact (Hline _ eq_refl). }
      destruct (floats_of py_float values) as [vector|e].
      2:{ exfalso. exact (Hline _ eq_refl). }
      cbn [rbind].
      destruct (length vector =? VECTOR_DIM)%nat; cbn [negb app fold_left];
        now rewrite IH.
Qed.

End ReducerProperties.

Lemma accepted_entries_valid (py_float : pystr -> option float)
      (lines : list pystr) :
  Forall (valid_line py_float) lines ->
  length (accepted_entries py_float lines) = length lines.
Proof.
  induction 1 as [|line lines (w & v & E) _ IH]; [reflexivity|].
  cbn [accepted_entries flat_map]. rewrite E. cbn [app length].
  f_equal. exact IH.
Qed.

(** C3, as the code has it.  [load_glove_vectors] reads at most the first
    [top_k] lines of the corpus, whether they are valid or not.  When none
    of these lines raises, the store holds the valid lines among them, in
    source order, a later line of a word overwriting an earlier one; when
    they are all valid, with words that differ, the store holds exactly
    these lines in source order, as many entries as lines were read. *)
Theorem load_glove_vectors_first_lines
        (py_float : pystr -> option float) (lines : list pystr) (top_k : Z) :
  let head := firstn (Z.to_nat top_k) lines in
  Forall (never_raises py_float) head ->
  load_glove_vectors py_float lines top_k
  = Ok (fold_left set_entry (accepted_entries py_float head) [])
  /\ (Forall (valid_line py_float) head ->
      NoDup (keys (accepted_entries py_float head)) ->
      load_glove_vectors py_float lines top_k
      = Ok (accepted_entries py_float head)
      /\ length (accepted_entries py_float head)
         = Nat.min (Z.to_nat top_k) (length lines)).
Proof.
  intros head Hok.
  assert (E : load_glove_vectors py_float lines top_k
              = Ok (fold_left set_entry (accepted_entries py_float head) [])).
  { unfold load_glove_vectors, head.
    rewrite (load_lines_first py_float lines 0 top_k []);
      rewrite Z.sub_0_r; [reflexivity|exact Hok]. }
  split; [exact E|]. intros Hvalid Hnd. split.
  - rewrite E. f_equal. now apply (fold_set_entry_fresh _ []).
  - rewrite (accepted_entries_valid _ _ Hvalid). apply length_firstn.
Qed.

Lemma load_glove_vectors_first_lines_witness :
  let head := firstn (Z.to_nat 2) corpus_three in
  load_glove_vectors float_of_literal corpus_three 2
  = Ok (accepted_entries float_of_literal head)
  /\ length (accepted_entries float_of_literal head) = 2%nat.
Proof.
  destruct (load_glove_vectors_first_lines float_of_literal corpus_three 2)
    as [_ H].
  - repeat constructor; intros e; vm_compute; discriminate.
  - apply H.
    + repeat constructor; do 2 eexists; vm_compute; reflexivity.
    + vm_compute. repeat constructor; cbn; intuition discriminate.
Defined.

(** C3 fails as stated.  With the cap 1, on a corpus whose first line has
    one component and whose second line is valid, the claim describes the
    store of the second line; the line that is skipped has used up the cap,
    and the store is empty. *)
Lemma cap_counts_skipped_lines :
  accepted_entries float_of_literal corpus_short_first
  = [(str "the", repeat zero VECTOR_DIM)]
  /\ store_of_first_valid float_of_literal 1 corpus_short_first
     = [(str "the", repeat zero VECTOR_DIM)]
  /\ load_glove_vectors float_of_literal corpus_short_first 1 = Ok []
  /\ load_glove_vectors float_of_literal corpus_short_first 1
     <> Ok (store_of_first_valid float_of_literal 1 corpus_short_first).
Proof.
  split; [vm_compute; reflexivity|].
  split; [vm_compute; reflexivity|].
  split; [vm_compute; reflexivity|].
  vm_compute. discriminate.
Qed.

(** C4 fails on the code.  A line with a token that is no number makes
    [float] raise [ValueError], and a blank line makes [parts[0]] raise
    [IndexError]; nothing catches them, so the run ends there, whatever the
    lines that follow: only a line with a wrong number of components is
    skipped. *)
Theorem malformed_line_aborts :
  load_glove_vectors float_of_literal corpus_bad_token TOP_K_WORDS
  = Err (ValueError (str "abc"))
  /\ load_glove_vectors float_of_literal corpus_blank_line TOP_K_WORDS
     = Err IndexError
  /\ (forall (py_float : pystr -> option float) (line : pystr)
             (rest : list pystr) (top_k : Z) (e : exn),
         0 < top_k ->
         outcome_of py_float line = Raises e ->
         load_glove_vectors py_float (line :: rest) top_k = Err e).
Proof.
  split; [vm_compute; reflexivity|].
  split; [vm_compute; reflexivity|].
  intros py_float line rest top_k e Hk H.
  unfold load_glove_vectors. cbn [load_lines].
  destruct (Z.leb_spec top_k 0); [lia|].
  unfold outcome_of in H.
  destruct (split (strip line)) as [|word values]; [congruence|].
  destruct (floats_of py_float values) as [vector|e']; cbn [rbind].
  - destruct (length vector =? VECTOR_DIM)%nat; discriminate.
  - congruence.
Qed.

(** ** The embedding table (claim C5) *)

Lemma embed_loop_ok (word_vectors : store) :
  store_dim word_vectors ->
  forall (commands : list command_record) (acc : list (list float))
         (zero_count : nat),
    exists zero_count',
      embed_loop commands word_vectors acc zero_count
      = Ok (acc ++ map (embedding_of word_vectors) commands, zero_count').
Proof.
  intros Hd. induction commands as [|cmd commands IH]; intros acc zc.
  - exists zc. cbn. now rewrite app_nil_r.
  - cbn [embed_loop map]. unfold embedding_of at 1.
    destruct (compute_embedding_spec cmd word_vectors Hd) as (e & E & _).
    rewrite E. cbn [rbind].
    destruct (IH (acc ++ [e])
                 (if forallb float_is_zero e then S zc else zc)) as [zc' ->].
    exists zc'. now rewrite <- app_assoc.
Qed.

Lemma skipn_past (A : Type) (a b : list A) (n m : nat) :
  length a = n -> skipn (n + m) (a ++ b) = skipn m b.
Proof.
  intros <-. rewrite Nat.add_comm, <- skipn_skipn.
  f_equal. now apply skipn_exact.
Qed.

Lemma write_embeddings_ok (embeddings : list (list float)) :
  Forall (fun e => length e = VECTOR_DIM /\ forallb fits_single e = true)
         embeddings ->
  forall out : wfile,
    exists body,
      write_embeddings embeddings out = (Ok tt, out ++ body)
      /\ length body = (4 * VECTOR_DIM * length embeddings)%nat
      /\ forall i e, nth_error embeddings i = Some e ->
           pack_floats VECTOR_DIM e
           = Ok (firstn (4 * VECTOR_DIM) (skipn (4 * VECTOR_DIM * i) body)).
Proof.
  induction 1 as [|e embeddings [Le Fe] _ IH]; intros out.
  - exists []. cbn [write_embeddings]. unfold ret. rewrite app_nil_r.
    split; [reflexivity|]. split; [cbn [length]; lia|].
    intros [|i] e H; discriminate.
  - cbn [write_embeddings]. unfold bind, lift, write.
    destruct (pack_floats_ok _ _ Le Fe) as [vb Ev]. rewrite Ev.
    destruct (unpack_pack_floats _ _ _ Ev) as (_ & Lb & _).
    destruct (IH (out ++ vb)) as (body & Eb & Lbody & Hi).
    exists (vb ++ body). rewrite app_assoc. split; [exact Eb|]. split.
    + rewrite length_app, Lb, Lbody. cbn [length]. lia.
    + intros [|i] e' He'.
      * cbn [nth_error] in He'. injection He' as <-.
        rewrite Nat.mul_0_r, skipn_O, Ev. f_equal. symmetry.
        now apply firstn_exact.
      * cbn [nth_error] in He'. rewrite (Hi _ _ He'). do 2 f_equal.
        replace (4 * VECTOR_DIM * S i)%nat
          with (4 * VECTOR_DIM + 4 * VECTOR_DIM * i)%nat by lia.
        symmetry. now apply skipn_past.
Qed.

Lemma embedding_of_ok (word_vectors : store) (cmd : command_record) :
  store_dim word_vectors ->
  compute_embedding cmd word_vectors = Ok (embedding_of word_vectors cmd)
  /\ length (embedding_of word_vectors cmd) = VECTOR_DIM.
Proof.
  intros Hd. unfold embedding_of.
  destruct (compute_embedding_spec cmd word_vectors Hd) as (e & -> & L & _).
  auto.
Qed.

(** C5, as the code has it.  For a list of at most 4294967295 records whose
    embeddings have their components in the single-precision range, the
    run writes a table whose count field is the number of records and whose
    dimension field is 100, followed by one entry of 400 bytes per record:
    entry [i] is the embedding computed from record [i], packed, and it
    unpacks to that embedding converted to single precision. *)
Theorem main_positional
        (glove_bin : list byte) (f : rfile) (word_vectors : store)
        (commands : list command_record) :
  load_glove_binary (open_rb glove_bin) = (Ok word_vectors, f) ->
  Z.of_nat (length commands) <= 4294967295 ->
  (forall cmd, In cmd commands ->
               forallb fits_single (embedding_of word_vectors cmd) = true) ->
  exists (zero_count : nat) (out : list byte),
    main glove_bin commands = (Ok zero_count, out)
    /\ length out = (8 + 4 * VECTOR_DIM * length commands)%nat
    /\ unpack_I (firstn 4 out) = Ok (Z.of_nat (length commands))
    /\ unpack_I (firstn 4 (skipn 4 out)) = Ok 100
    /\ forall i cmd, nth_error commands i = Some cmd ->
         exists embedding,
           compute_embedding cmd word_vectors = Ok embedding
           /\ pack_floats VECTOR_DIM embedding = Ok (table_entry out i)
           /\ unpack_floats VECTOR_DIM (table_entry out i)
              = Ok (map single_roundtrip embedding).
Proof.
  intros Hload Hn Hfit.
  pose proof (load_glove_binary_dim _ _ _ Hload) as Hd.
  unfold main. rewrite Hload.
  destruct (embed_loop_ok word_vectors Hd commands [] 0%nat) as [zc ->].
  cbn [app].
  assert (Hall : Forall (fun e => length e = VECTOR_DIM
                                  /\ forallb fits_single e = true)
                        (map (embedding_of word_vectors) commands)).
  { apply Forall_forall. intros e He.
    apply in_map_iff in He as (cmd & <- & Hin). split.
    - apply embedding_of_ok, Hd.
    - now apply Hfit. }
  unfold save_embeddings, bind, lift, write.
  rewrite length_map, pack_I_ok by lia.
  rewrite pack_I_ok by (unfold VECTOR_DIM; lia). cbn [app].
  set (h1 := le_bytes 4 (Z.of_nat (length commands))).
  set (h2 := le_bytes 4 (Z.of_nat VECTOR_DIM)).
  destruct (write_embeddings_ok _ Hall (h1 ++ h2)) as (body & -> & Lb & Hi).
  rewrite length_map in Lb.
  exists zc, ((h1 ++ h2) ++ body). split; [reflexivity|].
  assert (L1 : length h1 = 4%nat) by apply length_le_bytes.
  assert (L2 : length h2 = 4%nat) by apply length_le_bytes.
  split; [rewrite !length_app, L1, L2, Lb; lia|].
  split.
  { rewrite <- app_assoc, firstn_exact by exact L1.
    apply unpack_I_pack. lia. }
  split.
  { rewrite <- app_assoc, skipn_exact by exact L1.
    rewrite firstn_exact by exact L2. apply unpack_I_pack.
    unfold VECTOR_DIM. lia. }
  intros i cmd Hcmd.
  exists (embedding_of word_vectors cmd).
  destruct (embedding_of_ok word_vectors cmd Hd) as [Ec _].
  assert (Hp : pack_floats VECTOR_DIM (embedding_of word_vectors cmd)
               = Ok (table_entry ((h1 ++ h2) ++ body) i)).
  { unfold table_entry.
    rewrite (skipn_past _ (h1 ++ h2) body 8)
      by (rewrite length_app, L1, L2; reflexivity).
    apply Hi. now apply map_nth_error. }
  split; [exact Ec|]. split; [exact Hp|].
  now destruct (unpack_pack_floats _ _ _ Hp) as (_ & _ & U & _).
Qed.

Lemma main_positional_witness :
  let commands := [example_command; example_command_bare] in
  exists (zero_count : nat) (out : list byte),
    main example_glove_bin commands = (Ok zero_count, out)
    /\ length out = (8 + 4 * VECTOR_DIM * length commands)%nat
    /\ unpack_I (firstn 4 out) = Ok (Z.of_nat (length commands))
    /\ unpack_I (firstn 4 (skipn 4 out)) = Ok 100
    /\ forall i cmd, nth_error commands i = Some cmd ->
         exists embedding,
           compute_embedding cmd example_loaded = Ok embedding
           /\ pack_floats VECTOR_DIM embedding = Ok (table_entry out i)
           /\ unpack_floats VECTOR_DIM (table_entry out i)
              = Ok (map single_roundtrip embedding).
Proof.
  apply (main_positional example_glove_bin example_eof example_loaded).
  - exact example_loaded_eq.
  - cbn [length]. lia.
  - intros cmd [<-|[<-|[]]]; vm_compute; reflexivity.
Defined.

(** C5 fails as stated: the count field has 32 bits.  On a list of
    4294967296 records the embeddings are computed, [save_embeddings] raises
    when it packs the count, and the file is left empty. *)
Lemma count_field_overflow :
  Z.of_nat (length too_many_commands) = 4294967296
  /\ main example_glove_bin too_many_commands
     = (Err (StructError (FormatRequires "I"%char 4294967295)), []).
Proof.
  assert (L : Z.of_nat (length too_many_commands) = 4294967296).
  { unfold too_many_commands. rewrite repeat_length, Z2Nat.id; lia. }
  split; [exact L|].
  unfold main. rewrite example_loaded_eq.
  pose proof (load_glove_binary_dim _ _ _ example_loaded_eq) as Hd.
  destruct (embed_loop_ok example_loaded Hd too_many_commands [] 0%nat)
    as [zc ->].
  cbn [app]. unfold save_embeddings, bind, lift.
  rewrite length_map, L. reflexivity.
Qed.

(** * Further properties *)

(** ** dict *)

Lemma dict_get_set_same (V : Type) (d : dict V) (k : pystr) (v : V) :
  dict_get (dict_set d k v) k = Some v.
Proof.
  induction d as [|[k' v'] d IH]; cbn [dict_set dict_get].
  - now rewrite str_eqb_refl.
  - destruct (str_eqb k' k) eqn:E; cbn [dict_get]; rewrite E; auto.
Qed.

Lemma dict_get_set_other (V : Type) (d : dict V) (k k' : pystr) (v : V) :
  k <> k' -> dict_get (dict_set d k v) k' = dict_get d k'.
Proof.
  intros Hne. induction d as [|[k0 v0] d IH]; cbn [dict_set dict_get].
  - now rewrite (proj2 (str_eqb_neq k k') Hne).
  - destruct (str_eqb k0 k) eqn:E; cbn [dict_get].
    + apply str_eqb_eq in E. subst k0.
      now rewrite (proj2 (str_eqb_neq k k') Hne).
    + now rewrite IH.
Qed.

Lemma keys_dict_set_old (V : Type) (d : dict V) (k : pystr) (v : V) :
  In k (keys d) -> keys (dict_set d k v) = keys d.
Proof.
  induction d as [|[k' v'] d IH]; cbn [dict_set keys map fst In];
    [contradiction|].
  intros H. destruct (str_eqb k' k) eqn:E; [reflexivity|].
  apply str_eqb_neq in E. cbn [map fst]. f_equal. apply IH. tauto.
Qed.

Lemma keys_dict_set_new (V : Type) (d : dict V) (k : pystr) (v : V) :
  ~ In k (keys d) -> keys (dict_set d k v) = keys d ++ [k].
Proof.
  intros H. rewrite dict_set_fresh by exact H.
  unfold keys. now rewrite map_app.
Qed.

Lemma dict_set_NoDup (V : Type) (d : dict V) (k : pystr) (v : V) :
  NoDup (keys d) -> NoDup (keys (dict_set d k v)).
Proof.
  intros H. destruct (in_dec (list_eq_dec Z.eq_dec) k (keys d)) as [Hin|Hin].
  - now rewrite keys_dict_set_old.
  - rewrite keys_dict_set_new by exact Hin.
    apply NoDup_app; [exact H | repeat constructor; intros [] | ].
    intros x Hx [<-|[]]. contradiction.
Qed.

Lemma length_dict_set (V : Type) (d : dict V) (k : pystr) (v : V) :
  (length d <= length (dict_set d k v) <= S (length d))%nat.
Proof.
  induction d as [|[k' v'] d IH]; cbn [dict_set length]; [lia|].
  destruct (str_eqb k' k); cbn [length]; lia.
Qed.

Lemma keys_dict_set_In (V : Type) (d : dict V) (k k' : pystr) (v : V) :
  In k' (keys (dict_set d k v)) -> k' = k \/ In k' (keys d).
Proof.
  destruct (in_dec (list_eq_dec Z.eq_dec) k (keys d)) as [Hin|Hin].
  - rewrite keys_dict_set_old by exact Hin. auto.
  - rewrite keys_dict_set_new by exact Hin. intros H.
    apply in_app_or in H as [H|[<-|[]]]; auto.
Qed.

(** ** The reducer *)

Section ReducerMore.

Variable py_float : pystr -> option float.

Lemma load_lines_invariants (lines : list pystr) :
  forall (i top_k : Z) (acc s : store),
    load_lines py_float i lines top_k acc = Ok s ->
    NoDup (keys acc) -> store_dim acc ->
    NoDup (keys s) /\ store_dim s
    /\ (length s <= length acc + Z.to_nat (top_k - i))%nat
    /\ (length s <= length acc + length lines)%nat
    /\ forall w, In w (keys s) ->
         In w (keys acc)
         \/ exists line values,
             In line (firstn (Z.to_nat (top_k - i)) lines)
             /\ split (strip line) = w :: values.
Proof.
  induction lines as [|line rest IH]; intros i top_k acc s H Hnd Hd.
  - cbn in H. assert (acc = s) by congruence. subst s.
    repeat split; auto; lia.
  - cbn [load_lines] in H. destruct (Z.leb_spec top_k i) as [Hk|Hk].
    + assert (acc = s) by congruence. subst s. repeat split; auto; lia.
    + replace (Z.to_nat (top_k - i)) with (S (Z.to_nat (top_k - (i + 1))))
        by lia.
      destruct (split (strip line)) as [|word values] eqn:Es; [discriminate|].
      destruct (floats_of py_float values) as [vector|e]; [|discriminate].
      cbn [rbind] in H.
      destruct (Nat.eqb_spec (length vector) VECTOR_DIM) as [Hv|Hv];
        cbn [negb] in H.
      * destruct (IH _ _ _ _ H (dict_set_NoDup _ _ word vector Hnd)
                     (dict_set_dim _ word _ Hd Hv))
          as (N & D & L1 & L2 & W).
        pose proof (length_dict_set _ acc word vector) as Ls.
        repeat split; auto; cbn [length]; try lia.
        intros w Hw. destruct (W w Hw) as [Hin|(l & vs & Hl & El)].
        -- apply keys_dict_set_In in Hin as [->|Hin]; [|now left].
           right. exists line, values. split; [now left|exact Es].
        -- right. exists l, vs. split; [now right|exact El].
      * destruct (IH _ _ _ _ H Hnd Hd) as (N & D & L1 & L2 & W).
        repeat split; auto; cbn [length]; try lia.
        intros w Hw. destruct (W w Hw) as [Hin|(l & vs & Hl & El)];
          [now left|].
        right. exists l, vs. split; [now right|exact El].
Qed.

Lemma load_lines_head (lines : list pystr) :
  forall (i top_k : Z) (acc : store),
    load_lines py_float i lines top_k acc
    = load_lines py_float i (firstn (Z.to_nat (top_k - i)) lines) top_k acc.
Proof.
  induction lines as [|line rest IH]; intros i top_k acc.
  - now rewrite firstn_nil.
  - cbn [load_lines]. destruct (Z.leb_spec top_k i) as [Hk|Hk].
    + replace (Z.to_nat (top_k - i)) with 0%nat by lia. reflexivity.
    + replace (Z.to_nat (top_k - i)) with (S (Z.to_nat (top_k - (i + 1))))
        by lia.
      cbn [firstn load_lines]. destruct (Z.leb_spec top_k i); [lia|].
      destruct (split (strip line)) as [|word values]; [reflexivity|].
      destruct (floats_of py_float values) as [vector|e]; [|reflexivity].
      cbn [rbind]. destruct (negb (length vector =? VECTOR_DIM)%nat);
        apply IH.
Qed.

(** X1.  A store that [load_glove_vectors] returns lists every word once,
    has only vectors of exactly 100 components, has at most [top_k] entries
    (none when [top_k] is negative) and at most one per line, and every one
    of its words is the first token of one of the first [top_k] lines. *)
Theorem load_glove_vectors_invariants
        (lines : list pystr) (top_k : Z) (s : store) :
  load_glove_vectors py_float lines top_k = Ok s ->
  NoDup (keys s)
  /\ store_dim s
  /\ Z.of_nat (length s) <= Z.max 0 top_k
  /\ (length s <= length lines)%nat
  /\ forall w, In w (keys s) ->
       exists line values,
         In line (firstn (Z.to_nat top_k) lines)
         /\ split (strip line) = w :: values.
Proof.
  intros H. unfold load_glove_vectors in H.
  destruct (load_lines_invariants _ _ _ _ _ H (NoDup_nil _) (Forall_nil _))
    as (N & D & L1 & L2 & W).
  rewrite Z.sub_0_r in *. cbn [length] in *.
  repeat split; auto; try lia.
  intros w Hw. destruct (W w Hw) as [[]|Hex]. exact Hex.
Qed.

(** X2.  [load_glove_vectors] never parses a line after the first [top_k]
    lines: its result, a store or an exception, is the one it gives on
    these lines alone. *)
Theorem load_glove_vectors_ignores_tail (lines : list pystr) (top_k : Z) :
  load_glove_vectors py_float lines top_k
  = load_glove_vectors py_float (firstn (Z.to_nat top_k) lines) top_k.
Proof.
  unfold load_glove_vectors.
  rewrite (load_lines_head lines 0 top_k []). now rewrite Z.sub_0_r.
Qed.

End ReducerMore.

Lemma load_glove_vectors_invariants_witness :
  exists s,
    load_glove_vectors float_of_literal corpus_three 3 = Ok s
    /\ NoDup (keys s)
    /\ store_dim s
    /\ Z.of_nat (length s) <= Z.max 0 3
    /\ (length s <= length corpus_three)%nat
    /\ forall w, In w (keys s) ->
         exists line values,
           In line (firstn (Z.to_nat 3) corpus_three)
           /\ split (strip line) = w :: values.
Proof.
  eexists. split; [vm_compute; reflexivity|].
  apply (load_glove_vectors_invariants float_of_literal corpus_three 3).
  vm_compute. reflexivity.
Defined.

Lemma fold_set_entry_get (entries : list (pystr * list float)) :
  forall (acc : store) (w : pystr),
    dict_get (fold_left set_entry entries acc) w
    = match last_vector w entries with
      | Some v => Some v
      | None => dict_get acc w
      end.
Proof.
  unfold last_vector.
  induction entries as [|[k v] entries IH] using rev_ind; intros acc w.
  - reflexivity.
  - rewrite fold_left_app, rev_app_distr. cbn [fold_left rev app find fst].
    unfold set_entry at 1. cbn [fst snd].
    destruct (str_eqb k w) eqn:E.
    + apply str_eqb_eq in E. subst w. cbn [option_map snd].
      apply dict_get_set_same.
    + apply str_eqb_neq in E. rewrite dict_get_set_other by exact E.
      apply IH.
Qed.

Lemma existsb_str_eqb (k : pystr) (ks : list pystr) :
  existsb (str_eqb k) ks = true <-> In k ks.
Proof.
  rewrite existsb_exists. split.
  - intros (x & Hx & E). apply str_eqb_eq in E. now subst.
  - intros H. exists k. split; [exact H|apply str_eqb_refl].
Qed.

Lemma fold_set_entry_keys (entries : list (pystr * list float)) :
  forall acc : store,
    keys (fold_left set_entry entries acc)
    = keys acc ++ unseen (keys acc) (keys entries).
Proof.
  induction entries as [|[k v] entries IH]; intros acc.
  - cbn. now rewrite app_nil_r.
  - cbn [fold_left]. rewrite IH.
    change (keys ((k, v) :: entries)) with (k :: keys entries).
    cbn [unseen]. unfold set_entry. cbn [fst snd].
    destruct (existsb (str_eqb k) (keys acc)) eqn:E.
    + apply existsb_str_eqb in E. now rewrite keys_dict_set_old.
    + assert (Hn : ~ In k (keys acc)).
      { intros Hin. apply existsb_str_eqb in Hin. congruence. }
      rewrite keys_dict_set_new by exact Hn. now rewrite <- app_assoc.
Qed.

(** X3.  When none of the first [top_k] lines raises, the store that
    [load_glove_vectors] returns maps every word to the vector of the last
    valid line for that word among these lines, and lists the words in the
    order of their first valid line. *)
Theorem load_glove_vectors_last_wins
        (py_float : pystr -> option float) (lines : list pystr) (top_k : Z) :
  let entries :=
    accepted_entries py_float (firstn (Z.to_nat top_k) lines) in
  Forall (never_raises py_float) (firstn (Z.to_nat top_k) lines) ->
  exists s,
    load_glove_vectors py_float lines top_k = Ok s
    /\ (forall w, dict_get s w = last_vector w entries)
    /\ keys s = first_occurrences (keys entries).
Proof.
  intros entries Hok. eexists. split.
  - unfold load_glove_vectors.
    rewrite (load_lines_first py_float lines 0 top_k []);
      rewrite Z.sub_0_r; [reflexivity|exact Hok].
  - fold entries. split.
    + intros w. rewrite fold_set_entry_get.
      now destruct (last_vector w entries).
    + now rewrite fold_set_entry_keys.
Qed.

Lemma load_glove_vectors_last_wins_witness :
  let entries :=
    accepted_entries float_of_literal (firstn (Z.to_nat 3) corpus_three) in
  exists s,
    load_glove_vectors float_of_literal corpus_three 3 = Ok s
    /\ (forall w, dict_get s w = last_vector w entries)
    /\ keys s = first_occurrences (keys entries).
Proof.
  apply (load_glove_vectors_last_wins float_of_literal corpus_three 3).
  repeat constructor; intros e; vm_compute; discriminate.
Defined.

(** ** The vector store codec *)

Lemma load_words_add (a b : nat) :
  forall (acc : store) (f : rfile),
    load_words (a + b) acc f
    = match load_words a acc f with
      | (Ok s, f') => load_words b s f'
      | (Err e, f') => (Err e, f')
      end.
Proof.
  induction a as [|a IH]; intros acc f; [reflexivity|].
  cbn [Nat.add load_words]. unfold bind, lift.
  destruct (read 2 f) as [[lb|] f1]; [|reflexivity].
  destruct (unpack_H lb) as [wl|]; [|reflexivity].
  destruct (read (Z.to_nat wl) f1) as [[wb|] f2]; [|reflexivity].
  destruct (decode_utf8 wb) as [w|]; [|reflexivity].
  destruct (read (VECTOR_DIM * 4) f2) as [[vb|] f3]; [|reflexivity].
  destruct (unpack_floats VECTOR_DIM vb) as [v|]; [|reflexivity].
  apply IH.
Qed.

(** Where [write_words] raises: after the complete records of the entries
    before the one that cannot be written, and either before anything of
    that entry or after its length field and its word. *)
Lemma write_words_error (items : list (pystr * list float)) :
  forall (out out' : wfile) (e : exn),
    write_words items out = (Err e, out') ->
    exists pre entry post body tail,
      items = pre ++ entry :: post
      /\ write_words pre out = (Ok tt, out ++ body)
      /\ out' = out ++ body ++ tail
      /\ (tail = []
          \/ exists wb,
              encode_utf8 (fst entry) = Ok wb
              /\ 0 <= Z.of_nat (length wb) <= 65535
              /\ tail = le_bytes 2 (Z.of_nat (length wb)) ++ wb).
Proof.
  induction items as [|[word vector] items IH]; intros out out' e H.
  - discriminate.
  - cbn [write_words] in H. unfold bind, lift, write in H.
    destruct (encode_utf8 word) as [wb|] eqn:Ew.
    2:{ exists [], (word, vector), items, [], [].
        assert (out' = out) by congruence. subst.
        repeat split; [now rewrite app_nil_r | now rewrite app_nil_r | auto]. }
    destruct (pack_H (Z.of_nat (length wb))) as [lb|] eqn:El.
    2:{ exists [], (word, vector), items, [], [].
        assert (out' = out) by congruence. subst.
        repeat split; [now rewrite app_nil_r | now rewrite app_nil_r | auto]. }
    apply pack_H_inv in El as [Hl ->].
    destruct (pack_floats VECTOR_DIM vector) as [vb|] eqn:Ev.
    2:{ exists [], (word, vector), items, [],
          (le_bytes 2 (Z.of_nat (length wb)) ++ wb).
        assert (out' = (out ++ le_bytes 2 (Z.of_nat (length wb))) ++ wb)
          by congruence. subst.
        repeat split;
          [now rewrite app_nil_r | now rewrite <- !app_assoc |].
        right. exists wb. cbn [fst]. auto. }
    destruct (IH _ _ _ H)
      as (pre & entry & post & body & tail & -> & Hpre & -> & Htail).
    exists ((word, vector) :: pre), entry, post,
      (le_bytes 2 (Z.of_nat (length wb)) ++ wb ++ vb ++ body), tail.
    split; [reflexivity|]. split.
    + cbn [write_words]. unfold bind, lift, write.
      rewrite Ew, pack_H_ok, Ev by exact Hl. rewrite Hpre.
      now rewrite <- !app_assoc.
    + split; [now rewrite <- !app_assoc | exact Htail].
Qed.

Lemma read_all (a : list byte) (o : nat) :
  read (length a) {| unread := a; offset := o |}
  = (Ok a, {| unread := []; offset := (o + length a)%nat |}).
Proof.
  pose proof (read_exact (length a) a [] o eq_refl) as H.
  now rewrite app_nil_r in H.
Qed.

Lemma load_words_partial (n : nat) (acc : store) (tail : list byte) (o : nat)
      (word : pystr) :
  tail = []
  \/ (exists wb,
         encode_utf8 word = Ok wb
         /\ 0 <= Z.of_nat (length wb) <= 65535
         /\ tail = le_bytes 2 (Z.of_nat (length wb)) ++ wb) ->
  exists e f,
    load_words (S n) acc {| unread := tail; offset := o |} = (Err e, f)
    /\ is_format_error e.
Proof.
  intros [->|(wb & Ew & Hl & ->)].
  - cbn [load_words]. unfold bind, lift, read, unpack_H. cbn.
    do 2 eexists. split; [reflexivity|]. eexists. reflexivity.
  - cbn [load_words]. unfold bind, lift.
    rewrite read_exact by apply length_le_bytes.
    rewrite unpack_H_pack by exact Hl. rewrite Nat2Z.id.
    rewrite read_all. rewrite (decode_encode_utf8 _ _ Ew).
    unfold read, unpack_floats. cbn [unread offset firstn skipn length].
    rewrite firstn_nil. cbn [length].
    destruct (Nat.eqb_spec 0 (4 * VECTOR_DIM)) as [E|E];
      [unfold VECTOR_DIM in E; lia|].
    do 2 eexists. split; [reflexivity|]. eexists. reflexivity.
Qed.

(** X4.  A file that [save_binary_format] leaves behind when it raises is
    never read as a store: [load_glove_binary] raises the format error of
    [struct.unpack] on it. *)
Theorem failed_save_never_loads (vectors : store) (e : exn) (out : wfile) :
  save_binary_format vectors [] = (Err e, out) ->
  exists e' f,
    load_glove_binary (open_rb out) = (Err e', f) /\ is_format_error e'.
Proof.
  unfold save_binary_format, bind, lift, write. intros H.
  destruct (pack_I (Z.of_nat (length vectors))) as [hb|] eqn:Eh.
  2:{ assert (out = []) by congruence. subst out.
      vm_compute. do 2 eexists. split; [reflexivity|]. eexists. reflexivity. }
  apply pack_I_inv in Eh as [Hn ->]. cbn [app] in H.
  destruct (write_words_error _ _ _ _ H)
    as (pre & entry & post & body & tail & Hv & Hpre & -> & Htail).
  destruct (write_words_load_words _ _ _ Hpre) as (_ & body' & Eb & Hload).
  apply app_inv_head in Eb. subst body'.
  unfold load_glove_binary, open_rb, bind, lift.
  rewrite read_exact by apply length_le_bytes.
  rewrite unpack_I_pack by exact Hn. rewrite Nat2Z.id.
  rewrite Hv, length_app. cbn [length]. rewrite load_words_add, Hload.
  apply load_words_partial with (word := fst entry). exact Htail.
Qed.

Lemma long_word_save_fails :
  exists e out, save_binary_format store_with_long_word [] = (Err e, out).
Proof.
  unfold save_binary_format, bind, lift, write.
  destruct (pack_I (Z.of_nat (length store_with_long_word))) as [hb|];
    [|eauto].
  apply (write_words_long_word _ long_word (repeat zero VECTOR_DIM)
                               long_word_bytes).
  - right. left. reflexivity.
  - exact encode_long_word.
  - exact length_long_word_bytes.
Qed.

Lemma failed_save_never_loads_witness :
  exists e' f,
    load_glove_binary
      (open_rb (snd (save_binary_format store_with_long_word [])))
    = (Err e', f)
    /\ is_format_error e'.
Proof.
  destruct long_word_save_fails as (e & out & H).
  rewrite H. exact (failed_save_never_loads _ _ _ H).
Defined.

Lemma firstn_app_le (A : Type) (a b : list A) (n : nat) :
  (n <= length a)%nat -> firstn n (a ++ b) = firstn n a.
Proof.
  intros H. rewrite firstn_app.
  replace (n - length a)%nat with 0%nat by lia.
  now rewrite firstn_O, app_nil_r.
Qed.

Lemma skipn_app_le (A : Type) (a b : list A) (n : nat) :
  (n <= length a)%nat -> skipn n (a ++ b) = skipn n a ++ b.
Proof.
  intros H. rewrite skipn_app.
  replace (n - length a)%nat with 0%nat by lia.
  now rewrite skipn_O.
Qed.

Lemma read_extend (n : nat) (data extra : list byte) (o : nat) :
  (n <= length data)%nat ->
  read n {| unread := data ++ extra; offset := o |}
  = (Ok (firstn n data),
     {| unread := skipn n data ++ extra;
        offset := (o + length (firstn n data))%nat |}).
Proof.
  intros H. unfold read. cbn [unread offset].
  now rewrite firstn_app_le, skipn_app_le by exact H.
Qed.

Lemma load_words_extend (n : nat) (extra : list byte) :
  forall (acc : store) (data : list byte) (o : nat) (s : store) (f : rfile),
    load_words n acc {| unread := data; offset := o |} = (Ok s, f) ->
    load_words n acc {| unread := data ++ extra; offset := o |}
    = (Ok s, {| unread := unread f ++ extra; offset := offset f |}).
Proof.
  induction n as [|n IH]; intros acc data o s f H.
  - cbn [load_words] in *. unfold ret in *.
    injection H as <- <-. reflexivity.
  - cbn [load_words] in *. unfold bind, lift in *.
    unfold read at 1 in H. cbn [unread offset] in H.
    destruct (unpack_H (firstn 2 data)) as [wl|] eqn:Eh; [|discriminate].
    unfold read at 1 in H. cbn [unread offset] in H.
    destruct (decode_utf8 (firstn (Z.to_nat wl) (skipn 2 data))) as [w|] eqn:Ew;
      [|discriminate].
    unfold read at 1 in H. cbn [unread offset] in H.
    destruct (unpack_floats VECTOR_DIM
                (firstn (VECTOR_DIM * 4)
                        (skipn (Z.to_nat wl) (skipn 2 data)))) as [v|] eqn:Ev;
      [|discriminate].
    assert (L2 : (2 <= length data)%nat).
    { unfold unpack_H in Eh. rewrite length_firstn in Eh.
      destruct (Nat.eqb_spec (Nat.min 2 (length data)) 2); [lia|discriminate]. }
    assert (L4 : (Z.to_nat wl + VECTOR_DIM * 4 <= length (skipn 2 data))%nat).
    { unfold unpack_floats in Ev. rewrite length_firstn, !length_skipn in Ev.
      rewrite length_skipn.
      destruct (Nat.eqb_spec
                  (Nat.min (VECTOR_DIM * 4)
                           (length data - 2 - Z.to_nat wl))
                  (4 * VECTOR_DIM)); [|discriminate].
      unfold VECTOR_DIM in *. lia. }
    rewrite read_extend by exact L2. rewrite Eh.
    rewrite read_extend by lia. rewrite Ew.
    rewrite read_extend
      by (rewrite length_skipn; rewrite length_skipn in L4 |- *; lia).
    rewrite Ev.
    apply IH. exact H.
Qed.

(** X5.  [load_glove_binary] reads the records that the header counts and
    nothing after them: bytes added at the end of a file that it reads
    change neither the store nor the offset where it stops. *)
Theorem load_glove_binary_ignores_trailing
        (data extra : list byte) (s : store) (f : rfile) :
  load_glove_binary (open_rb data) = (Ok s, f) ->
  load_glove_binary (open_rb (data ++ extra))
  = (Ok s, {| unread := unread f ++ extra; offset := offset f |}).
Proof.
  unfold load_glove_binary, open_rb, bind, lift. intros H.
  unfold read at 1 in H. cbn [unread offset] in H.
  destruct (unpack_I (firstn 4 data)) as [n|] eqn:Eh; [|discriminate].
  assert (L4 : (4 <= length data)%nat).
  { unfold unpack_I in Eh. rewrite length_firstn in Eh.
    destruct (Nat.eqb_spec (Nat.min 4 (length data)) 4); [lia|discriminate]. }
  rewrite read_extend by exact L4. rewrite Eh.
  now apply load_words_extend.
Qed.

Lemma load_glove_binary_ignores_trailing_witness :
  load_glove_binary (open_rb (example_glove_bin ++ [xff; x00; xff]))
  = (Ok example_loaded,
     {| unread := unread example_eof ++ [xff; x00; xff];
        offset := offset example_eof |}).
Proof.
  apply (load_glove_binary_ignores_trailing example_glove_bin).
  exact example_loaded_eq.
Defined.

(** ** verify_binary_file *)

Lemma first_three_dim (v : list float) :
  (3 <= length v)%nat -> first_three v = Ok (firstn 3 v).
Proof.
  destruct v as [|a [|b [|c v]]]; cbn [length]; intros H;
    try (exfalso; lia). reflexivity.
Qed.

Lemma first_three_unpacked (data : list byte) (v : list float) :
  unpack_floats VECTOR_DIM data = Ok v -> first_three v = Ok (firstn 3 v).
Proof.
  intros H. apply first_three_dim.
  rewrite (unpack_floats_dim _ _ _ H). unfold VECTOR_DIM. lia.
Qed.

(** The loop of [verify_binary_file] reads as the loop of
    [load_glove_binary] reads: it stops at the same offset, and it raises
    what that loop raises. *)
Lemma verify_words_load_words (k : nat) :
  forall (shown : list (pystr * list float)) (acc : store) (f : rfile),
    match verify_words k shown f, load_words k acc f with
    | (Ok _, f1), (Ok _, f2) => f1 = f2
    | (Err e1, f1), (Err e2, f2) => e1 = e2 /\ f1 = f2
    | _, _ => False
    end.
Proof.
  induction k as [|k IH]; intros shown acc f.
  - reflexivity.
  - cbn [verify_words load_words]. unfold bind, lift.
    destruct (read 2 f) as [[lb|] f1]; [|auto].
    destruct (unpack_H lb) as [wl|]; [|auto].
    destruct (read (Z.to_nat wl) f1) as [[wb|] f2]; [|auto].
    destruct (decode_utf8 wb) as [w|]; [|auto].
    destruct (read (VECTOR_DIM * 4) f2) as [[vb|] f3]; [|auto].
    destruct (unpack_floats VECTOR_DIM vb) as [v|] eqn:Ev; [|auto].
    rewrite (first_three_unpacked _ _ Ev). apply IH.
Qed.

Lemma verify_words_error (k : nat) (shown : list (pystr * list float))
      (acc : store) (f f' : rfile) (e : exn) :
  verify_words k shown f = (Err e, f') -> load_words k acc f = (Err e, f').
Proof.
  intros H. pose proof (verify_words_load_words k shown acc f) as S.
  rewrite H in S. destruct (load_words k acc f) as [[s|e'] f2];
    [contradiction|]. destruct S as [-> ->]. reflexivity.
Qed.

Lemma verify_words_ok (k : nat) (shown r : list (pystr * list float))
      (acc : store) (f f' : rfile) :
  verify_words k shown f = (Ok r, f') ->
  exists s, load_words k acc f = (Ok s, f').
Proof.
  intros H. pose proof (verify_words_load_words k shown acc f) as S.
  rewrite H in S. destruct (load_words k acc f) as [[s|e'] f2];
    [|contradiction]. subst f2. eauto.
Qed.

Lemma load_words_verify (k : nat) (shown : list (pystr * list float))
      (acc s : store) (f f' : rfile) :
  load_words k acc f = (Ok s, f') ->
  exists r, verify_words k shown f = (Ok r, f').
Proof.
  intros H. pose proof (verify_words_load_words k shown acc f) as S.
  rewrite H in S. destruct (verify_words k shown f) as [[r|e'] f2];
    [|contradiction]. subst f2. eauto.
Qed.

Lemma min_split (k : Z) (n : Z) :
  exists m : nat,
    Z.to_nat n = (Z.to_nat (Z.min k n) + m)%nat
    /\ (k < n -> 0 <= k -> (0 < m)%nat).
Proof.
  exists (Z.to_nat n - Z.to_nat (Z.min k n))%nat. split; lia.
Qed.

(** X6.  [verify_binary_file] raises only what [load_glove_binary] raises on
    the same file, with the file at the same offset; so it passes on every
    file that [load_glove_binary] reads. *)
Theorem verify_binary_file_sound
        (sample_words : list pystr) (data : list byte) :
  (forall e f,
      verify_binary_file sample_words (open_rb data) = (Err e, f) ->
      load_glove_binary (open_rb data) = (Err e, f))
  /\ (forall s f,
         load_glove_binary (open_rb data) = (Ok s, f) ->
         exists shown f',
           verify_binary_file sample_words (open_rb data) = (Ok shown, f')).
Proof.
  assert (He : forall e f,
             verify_binary_file sample_words (open_rb data) = (Err e, f) ->
             load_glove_binary (open_rb data) = (Err e, f)).
  { unfold verify_binary_file, load_glove_binary, bind, lift. intros e f H.
    destruct (read 4 (open_rb data)) as [[hb|] f1]; [|exact H].
    destruct (unpack_I hb) as [n|]; [|exact H].
    destruct (min_split 5 n) as (m & -> & _).
    rewrite load_words_add.
    now rewrite (verify_words_error _ _ [] _ _ _ H). }
  split; [exact He|].
  intros s f H.
  destruct (verify_binary_file sample_words (open_rb data))
    as [[shown|e] f'] eqn:E; [eauto|].
  rewrite (He _ _ eq_refl) in H. discriminate.
Qed.

Lemma unpack_H_length (data : list byte) (n : Z) :
  unpack_H data = Ok n -> length data = 2%nat.
Proof.
  unfold unpack_H. destruct (Nat.eqb_spec (length data) 2);
    [auto|discriminate].
Qed.

Lemma unpack_I_length (data : list byte) (n : Z) :
  unpack_I data = Ok n -> length data = 4%nat.
Proof.
  unfold unpack_I. destruct (Nat.eqb_spec (length data) 4);
    [auto|discriminate].
Qed.

Lemma unpack_floats_length (n : nat) (data : list byte) (v : list float) :
  unpack_floats n data = Ok v -> length data = (4 * n)%nat.
Proof.
  unfold unpack_floats. destruct (Nat.eqb_spec (length data) (4 * n));
    [auto|discriminate].
Qed.

(** A read of [n > 0] bytes after a read of [m] bytes is complete only if
    the read of [m] bytes was. *)
Lemma read_two_complete (A : Type) (data : list A) (m n : nat) :
  length (firstn n (skipn m data)) = n -> (0 < n)%nat ->
  length (firstn m data) = m.
Proof.
  rewrite !length_firstn, length_skipn. lia.
Qed.

(** The loop of [verify_binary_file] reads a prefix of the file and nothing
    else: what follows the prefix can be replaced. *)
Lemma verify_words_frame (k : nat) :
  forall (shown r : list (pystr * list float)) (data : list byte) (o : nat)
         (f : rfile),
    verify_words k shown {| unread := data; offset := o |} = (Ok r, f) ->
    exists pre,
      data = pre ++ unread f
      /\ offset f = (o + length pre)%nat
      /\ forall tail,
          verify_words k shown {| unread := pre ++ tail; offset := o |}
          = (Ok r, {| unread := tail; offset := (o + length pre)%nat |}).
Proof.
  induction k as [|k IH]; intros shown r data o f H.
  - cbn [verify_words] in H. unfold ret in H. injection H as <- <-.
    exists []. cbn [app length unread offset]. rewrite Nat.add_0_r.
    split; [reflexivity|]. split; [reflexivity|].
    intros tail. reflexivity.
  - cbn [verify_words] in H. unfold bind, lift in H.
    unfold read at 1 in H. cbn [unread offset] in H.
    destruct (unpack_H (firstn 2 data)) as [wl|] eqn:Eh; [|discriminate].
    unfold read at 1 in H. cbn [unread offset] in H.
    destruct (decode_utf8 (firstn (Z.to_nat wl) (skipn 2 data)))
      as [w|] eqn:Ew; [|discriminate].
    unfold read at 1 in H. cbn [unread offset] in H.
    destruct (unpack_floats VECTOR_DIM
                (firstn (VECTOR_DIM * 4)
                        (skipn (Z.to_nat wl) (skipn 2 data))))
      as [v|] eqn:Ev; [|discriminate].
    destruct (first_three v) as [vals|] eqn:E3; [|discriminate].
    set (lb := firstn 2 data) in *.
    set (wb := firstn (Z.to_nat wl) (skipn 2 data)) in *.
    set (vb := firstn (VECTOR_DIM * 4)
                      (skipn (Z.to_nat wl) (skipn 2 data))) in *.
    assert (L2 : length lb = 2%nat) by exact (unpack_H_length _ _ Eh).
    assert (Lv : length vb = (VECTOR_DIM * 4)%nat).
    { rewrite (unpack_floats_length _ _ _ Ev). apply Nat.mul_comm. }
    assert (Lw : length wb = Z.to_nat wl).
    { apply (read_two_complete _ (skipn 2 data) _ (VECTOR_DIM * 4));
        [exact Lv | unfold VECTOR_DIM; lia]. }
    rewrite L2, Lw, Lv in H.
    destruct (IH _ _ _ _ _ H) as (pre & Hd & Ho & Hrun).
    exists (lb ++ wb ++ vb ++ pre). split; [|split].
    + rewrite <- !app_assoc, <- Hd. subst lb wb vb.
      now rewrite !firstn_skipn.
    + rewrite Ho, !length_app, L2, Lw, Lv. lia.
    + intros tail. cbn [verify_words]. unfold bind, lift.
      rewrite <- !app_assoc.
      rewrite read_exact by exact L2. rewrite Eh.
      rewrite read_exact by exact Lw. rewrite Ew.
      rewrite read_exact by exact Lv. rewrite Ev, E3.
      rewrite Hrun. f_equal. f_equal. rewrite !length_app, L2, Lw, Lv. lia.
Qed.

Lemma verify_binary_file_frame
      (sample_words : list pystr) (data : list byte)
      (shown : list (pystr * list float)) (f : rfile) :
  verify_binary_file sample_words (open_rb data) = (Ok shown, f) ->
  exists n pre,
    unpack_I (firstn 4 data) = Ok n
    /\ firstn (offset f) data = firstn 4 data ++ pre
    /\ length (firstn 4 data) = 4%nat
    /\ offset f = (4 + length pre)%nat
    /\ forall tail,
        verify_words (Z.to_nat (Z.min 5 n)) []
                     {| unread := pre ++ tail; offset := 0 + 4 |}
        = (Ok shown, {| unread := tail; offset := offset f |}).
Proof.
  unfold verify_binary_file, open_rb, bind, lift. intros H.
  unfold read at 1 in H. cbn [unread offset] in H.
  destruct (unpack_I (firstn 4 data)) as [n|] eqn:Eh; [|discriminate].
  pose proof (unpack_I_length _ _ Eh) as L4. rewrite L4 in H.
  destruct (verify_words_frame _ _ _ _ _ _ H) as (pre & Hd & Ho & Hrun).
  exists n, pre. split; [reflexivity|].
  assert (Hdata : data = (firstn 4 data ++ pre) ++ unread f).
  { rewrite <- app_assoc, <- Hd. now rewrite firstn_skipn. }
  split; [|split; [exact L4|split; [exact Ho|]]].
  - rewrite Hdata at 1. apply firstn_exact.
    rewrite length_app, L4, Ho. reflexivity.
  - intros tail. rewrite Hrun. now rewrite Ho.
Qed.

(** X7.  [verify_binary_file] looks at the header and at the first five
    records only.  When it passes on a file whose header tells more than
    five records, it passes as well, showing the same lines, on the file cut
    after the fifth record, which [load_glove_binary] cannot read: there
    the loader raises the format error of [struct.unpack]. *)
Theorem verify_binary_file_passes_truncated
        (sample_words : list pystr) (data : list byte)
        (shown : list (pystr * list float)) (f : rfile) :
  verify_binary_file sample_words (open_rb data) = (Ok shown, f) ->
  5 < le_value (firstn 4 data) ->
  let cut := firstn (offset f) data in
  verify_binary_file sample_words (open_rb cut)
  = (Ok shown, {| unread := []; offset := offset f |})
  /\ exists e f',
      load_glove_binary (open_rb cut) = (Err e, f') /\ is_format_error e.
Proof.
  intros H Hn cut.
  destruct (verify_binary_file_frame _ _ _ _ H)
    as (n & pre & Eh & Hcut & L4 & Ho & Hrun).
  assert (En : n = le_value (firstn 4 data)).
  { unfold unpack_I in Eh. rewrite L4, Nat.eqb_refl in Eh. congruence. }
  subst cut. rewrite Hcut. split.
  - unfold verify_binary_file, open_rb, bind, lift.
    rewrite read_exact by exact L4. rewrite Eh.
    rewrite <- (app_nil_r pre). apply Hrun.
  - unfold load_glove_binary, open_rb, bind, lift.
    rewrite read_exact by exact L4. rewrite Eh.
    destruct (min_split 5 n) as (m & -> & Hm).
    rewrite load_words_add.
    pose proof (Hrun []) as Hv. rewrite app_nil_r in Hv.
    destruct (verify_words_ok _ _ _ [] _ _ Hv) as [s ->].
    destruct m as [|m]; [lia|].
    apply (load_words_partial m s [] (offset f) []). now left.
Qed.

Lemma verify_binary_file_passes_truncated_witness :
  let data := stream_five_of_six ++ [x2a] in
  exists shown f,
    verify_binary_file [] (open_rb data) = (Ok shown, f)
    /\ verify_binary_file [] (open_rb (firstn (offset f) data))
       = (Ok shown, {| unread := []; offset := offset f |})
    /\ exists e f',
        load_glove_binary (open_rb (firstn (offset f) data)) = (Err e, f')
        /\ is_format_error e.
Proof.
  intros data.
  destruct (verify_binary_file [] (open_rb data)) as [[shown|e] f] eqn:E;
    [|vm_compute in E; discriminate].
  exists shown, f. split; [reflexivity|].
  apply (verify_binary_file_passes_truncated [] data shown f E).
  vm_compute. reflexivity.
Defined.

Lemma firstn_map_comm (A B : Type) (g : A -> B) (n : nat) (l : list A) :
  firstn n (map g l) = map g (firstn n l).
Proof.
  revert l. induction n as [|n IH]; intros [|x l]; cbn [firstn map];
    [reflexivity..|]. now rewrite IH.
Qed.

(** What [write_words] appends is shown by the loop of
    [verify_binary_file], record by record. *)
Lemma write_words_verify_words (items : list (pystr * list float)) :
  forall out out' : wfile,
    write_words items out = (Ok tt, out') ->
    exists body : list byte,
      out' = out ++ body
      /\ forall (k : nat) (shown : list (pystr * list float))
                (rest : list byte) (o : nat),
          exists f,
            verify_words (Nat.min k (length items)) shown
                         {| unread := body ++ rest; offset := o |}
            = (Ok (shown ++ map sample_of (firstn k items)), f).
Proof.
  induction items as [|[word vector] items IH]; intros out out' H.
  - cbn in H. injection H as <-. exists []. split; [now rewrite app_nil_r|].
    intros k shown rest o. rewrite Nat.min_0_r, firstn_nil.
    cbn [verify_words map]. unfold ret. rewrite app_nil_r. eauto.
  - cbn [write_words] in H. unfold bind, lift, write in H.
    destruct (encode_utf8 word) as [wb|] eqn:Ew; [|discriminate].
    destruct (pack_H (Z.of_nat (length wb))) as [lb|] eqn:El; [|discriminate].
    destruct (pack_floats VECTOR_DIM vector) as [vb|] eqn:Ev; [|discriminate].
    apply pack_H_inv in El as [Hl ->].
    destruct (unpack_pack_floats _ _ _ Ev) as (Lv & Lb & Uv & Fv).
    destruct (IH _ _ H) as (body & -> & Hshow).
    exists (le_bytes 2 (Z.of_nat (length wb)) ++ wb ++ vb ++ body).
    split; [now rewrite <- !app_assoc|].
    intros [|k] shown rest o.
    + cbn [Nat.min verify_words firstn map]. unfold ret.
      rewrite app_nil_r. eauto.
    + cbn [length Nat.min verify_words firstn map]. unfold bind, lift.
      rewrite <- !app_assoc.
      rewrite read_exact by apply length_le_bytes.
      rewrite unpack_H_pack by exact Hl. rewrite Nat2Z.id.
      rewrite read_exact by reflexivity.
      rewrite (decode_encode_utf8 _ _ Ew).
      rewrite read_exact by (rewrite Lb; apply Nat.mul_comm).
      rewrite Uv, (first_three_unpacked _ _ Uv).
      destruct (Hshow k (shown ++ [(word, firstn 3 (map single_roundtrip vector))])
                      rest (o + 2 + length wb + VECTOR_DIM * 4)%nat)
        as [f ->].
      exists f. f_equal. f_equal. rewrite <- app_assoc. reflexivity.
Qed.

Lemma save_then_verify
      (vectors : store) (out : wfile) (sample_words : list pystr) :
  save_binary_format vectors [] = (Ok tt, out) ->
  exists f,
    verify_binary_file sample_words (open_rb out)
    = (Ok (map sample_of (firstn 5 vectors)), f).
Proof.
  unfold save_binary_format, bind, lift, write. intros H.
  destruct (pack_I (Z.of_nat (length vectors))) as [hb|] eqn:Eh;
    [|discriminate].
  apply pack_I_inv in Eh as [Hn ->]. cbn [app] in H.
  destruct (write_words_verify_words _ _ _ H) as (body & -> & Hshow).
  unfold verify_binary_file, open_rb, bind, lift.
  rewrite read_exact by apply length_le_bytes.
  rewrite unpack_I_pack by exact Hn.
  replace (Z.to_nat (Z.min 5 (Z.of_nat (length vectors))))
    with (Nat.min 5 (length vectors)) by lia.
  rewrite <- (app_nil_r body).
  destruct (Hshow 5%nat [] [] (0 + 4)%nat) as [f ->]. eauto.
Qed.

(** X8.  Whatever [save_binary_format] has written without raising passes
    [verify_binary_file], whose sample lines show the first five words of
    the store (all of them when there are fewer), each with its first three
    components in single precision. *)
Theorem verify_binary_file_after_save
        (vectors : store) (out : wfile) (sample_words : list pystr) :
  save_binary_format vectors [] = (Ok tt, out) ->
  exists f,
    verify_binary_file sample_words (open_rb out)
    = (Ok (map sample_of (firstn 5 vectors)), f).
Proof.
  exact (save_then_verify vectors out sample_words).
Qed.

Lemma verify_binary_file_after_save_witness :
  exists f,
    verify_binary_file [str "git"; str "log"] (open_rb example_glove_bin)
    = (Ok (map sample_of (firstn 5 example_store)), f).
Proof.
  apply (verify_binary_file_after_save example_store).
  vm_compute. reflexivity.
Defined.

(** ** verify_embeddings *)

(** What [write_embeddings] appends is shown by the loop of
    [verify_embeddings], entry by entry. *)
Lemma write_embeddings_verify_samples (embeddings : list (list float)) :
  forall out out' : wfile,
    write_embeddings embeddings out = (Ok tt, out') ->
    exists body : list byte,
      out' = out ++ body
      /\ forall (k : nat) (shown : list (list float)) (rest : list byte)
                (o : nat),
          exists f,
            verify_samples (Nat.min k (length embeddings)) VECTOR_DIM shown
                           {| unread := body ++ rest; offset := o |}
            = (Ok (shown ++ map sample_values (firstn k embeddings)), f).
Proof.
  induction embeddings as [|e embeddings IH]; intros out out' H.
  - cbn in H. injection H as <-. exists []. split; [now rewrite app_nil_r|].
    intros k shown rest o. rewrite Nat.min_0_r, firstn_nil.
    cbn [verify_samples map]. unfold ret. rewrite app_nil_r. eauto.
  - cbn [write_embeddings] in H. unfold bind, lift, write in H.
    destruct (pack_floats VECTOR_DIM e) as [vb|] eqn:Ev; [|discriminate].
    destruct (unpack_pack_floats _ _ _ Ev) as (Lv & Lb & Uv & Fv).
    destruct (IH _ _ H) as (body & -> & Hshow).
    exists (vb ++ body). split; [now rewrite <- !app_assoc|].
    intros [|k] shown rest o.
    + cbn [Nat.min verify_samples firstn map]. unfold ret.
      rewrite app_nil_r. eauto.
    + cbn [length Nat.min verify_samples firstn map]. unfold bind, lift.
      rewrite <- !app_assoc.
      rewrite read_exact by (rewrite Lb; apply Nat.mul_comm).
      rewrite Uv, (first_three_unpacked _ _ Uv).
      destruct (Hshow k (shown ++ [sample_values e]) rest
                      (o + VECTOR_DIM * 4)%nat) as [f Hf].
      unfold sample_values at 1 in Hf. rewrite Hf.
      exists f. f_equal. f_equal. rewrite <- app_assoc. reflexivity.
Qed.

Lemma main_inv (glove_bin : list byte) (commands : list command_record)
      (zero_count : nat) (out : wfile) :
  main glove_bin commands = (Ok zero_count, out) ->
  exists word_vectors f,
    load_glove_binary (open_rb glove_bin) = (Ok word_vectors, f)
    /\ store_dim word_vectors
    /\ embed_loop commands word_vectors [] 0
       = Ok (map (embedding_of word_vectors) commands, zero_count)
    /\ save_embeddings (map (embedding_of word_vectors) commands) []
       = (Ok tt, out).
Proof.
  unfold main. intros H.
  destruct (load_glove_binary (open_rb glove_bin)) as [[wv|e] f] eqn:El;
    [|discriminate].
  pose proof (load_glove_binary_dim _ _ _ El) as Hd.
  destruct (embed_loop_ok wv Hd commands [] 0%nat) as [zc Hloop].
  cbn [app] in Hloop. rewrite Hloop in H.
  destruct (save_embeddings (map (embedding_of wv) commands) [])
    as [[[]|e] out'] eqn:Es; [|discriminate].
  injection H as <- <-.
  exists wv, f. auto.
Qed.

(** X9.  Step 5 of [main] passes whenever step 4 has written the table:
    [verify_embeddings] reads the two header fields and shows, for the
    first [num_samples] records (all of them when there are fewer), the
    first three components of the embedding of the record, in single
    precision. *)
Theorem verify_embeddings_after_main
        (glove_bin : list byte) (commands : list command_record)
        (zero_count : nat) (out : wfile) (num_samples : Z) :
  main glove_bin commands = (Ok zero_count, out) ->
  exists word_vectors f f',
    load_glove_binary (open_rb glove_bin) = (Ok word_vectors, f)
    /\ verify_embeddings num_samples (open_rb out)
       = (Ok (map (fun cmd => sample_values (embedding_of word_vectors cmd))
                  (firstn (Z.to_nat num_samples) commands)), f').
Proof.
  intros H.
  destruct (main_inv _ _ _ _ H) as (wv & f & El & _ & _ & Es).
  exists wv, f.
  unfold save_embeddings, bind, lift, write in Es.
  rewrite length_map in Es.
  destruct (pack_I (Z.of_nat (length commands))) as [h1|] eqn:E1;
    [|discriminate].
  apply pack_I_inv in E1 as [Hn ->].
  rewrite pack_I_ok in Es by (unfold VECTOR_DIM; lia). cbn [app] in Es.
  destruct (write_embeddings_verify_samples _ _ _ Es) as (body & -> & Hshow).
  unfold verify_embeddings, open_rb, bind, lift.
  rewrite <- !app_assoc.
  rewrite read_exact by apply length_le_bytes.
  rewrite unpack_I_pack by exact Hn.
  rewrite read_exact by apply length_le_bytes.
  rewrite unpack_I_pack by (unfold VECTOR_DIM; lia). rewrite Nat2Z.id.
  replace (Z.to_nat (Z.min num_samples (Z.of_nat (length commands))))
    with (Nat.min (Z.to_nat num_samples)
                  (length (map (embedding_of wv) commands)))
    by (rewrite length_map; lia).
  rewrite <- (app_nil_r body).
  destruct (Hshow (Z.to_nat num_samples) [] [] (0 + 4 + 4)%nat) as [f' ->].
  exists f'. split; [exact El|]. cbn [app]. f_equal. f_equal.
  rewrite firstn_map_comm, map_map. reflexivity.
Qed.

Lemma verify_embeddings_after_main_witness :
  exists zero_count out word_vectors f f',
    main example_glove_bin [example_command; example_command_bare]
    = (Ok zero_count, out)
    /\ load_glove_binary (open_rb example_glove_bin) = (Ok word_vectors, f)
    /\ verify_embeddings 5 (open_rb out)
       = (Ok (map (fun cmd => sample_values (embedding_of word_vectors cmd))
                  (firstn (Z.to_nat 5)
                          [example_command; example_command_bare])), f').
Proof.
  destruct (main example_glove_bin [example_command; example_command_bare])
    as [[zero_count|e] out] eqn:E; [|vm_compute in E; discriminate].
  destruct (verify_embeddings_after_main _ _ _ _ 5 E)
    as (wv & f & f' & Hl & Hv).
  exists zero_count, out, wv, f, f'. auto.
Defined.

(** ** The count of zero vectors that main reports *)

Lemma embed_loop_count (word_vectors : store) :
  store_dim word_vectors ->
  forall (commands : list command_record) (acc : list (list float))
         (zero_count : nat),
    embed_loop commands word_vectors acc zero_count
    = Ok (acc ++ map (embedding_of word_vectors) commands,
          (zero_count
           + length (filter (zero_embedding word_vectors) commands))%nat).
Proof.
  intros Hd. induction commands as [|cmd commands IH]; intros acc zc.
  - cbn. now rewrite app_nil_r, Nat.add_0_r.
  - cbn [embed_loop map filter].
    destruct (embedding_of_ok word_vectors cmd Hd) as [E _].
    rewrite E. cbn [rbind]. rewrite IH, <- app_assoc. cbn [app].
    unfold zero_embedding at 2.
    destruct (forallb float_is_zero (embedding_of word_vectors cmd));
      cbn [length]; do 2 f_equal; lia.
Qed.

Lemma length_filter_le (A : Type) (p : A -> bool) (l : list A) :
  (length (filter p l) <= length l)%nat.
Proof.
  induction l as [|x l IH]; cbn [filter length]; [lia|].
  destruct (p x); cbn [length]; lia.
Qed.

Lemma length_filter_imp (A : Type) (p q : A -> bool) (l : list A) :
  (forall x, In x l -> p x = true -> q x = true) ->
  (length (filter p l) <= length (filter q l))%nat.
Proof.
  induction l as [|x l IH]; intros H; cbn [filter length]; [lia|].
  assert (IH' : (length (filter p l) <= length (filter q l))%nat).
  { apply IH. intros y Hy. apply H. now right. }
  destruct (p x) eqn:Ep.
  - rewrite (H x (or_introl eq_refl) Ep). cbn [length]. lia.
  - destruct (q x); cbn [length]; lia.
Qed.

Lemma forallb_repeat_zero (n : nat) :
  forallb float_is_zero (repeat zero n) = true.
Proof.
  induction n as [|n IH]; [reflexivity|]. cbn [repeat forallb].
  now rewrite IH.
Qed.

Lemma unmatched_zero (word_vectors : store) (cmd : command_record) :
  store_dim word_vectors ->
  unmatched word_vectors cmd = true -> zero_embedding word_vectors cmd = true.
Proof.
  intros Hd Hu. unfold zero_embedding, embedding_of.
  destruct (compute_embedding_spec cmd word_vectors Hd) as (e & -> & _ & Hz & _).
  unfold unmatched in Hu.
  destruct (matched_vectors word_vectors (token_stream cmd)); [|discriminate].
  rewrite (Hz eq_refl). apply forallb_repeat_zero.
Qed.

(** X10.  The number that [main] reports as the commands that had no
    matching words is the number of records whose embedding has only zeros.
    It is at most the number of records and at least the number of records
    none of whose tokens is in the store; a record whose matched vectors
    average to zero is counted as well. *)
Theorem main_zero_count
        (glove_bin : list byte) (commands : list command_record)
        (zero_count : nat) (out : wfile) :
  main glove_bin commands = (Ok zero_count, out) ->
  exists word_vectors f,
    load_glove_binary (open_rb glove_bin) = (Ok word_vectors, f)
    /\ zero_count = length (filter (zero_embedding word_vectors) commands)
    /\ (length (filter (unmatched word_vectors) commands) <= zero_count)%nat
    /\ (zero_count <= length commands)%nat.
Proof.
  intros H.
  destruct (main_inv _ _ _ _ H) as (wv & f & El & Hd & Hloop & _).
  exists wv, f. split; [exact El|].
  rewrite (embed_loop_count wv Hd) in Hloop. cbn [app Nat.add] in Hloop.
  assert (Hz : zero_count = length (filter (zero_embedding wv) commands))
    by congruence.
  split; [exact Hz|]. rewrite Hz. split.
  - apply length_filter_imp. intros cmd _. now apply unmatched_zero.
  - apply length_filter_le.
Qed.

Lemma main_zero_count_witness :
  exists zero_count out word_vectors f,
    main example_glove_bin [example_command; example_command_bare]
    = (Ok zero_count, out)
    /\ load_glove_binary (open_rb example_glove_bin) = (Ok word_vectors, f)
    /\ zero_count
       = length (filter (zero_embedding word_vectors)
                        [example_command; example_command_bare])
    /\ (length (filter (unmatched word_vectors)
                       [example_command; example_command_bare])
        <= zero_count)%nat
    /\ (zero_count <= 2)%nat.
Proof.
  destruct (main example_glove_bin [example_command; example_command_bare])
    as [[zero_count|e] out] eqn:E; [|vm_compute in E; discriminate].
  destruct (main_zero_count _ _ _ _ E) as (wv & f & H).
  exists zero_count, out, wv, f. split; [reflexivity|exact H].
Defined.

(** ** The tokenizer *)

Lemma alnum_not_space (c : Z) :
  is_lower_alnum c = true -> is_space c = false.
Proof.
  unfold is_lower_alnum, is_space. intros H.
  rewrite orb_true_iff, !andb_true_iff, !Z.leb_le in H.
  rewrite !orb_false_iff, !andb_false_iff, !Z.leb_gt, !Z.eqb_neq. lia.
Qed.

Lemma alnum_word_or_space (c : Z) :
  is_lower_alnum c = true -> is_word_or_space c = true.
Proof.
  unfold is_lower_alnum, is_word_or_space. intros ->. reflexivity.
Qed.

Lemma lower_char_alnum (c : Z) :
  is_lower_alnum c = true -> lower_char c = [c].
Proof.
  unfold is_lower_alnum, lower_char. intros H.
  rewrite orb_true_iff, !andb_true_iff, !Z.leb_le in H.
  destruct (Z.leb_spec 65 c), (Z.leb_spec c 90); cbn [andb]; try lia;
    destruct (Z.eqb_spec c 0x212A); try lia;
    destruct (Z.eqb_spec c 0x130); try lia; reflexivity.
Qed.

Lemma lower_token (t : pystr) :
  forallb is_lower_alnum t = true -> lower t = t.
Proof.
  unfold lower. induction t as [|c t IH]; cbn [forallb flat_map];
    [reflexivity|].
  intros H. apply andb_true_iff in H as [Hc Ht].
  now rewrite (lower_char_alnum _ Hc), IH.
Qed.

Lemma sub_special_token (t : pystr) :
  forallb is_lower_alnum t = true -> sub_special t = t.
Proof.
  unfold sub_special. induction t as [|c t IH]; cbn [forallb map];
    [reflexivity|].
  intros H. apply andb_true_iff in H as [Hc Ht].
  now rewrite (alnum_word_or_space _ Hc), IH.
Qed.

Lemma split_from_word (s : pystr) :
  forall cur : pystr,
    forallb is_lower_alnum s = true -> cur ++ s <> [] ->
    split_from cur s = [rev cur ++ s].
Proof.
  induction s as [|c s IH]; intros cur Hs Hne.
  - rewrite app_nil_r in *. cbn [split_from].
    destruct cur; [contradiction|reflexivity].
  - cbn [forallb] in Hs. apply andb_true_iff in Hs as [Hc Hs].
    cbn [split_from]. rewrite (alnum_not_space _ Hc).
    rewrite IH by (auto; discriminate).
    cbn [rev]. now rewrite <- app_assoc.
Qed.

Lemma tokens_shape (text t : pystr) :
  In t (tokenize text) -> is_token t = true.
Proof.
  rewrite tokenize_unfold. intros Hin.
  apply filter_In in Hin as [Hin Hlen]. unfold is_token. rewrite Hlen.
  apply forallb_forall. intros c Hc.
  destruct (split_from_tokens _ _ _ Hin) as [_ Hchars].
  destruct (Hchars c Hc) as [[]|[Hs Hsp]].
  apply sub_special_chars in Hs. unfold is_word_or_space in Hs.
  rewrite Hsp, orb_false_r in Hs. exact Hs.
Qed.

Lemma tokenize_token (t : pystr) : is_token t = true -> tokenize t = [t].
Proof.
  unfold is_token. intros H. apply andb_true_iff in H as [Hlen Hc].
  rewrite tokenize_unfold, (lower_token _ Hc), (sub_special_token _ Hc).
  unfold split. rewrite split_from_word.
  - cbn [rev app filter]. now rewrite Hlen.
  - exact Hc.
  - destruct t; [discriminate|]. discriminate.
Qed.

(** X11.  A token is left as it is by [tokenize]: tokenizing a token of a
    text gives that token alone, so that tokenizing the tokens of a text
    again, each by itself or joined by spaces, changes nothing. *)
Theorem tokenize_fixed_point (text t : pystr) :
  In t (tokenize text) -> tokenize t = [t].
Proof.
  intros H. apply tokenize_token. exact (tokens_shape _ _ H).
Qed.

Lemma tokenize_fixed_point_witness :
  In (str "log") (tokenize (str "Git-Log v2!!"))
  /\ tokenize (str "log") = [str "log"].
Proof.
  assert (H : In (str "log") (tokenize (str "Git-Log v2!!")))
    by (vm_compute; auto).
  split; [exact H|]. exact (tokenize_fixed_point _ _ H).
Defined.

Lemma lower_app (a b : pystr) : lower (a ++ b) = lower a ++ lower b.
Proof.
  unfold lower. apply flat_map_app.
Qed.

Lemma sub_special_app (a b : pystr) :
  sub_special (a ++ b) = sub_special a ++ sub_special b.
Proof.
  unfold sub_special. apply map_app.
Qed.

Lemma split_from_app_space (x y : pystr) (s : Z) :
  is_space s = true ->
  forall cur : pystr,
    split_from cur (x ++ s :: y) = split_from cur x ++ split_from [] y.
Proof.
  intros Hs. induction x as [|c x IH]; intros cur.
  - cbn [app split_from]. rewrite Hs. destruct cur; reflexivity.
  - cbn [app split_from]. destruct (is_space c).
    + destruct cur; rewrite IH; reflexivity.
    + apply IH.
Qed.

Lemma separator_lower (sep : Z) :
  is_separator sep = true ->
  lower_char sep = [sep] /\ is_lower_alnum sep = false.
Proof.
  unfold is_separator, lower_char.
  destruct (Z.leb_spec 65 sep), (Z.leb_spec sep 90); cbn [andb];
    try (destruct (Z.eqb_spec sep 0x212A); [intros; discriminate|];
         destruct (Z.eqb_spec sep 0x130); [intros; discriminate|];
         cbn [forallb]; rewrite andb_true_r, negb_true_iff; auto).
  cbn [forallb]. rewrite andb_true_r, negb_true_iff.
  unfold is_lower_alnum.
  rewrite !orb_false_iff, !andb_false_iff, !Z.leb_gt. lia.
Qed.

(** X12.  A character whose lowercase has no letter [a-z] and no digit (a
    whitespace, a punctuation mark, any character outside ASCII but U+212A
    and U+0130) separates tokens and nothing else: the tokens of a text are
    those of the part before it followed by those of the part after it. *)
Theorem tokenize_separator (a b : pystr) (sep : Z) :
  is_separator sep = true ->
  tokenize (a ++ sep :: b) = tokenize a ++ tokenize b.
Proof.
  intros H. destruct (separator_lower _ H) as [Hl Ha].
  rewrite !tokenize_unfold.
  change (sep :: b) with ([sep] ++ b).
  rewrite !lower_app, !sub_special_app.
  unfold lower at 2. cbn [flat_map]. rewrite Hl. cbn [app].
  unfold sub_special at 2. cbn [map app].
  unfold split. rewrite split_from_app_space, filter_app; [reflexivity|].
  change (is_word_or_space sep) with (is_lower_alnum sep || is_space sep).
  rewrite Ha. cbn [orb].
  destruct (is_space sep) eqn:Es; [exact Es|reflexivity].
Qed.

Lemma tokenize_separator_witness :
  tokenize (str "git" ++ 45 :: str "log")
  = tokenize (str "git") ++ tokenize (str "log").
Proof.
  apply (tokenize_separator (str "git") (str "log") 45). reflexivity.
Defined.

(** X13.  [tokenize] does not tell an ASCII capital from its small letter:
    replacing one by the other anywhere in a text leaves the tokens as they
    are. *)
Theorem tokenize_ignores_case (a b : pystr) (c : Z) :
  65 <= c <= 90 ->
  tokenize (a ++ c :: b) = tokenize (a ++ (c + 32) :: b).
Proof.
  intros H. rewrite !tokenize_unfold.
  change (c :: b) with ([c] ++ b).
  change ((c + 32) :: b) with ([c + 32] ++ b).
  rewrite !lower_app. do 4 f_equal.
  unfold lower, lower_char. cbn [flat_map].
  destruct (Z.leb_spec 65 c), (Z.leb_spec c 90); try lia.
  destruct (Z.leb_spec 65 (c + 32)), (Z.leb_spec (c + 32) 90); try lia.
  cbn [andb].
  destruct (Z.eqb_spec (c + 32) 0x212A); try lia.
  destruct (Z.eqb_spec (c + 32) 0x130); try lia. reflexivity.
Qed.

Lemma tokenize_ignores_case_witness :
  tokenize (str "git " ++ 76 :: str "og")
  = tokenize (str "git " ++ (76 + 32) :: str "og").
Proof.
  apply (tokenize_ignores_case (str "git ") (str "og") 76). lia.
Defined.

(** ** The words of the store that an embedding can use *)

(** The embedding depends on the store through the lookups of the tokens
    of the record. *)
Lemma compute_embedding_lookups
      (cmd : command_record) (word_vectors1 word_vectors2 : store) :
  (forall token, In token (all_tokens_of cmd) ->
                 dict_get word_vectors1 token = dict_get word_vectors2 token) ->
  compute_embedding cmd word_vectors1 = compute_embedding cmd word_vectors2.
Proof.
  intros Hget. unfold compute_embedding.
  assert (Hv : forall tokens acc,
             (forall token, In token tokens ->
                dict_get word_vectors1 token = dict_get word_vectors2 token) ->
             fold_left (fun acc token =>
                          match dict_get word_vectors1 token with
                          | Some v => acc ++ [v]
                          | None => acc
                          end) tokens acc
             = fold_left (fun acc token =>
                            match dict_get word_vectors2 token with
                            | Some v => acc ++ [v]
                            | None => acc
                            end) tokens acc).
  { induction tokens as [|t tokens IH]; intros acc H; cbn [fold_left];
      [reflexivity|].
    rewrite (H t (or_introl eq_refl)). apply IH.
    intros token Hin. apply H. now right. }
  now rewrite (Hv _ _ Hget).
Qed.

Lemma dict_get_usable (word_vectors : store) (token : pystr) :
  is_token token = true ->
  dict_get (usable_entries word_vectors) token = dict_get word_vectors token.
Proof.
  intros Ht. unfold usable_entries.
  induction word_vectors as [|[k v] d IH]; [reflexivity|].
  cbn [filter fst dict_get]. destruct (str_eqb k token) eqn:E.
  - apply str_eqb_eq in E. subst k. rewrite Ht. cbn [dict_get].
    now rewrite str_eqb_refl.
  - destruct (is_token k); [cbn [dict_get]; now rewrite E|exact IH].
Qed.

Lemma all_tokens_shape (cmd : command_record) (token : pystr) :
  In token (all_tokens_of cmd) -> is_token token = true.
Proof.
  rewrite all_tokens_stream. unfold token_stream, field_tokens, keyword_tokens.
  rewrite !in_app_iff. intros [H|[H|H]].
  - destruct (command cmd); [exact (tokens_shape _ _ H)|contradiction].
  - destruct (description cmd); [exact (tokens_shape _ _ H)|contradiction].
  - destruct (keywords cmd) as [ks|]; [|contradiction].
    apply in_flat_map in H as (k & _ & H). exact (tokens_shape _ _ H).
Qed.

(** X14.  Only the words of the store that have at least 2 characters, all
    of them small ASCII letters or digits, are ever matched: the entries of
    any other word (a single letter, a word with a capital, a hyphen, an
    apostrophe or a character outside ASCII, a punctuation mark) can be
    removed from the store without changing the embedding of any record. *)
Theorem compute_embedding_usable_entries
        (cmd : command_record) (word_vectors : store) :
  compute_embedding cmd (usable_entries word_vectors)
  = compute_embedding cmd word_vectors.
Proof.
  apply compute_embedding_lookups. intros token H.
  apply dict_get_usable. exact (all_tokens_shape _ _ H).
Qed.

(** ** From the corpus to the store that embed_commands.py loads *)

Lemma save_then_load (vectors : store) (out : wfile) :
  save_binary_format vectors [] = (Ok tt, out) ->
  NoDup (keys vectors) ->
  load_glove_binary (open_rb out)
  = (Ok (store_to_single vectors),
     {| unread := []; offset := length out |}).
Proof.
  unfold save_binary_format, bind, lift, write. intros H Hnd.
  destruct (pack_I (Z.of_nat (length vectors))) as [hb|] eqn:Eh;
    [|discriminate].
  apply pack_I_inv in Eh as [Hn ->]. cbn [app] in H.
  destruct (write_words_load_words _ _ _ H) as (_ & body & -> & Hload).
  unfold load_glove_binary, open_rb, bind, lift.
  rewrite read_exact by apply length_le_bytes.
  rewrite unpack_I_pack by exact Hn. rewrite Nat2Z.id.
  rewrite <- (app_nil_r body) at 1. rewrite Hload. f_equal. f_equal.
  apply (fold_set_entry_fresh (map read_back vectors) []).
  cbn [keys map app]. fold (keys (map read_back vectors)).
  now rewrite keys_read_back.
Qed.

Lemma dict_set_In (V : Type) (d : dict V) (k w : pystr) (x v : V) :
  In (w, v) (dict_set d k x) -> In (w, v) d \/ (w, v) = (k, x).
Proof.
  induction d as [|[k' v'] d IH]; cbn [dict_set In].
  - intros [E|[]]. right. congruence.
  - destruct (str_eqb k' k) eqn:E.
    + apply str_eqb_eq in E. subst k'. intros [H|H]; [right; congruence|].
      left. now right.
    + intros [H|H]; [left; now left|].
      destruct (IH H) as [H'|H']; [left; now right|now right].
Qed.

Lemma fold_set_entry_In (entries : list (pystr * list float)) :
  forall (acc : store) (w : pystr) (v : list float),
    In (w, v) (fold_left set_entry entries acc) ->
    In (w, v) acc \/ In (w, v) entries.
Proof.
  induction entries as [|[k x] entries IH]; intros acc w v H.
  - now left.
  - cbn [fold_left] in H. destruct (IH _ _ _ H) as [H'|H'].
    + unfold set_entry in H'. cbn [fst snd] in H'.
      apply dict_set_In in H' as [H'|H']; [now left|].
      right. left. congruence.
    + right. now right.
Qed.

(** X15.  What [embed_commands.py] loads is what [prepare_glove.py] kept.
    Whenever [main] of [prepare_glove.py] completes, [load_glove_binary]
    reads the whole of the file it wrote, and the store it returns is the
    store of [load_glove_vectors], the same words in the same order, with
    every component converted to single precision; the verification step
    has shown the first five of these entries. *)
Theorem prepare_glove_main_output
        (py_float : pystr -> option float) (lines : list pystr)
        (shown : list (pystr * list float)) (out : wfile) :
  prepare_glove_main py_float lines = (Ok shown, out) ->
  exists vectors,
    load_glove_vectors py_float lines TOP_K_WORDS = Ok vectors
    /\ load_glove_binary (open_rb out)
       = (Ok (store_to_single vectors),
          {| unread := []; offset := length out |})
    /\ shown = map sample_of (firstn 5 vectors).
Proof.
  unfold prepare_glove_main. intros H.
  destruct (load_glove_vectors py_float lines TOP_K_WORDS)
    as [vectors|e] eqn:El; [|discriminate].
  destruct (save_binary_format vectors []) as [[[]|e] out'] eqn:Es;
    [|discriminate].
  destruct (save_then_verify _ _ (firstn 5 (keys vectors)) Es) as [f Hv].
  rewrite Hv in H. injection H as <- <-.
  exists vectors. split; [reflexivity|]. split; [|reflexivity].
  apply save_then_load; [exact Es|].
  unfold load_glove_vectors in El.
  now destruct (load_lines_invariants py_float _ _ _ _ _ El (NoDup_nil _)
                                      (Forall_nil _)) as (Hnd & _).
Qed.

Lemma prepare_glove_main_output_witness :
  exists shown out vectors,
    prepare_glove_main float_of_literal corpus_three = (Ok shown, out)
    /\ load_glove_vectors float_of_literal corpus_three TOP_K_WORDS
       = Ok vectors
    /\ load_glove_binary (open_rb out)
       = (Ok (store_to_single vectors),
          {| unread := []; offset := length out |})
    /\ shown = map sample_of (firstn 5 vectors).
Proof.
  destruct (prepare_glove_main float_of_literal corpus_three)
    as [[shown|e] out] eqn:E; [|vm_compute in E; discriminate].
  destruct (prepare_glove_main_output _ _ _ _ E) as (vectors & H).
  exists shown, out, vectors. split; [reflexivity|exact H].
Defined.

(** X16.  [main] of [prepare_glove.py] completes when none of the first
    100000 lines of the corpus raises and every valid line among them has a
    word whose UTF-8 encoding has at most 65535 bytes and components in the
    single-precision range. *)
Theorem prepare_glove_main_completes
        (py_float : pystr -> option float) (lines : list pystr) :
  let head := firstn (Z.to_nat TOP_K_WORDS) lines in
  Forall (never_raises py_float) head ->
  Forall storable (accepted_entries py_float head) ->
  exists shown out, prepare_glove_main py_float lines = (Ok shown, out).
Proof.
  intros head Hok Hst. unfold prepare_glove_main.
  assert (El : load_glove_vectors py_float lines TOP_K_WORDS
               = Ok (fold_left set_entry (accepted_entries py_float head) [])).
  { unfold load_glove_vectors, head.
    rewrite (load_lines_first py_float lines 0 TOP_K_WORDS []);
      rewrite Z.sub_0_r; [reflexivity|exact Hok]. }
  rewrite El.
  set (vectors := fold_left set_entry (accepted_entries py_float head) []) in *.
  assert (Hall : Forall storable vectors).
  { apply Forall_forall. intros [w v] Hin.
    destruct (fold_set_entry_In _ _ _ _ Hin) as [[]|Hin'].
    exact (proj1 (Forall_forall _ _) Hst _ Hin'). }
  assert (Hlen : Z.of_nat (length vectors) <= 4294967295).
  { unfold load_glove_vectors in El.
    destruct (load_lines_invariants py_float _ _ _ _ _ El (NoDup_nil _)
                                    (Forall_nil _)) as (_ & _ & Hl & _).
    cbn [length] in Hl. unfold TOP_K_WORDS in Hl. lia. }
  destruct (write_words_ok _ Hall (le_bytes 4 (Z.of_nat (length vectors))))
    as [out Hw].
  assert (Es : save_binary_format vectors [] = (Ok tt, out)).
  { unfold save_binary_format, bind, lift, write.
    rewrite pack_I_ok by lia. cbn [app]. exact Hw. }
  rewrite Es.
  destruct (save_then_verify _ _ (firstn 5 (keys vectors)) Es) as [f ->].
  eauto.
Qed.

Lemma prepare_glove_main_completes_witness :
  exists shown out,
    prepare_glove_main float_of_literal corpus_three = (Ok shown, out).
Proof.
  apply (prepare_glove_main_completes float_of_literal corpus_three).
  - repeat constructor; intros e; vm_compute; discriminate.
  - vm_compute firstn. unfold accepted_entries, corpus_three.
    cbn [flat_map].
    repeat match goal with
           | |- context [outcome_of float_of_literal ?l] =>
               let r := eval vm_compute in (outcome_of float_of_literal l) in
               change (outcome_of float_of_literal l) with r
           end.
    cbn [app]. repeat constructor;
      try (eexists; split; [vm_compute; reflexivity|vm_compute; discriminate]).
Defined.

(** ** The store that load_glove_binary returns *)

Lemma unpack_items_single (n : nat) :
  forall (data : list byte) (x : float),
    In x (unpack_items n data) -> is_single x.
Proof.
  induction n as [|n IH]; intros data x; cbn [unpack_items In];
    [contradiction|].
  intros [<-|H]; [apply unpack_f_single|exact (IH _ _ H)].
Qed.

Lemma unpack_floats_single (n : nat) (data : list byte) (v : list float)
      (x : float) :
  unpack_floats n data = Ok v -> In x v -> is_single x.
Proof.
  unfold unpack_floats. destruct (length data =? 4 * n)%nat; [|discriminate].
  intros H. assert (v = unpack_items n data) by congruence. subst v.
  apply unpack_items_single.
Qed.

Lemma load_words_invariants (n : nat) :
  forall (acc s : store) (f f' : rfile),
    load_words n acc f = (Ok s, f') ->
    NoDup (keys acc) ->
    (forall w v x, In (w, v) acc -> In x v -> is_single x) ->
    NoDup (keys s)
    /\ (length s <= length acc + n)%nat
    /\ (forall w v x, In (w, v) s -> In x v -> is_single x).
Proof.
  induction n as [|n IH]; intros acc s f f' H Hnd Hs.
  - cbn [load_words] in H. unfold ret in H.
    assert (acc = s) by congruence. subst s. repeat split; auto; lia.
  - cbn [load_words] in H. unfold bind, lift in H.
    destruct (read 2 f) as [[lb|] f1]; [|discriminate].
    destruct (unpack_H lb) as [wl|]; [|discriminate].
    destruct (read (Z.to_nat wl) f1) as [[wb|] f2]; [|discriminate].
    destruct (decode_utf8 wb) as [w|]; [|discriminate].
    destruct (read (VECTOR_DIM * 4) f2) as [[vb|] f3]; [|discriminate].
    destruct (unpack_floats VECTOR_DIM vb) as [v|] eqn:Ev; [|discriminate].
    destruct (IH _ _ _ _ H) as (Hnd' & Hl & Hs').
    + now apply dict_set_NoDup.
    + intros w' v' x Hin Hx. apply dict_set_In in Hin as [Hin|E].
      * exact (Hs _ _ _ Hin Hx).
      * assert (v' = v) by congruence. subst v'.
        exact (unpack_floats_single _ _ _ _ Ev Hx).
    + split; [exact Hnd'|]. split; [|exact Hs'].
      pose proof (length_dict_set _ acc w v). lia.
Qed.

(** X17.  The store that [load_glove_binary] returns has pairwise distinct
    words, at most as many as the header tells (fewer when a word comes
    twice in the file), each with a vector of 100 components that are
    single-precision values; the loader has read a prefix of the file,
    and what it leaves unread is the file from the offset where it stops. *)
Theorem load_glove_binary_invariants
        (data : list byte) (s : store) (f : rfile) :
  load_glove_binary (open_rb data) = (Ok s, f) ->
  NoDup (keys s)
  /\ store_dim s
  /\ Z.of_nat (length s) <= le_value (firstn 4 data)
  /\ (forall w v x, In (w, v) s -> In x v -> is_single x)
  /\ data = firstn (offset f) data ++ unread f
  /\ (offset f <= length data)%nat.
Proof.
  intros H. pose proof (load_glove_binary_dim _ _ _ H) as Hd.
  unfold load_glove_binary, open_rb, bind, lift in H.
  unfold read at 1 in H. cbn [unread offset] in H.
  destruct (unpack_I (firstn 4 data)) as [n|] eqn:Eh; [|discriminate].
  pose proof (unpack_I_length _ _ Eh) as L4. rewrite L4 in H.
  assert (En : n = le_value (firstn 4 data)).
  { unfold unpack_I in Eh. rewrite L4, Nat.eqb_refl in Eh. congruence. }
  destruct (load_words_invariants _ _ _ _ _ H (NoDup_nil _))
    as (Hnd & Hl & Hs); [intros w v x []|].
  destruct (load_words_verify _ [] _ _ _ _ H) as [r Hv].
  destruct (verify_words_frame _ _ _ _ _ _ Hv) as (pre & Hp & Ho & _).
  assert (Hdata : data = (firstn 4 data ++ pre) ++ unread f).
  { rewrite <- app_assoc, <- Hp. now rewrite firstn_skipn. }
  assert (Hoff : offset f = length (firstn 4 data ++ pre)).
  { rewrite length_app, L4, Ho. reflexivity. }
  split; [exact Hnd|]. split; [exact Hd|]. split.
  { cbn [length] in Hl. pose proof (le_value_range (firstn 4 data)). lia. }
  split; [exact Hs|]. split.
  - rewrite Hdata at 2. rewrite firstn_exact by (symmetry; exact Hoff).
    exact Hdata.
  - rewrite Hdata at 1. rewrite length_app, <- Hoff. lia.
Qed.

Lemma load_glove_binary_invariants_witness :
  NoDup (keys example_loaded)
  /\ store_dim example_loaded
  /\ Z.of_nat (length example_loaded) <= le_value (firstn 4 example_glove_bin)
  /\ (forall w v x, In (w, v) example_loaded -> In x v -> is_single x)
  /\ example_glove_bin
     = firstn (offset example_eof) example_glove_bin ++ unread example_eof
  /\ (offset example_eof <= length example_glove_bin)%nat.
Proof.
  apply (load_glove_binary_invariants example_glove_bin).
  exact example_loaded_eq.
Defined.

(** ** When the writers succeed *)

(** X18.  [save_binary_format] writes a store to the end exactly when the
    format can hold it: at most 4294967295 entries, each with a word that
    has a UTF-8 encoding of at most 65535 bytes and a vector of 100
    components in the single-precision range.  On any other store it
    raises. *)
Theorem save_binary_format_succeeds_iff (vectors : store) :
  (exists out, save_binary_format vectors [] = (Ok tt, out))
  <-> Z.of_nat (length vectors) <= 4294967295 /\ Forall storable vectors.
Proof.
  unfold save_binary_format, bind, lift, write. split.
  - intros [out H].
    destruct (pack_I (Z.of_nat (length vectors))) as [hb|] eqn:Eh;
      [|discriminate].
    apply pack_I_inv in Eh as [Hn ->]. cbn [app] in H.
    split; [lia|]. exact (proj1 (write_words_load_words _ _ _ H)).
  - intros [Hn Hst]. rewrite pack_I_ok by lia. cbn [app].
    apply write_words_ok. exact Hst.
Qed.

Lemma write_embeddings_inv (embeddings : list (list float)) :
  forall out out' : wfile,
    write_embeddings embeddings out = (Ok tt, out') ->
    Forall (fun e => length e = VECTOR_DIM /\ forallb fits_single e = true)
           embeddings.
Proof.
  induction embeddings as [|e embeddings IH]; intros out out' H;
    [constructor|].
  cbn [write_embeddings] in H. unfold bind, lift, write in H.
  destruct (pack_floats VECTOR_DIM e) as [vb|] eqn:Ev; [|discriminate].
  destruct (unpack_pack_floats _ _ _ Ev) as (Lv & _ & _ & Fv).
  constructor; [auto|exact (IH _ _ H)].
Qed.

(** X19.  Steps 1 to 4 of [main] of [embed_commands.py] complete exactly
    when [load_glove_binary] reads the store, there are at most 4294967295
    records, and every component of every embedding is in the
    single-precision range: once the store is loaded, nothing raises before
    the table is written, and the writer raises on nothing else. *)
Theorem main_completes_iff
        (glove_bin : list byte) (commands : list command_record) :
  (exists zero_count out, main glove_bin commands = (Ok zero_count, out))
  <-> exists word_vectors f,
        load_glove_binary (open_rb glove_bin) = (Ok word_vectors, f)
        /\ Z.of_nat (length commands) <= 4294967295
        /\ forall cmd, In cmd commands ->
             forallb fits_single (embedding_of word_vectors cmd) = true.
Proof.
  split.
  - intros (z & out & H).
    destruct (main_inv _ _ _ _ H) as (wv & f & El & Hd & _ & Es).
    exists wv, f. split; [exact El|].
    unfold save_embeddings, bind, lift, write in Es.
    rewrite length_map in Es.
    destruct (pack_I (Z.of_nat (length commands))) as [h1|] eqn:E1;
      [|discriminate].
    apply pack_I_inv in E1 as [Hn _]. split; [lia|].
    destruct (pack_I (Z.of_nat VECTOR_DIM)) as [h2|]; [|discriminate].
    pose proof (write_embeddings_inv _ _ _ Es) as Hall.
    intros cmd Hin.
    apply (proj1 (Forall_forall _ _) Hall (embedding_of wv cmd)).
    now apply in_map.
  - intros (wv & f & El & Hn & Hfit).
    pose proof (load_glove_binary_dim _ _ _ El) as Hd.
    unfold main. rewrite El.
    destruct (embed_loop_ok wv Hd commands [] 0%nat) as [zc ->].
    cbn [app].
    assert (Hall : Forall (fun e => length e = VECTOR_DIM
                                    /\ forallb fits_single e = true)
                          (map (embedding_of wv) commands)).
    { apply Forall_forall. intros e He.
      apply in_map_iff in He as (cmd & <- & Hin). split.
      - apply embedding_of_ok, Hd.
      - now apply Hfit. }
    unfold save_embeddings, bind, lift, write.
    rewrite length_map, pack_I_ok by lia.
    rewrite pack_I_ok by (unfold VECTOR_DIM; lia). cbn [app].
    destruct (write_embeddings_ok _ Hall
                (le_bytes 4 (Z.of_nat (length commands))
                 ++ le_bytes 4 (Z.of_nat VECTOR_DIM)))
      as (body & -> & _).
    eauto.
Qed.
